(** * nalu-wind: equation-system orchestration and field lifecycle

    A shallow embedding of [EquationSystems] (the orchestrator of
    EquationSystems.C), of the [EquationSystem] hook interface
    (EquationSystem.h) and of [FieldManager] (FieldManager.h).

    The orchestrator is sequential code whose observable behaviour is the
    order in which it calls its collaborators (the realm, the algorithm
    drivers, the equation systems, the rank-0 output stream) and the way a
    run ends: normally, by a thrown exception, or by dereferencing a null
    pointer.  It is embedded in a small monad that threads the call trace and
    propagates the abnormal endings.

    The hooks of the concrete equation systems, the realm and the drivers
    are implemented elsewhere: a call on them is recorded, what it returns
    is a parameter, and it is taken to return normally and to leave the
    containers of the collection ([equationSystemVector_], [bcDataAlg_],
    the driver lists) as they are.  The constructors of the concrete
    systems are the exception: what they push on [equationSystemVector_] is
    a parameter as well. *)

From Stdlib Require Import ZArith QArith Lia.
From stdpp Require Import base option list gmap strings.

Local Open Scope string_scope.
Local Open Scope list_scope.

(** ** Values *)

(** A C++ [double], as far as this code observes it: values are only
    compared ([operator<] inside [std::max]) and passed on, never computed
    with, so a finite double is the rational it denotes. *)
Inductive double : Type :=
| DNaN
| DInf (negative : bool)
| DFin (q : Q).

(** [a < b] on doubles: false as soon as one side is NaN. *)
Definition double_lt (a b : double) : bool :=
  match a, b with
  | DNaN, _ | _, DNaN => false
  | DInf true, DInf true => false
  | DInf true, _ => true
  | _, DInf true => false
  | DInf false, _ => false
  | _, DInf false => true
  | DFin x, DFin y => negb (Qle_bool y x)
  end.

(** [std::max(a, b)] is [(a < b) ? b : a]. *)
Definition std_max (a b : double) : double :=
  if double_lt a b then b else a.

(** ** Endings of a call *)

Inductive Exception : Type :=
| runtime_error (what : string)
| bad_variant_access
| UnknownField (name : string)
| ConflictingRedefinition (name : string).

Inductive Outcome (A : Type) : Type :=
| Done (a : A)
| Thrown (e : Exception)
| NullDereference.
Arguments Done {A} a.
Arguments Thrown {A} e.
Arguments NullDereference {A}.

Definition is_Done {A} (o : Outcome A) : bool :=
  match o with Done _ => true | _ => false end.

(** ** The mesh database (stk::mesh::MetaData), as the orchestrator sees it *)

Inductive EntityRank : Type :=
| NODE_RANK | EDGE_RANK | FACE_RANK | ELEMENT_RANK | CONSTRAINT_RANK.

#[global] Instance EntityRank_eq_dec : EqDecision EntityRank.
Proof. solve_decision. Defined.

Definition EntityRank_to_nat (r : EntityRank) : nat :=
  match r with
  | NODE_RANK => 0 | EDGE_RANK => 1 | FACE_RANK => 2
  | ELEMENT_RANK => 3 | CONSTRAINT_RANK => 4
  end.

Definition EntityRank_of_nat (n : nat) : option EntityRank :=
  match n with
  | 0 => Some NODE_RANK | 1 => Some EDGE_RANK | 2 => Some FACE_RANK
  | 3 => Some ELEMENT_RANK | 4 => Some CONSTRAINT_RANK | _ => None
  end.

#[global] Instance EntityRank_countable : Countable EntityRank.
Proof.
  apply (inj_countable EntityRank_to_nat EntityRank_of_nat).
  by intros [].
Defined.

(** [stk::topology] is passed through untouched; its name stands for it. *)
Definition topology := string.

(** A mesh part with what the orchestrator reads of it. *)
#[warnings="-register-all"]
Inductive Part : Type :=
  mkPart {
    part_name : string;
    primary_entity_rank : EntityRank;
    part_topology : topology;
    subsets : list Part
  }.

(** A field materialised on the mesh database. *)
Record RegisteredField : Type := mkRegisteredField {
  number_of_states : Z;
  number_of_components : Z;
  field_parts : list string
}.

Record MetaData : Type := mkMetaData {
  spatial_dimension : Z;
  side_rank : EntityRank;
  meta_parts : gmap string Part;
  meta_fields : gmap (EntityRank * string) RegisteredField
}.

(** [meta_data.get_part(name)]: the part, or a null pointer. *)
Definition get_part (meta : MetaData) (name : string) : option Part :=
  meta_parts meta !! name.

(** ** Collaborators *)

Record Realm : Type := mkRealm {
  hasOverset_ : bool;
  query_for_overset : bool;
  realmUsesEdges_ : bool;
  matrix_free : bool;
  get_activate_memory_diagnostic : bool;
  meta_data : MetaData
}.

Inductive Algorithm : Type := Alg (id : nat).
Inductive AlgorithmDriver : Type := AlgDriver (id : nat).
Inductive LinearSystem : Type := LinSys (id : nat).

(** The data members of [EquationSystem] that [EquationSystems] reads or
    writes.  [eqs_this] is the address of the object. *)
Record EquationSystem : Type := mkEquationSystem {
  eqs_this : nat;
  eqs_name_ : string;
  eqnTypeName_ : string;
  bcDataAlg_ : list Algorithm;
  bcDataMapAlg_ : list Algorithm;
  linsys_ : option LinearSystem;
  numOversetIters_ : Z;
  decoupledOverset_ : bool
}.

#[global] Instance Algorithm_eq_dec : EqDecision Algorithm.
Proof. solve_decision. Defined.
#[global] Instance LinearSystem_eq_dec : EqDecision LinearSystem.
Proof. solve_decision. Defined.
#[global] Instance EquationSystem_eq_dec : EqDecision EquationSystem.
Proof. solve_decision. Defined.

(** Boundary-condition data (NaluParsedTypes.h): opaque to the
    orchestrator except for the members it reads. *)
Record BoundaryConditionData : Type := mkBCData {
  bcName_ : string;
  targetName_ : string
}.
Definition WallBoundaryConditionData := BoundaryConditionData.
Definition InflowBoundaryConditionData := BoundaryConditionData.
Definition OpenBoundaryConditionData := BoundaryConditionData.
Definition SymmetryBoundaryConditionData := BoundaryConditionData.
Definition ABLTopBoundaryConditionData := BoundaryConditionData.

Record PeriodicUserData : Type := mkPeriodicUserData {
  searchTolerance_ : double;
  searchMethodName_ : string
}.
Record PeriodicBoundaryConditionData : Type := mkPeriodicBCData {
  userData_ : PeriodicUserData
}.
Record NonConformalBoundaryConditionData : Type := mkNonConformalBCData {
  currentPartNameVec_ : list string;
  opposingPartNameVec_ : list string
}.

Inductive BcKind : Type :=
| wall_bc | inflow_bc | open_bc | symmetry_bc | abltop_bc | non_conformal_bc.

(** The constructor calls of [EquationSystems::load]. *)
Inductive EqSysCtor : Type :=
| MatrixFreeLowMachEquationSystem
| LowMachEquationSystem (elemCont : bool)
| VolumeOfFluidEquationSystem
| ShearStressTransportEquationSystem
| ChienKEpsilonEquationSystem
| WilcoxKOmegaEquationSystem
| TurbKineticEnergyEquationSystem
| EnthalpyEquationSystem (minT maxT : double) (ouputClipDiag : bool)
| MatrixFreeHeatCondEquationSystem
| WallDistEquationSystem.

(** The block of one equation system in the input file, after parsing. *)
Record EqSysNode : Type := mkEqSysNode {
  element_continuity_eqs : option bool;
  minimum_temperature : option double;
  maximum_temperature : option double;
  output_clipping_diagnostic : option bool;
  own_decoupled_overset_solve : option bool;
  own_num_overset_correctors : option Z
}.

(** The hooks that [EquationSystems] forwards with a loop over
    [equationSystemVector_] that calls the hook once in its body. *)
Inductive ForwardedHook : Type :=
| populate_derived_quantities_hook
| initial_work_hook
| dump_eq_time_hook
| predict_state_hook
| provide_output_hook
| pre_timestep_work_hook
| post_converged_work_hook
| evaluate_properties_hook
| initialize_hook
| reinitialize_linear_system_hook.

#[global] Instance ForwardedHook_eq_dec : EqDecision ForwardedHook.
Proof. solve_decision. Defined.

(** ** Calls on collaborators, in the order they are made *)

Inductive Event : Type :=
(* NaluEnv::self().naluOutputP0() and std::cout *)
| naluOutputP0 (msg : string)
| std_cout (msg : string)
(* the realm *)
| Realm_provide_memory_summary
| Realm_register_bc (k : BcKind) (part : Part) (the_topo : topology)
| Realm_register_periodic_bc (master slave : Part)
    (searchTolerance : double) (searchMethodName : string)
| Realm_setup_non_conformal_bc (current opposing : list (option Part))
    (data : NonConformalBoundaryConditionData)
(* algorithm drivers *)
| oversetUpdater_execute
| AlgorithmDriver_execute (alg : AlgorithmDriver)
(* the hooks of an equation system *)
| Eq_pre_iter_work (s : EquationSystem)
| Eq_solve_and_update (s : EquationSystem)
| Eq_post_iter_work (s : EquationSystem)
| Eq_post_iter_work_dep (s : EquationSystem)
| Eq_system_is_converged (s : EquationSystem) (ret : bool)
| Eq_post_external_data_transfer_work (s : EquationSystem)
| Eq_forwarded (h : ForwardedHook) (s : EquationSystem)
| Eq_register_bc (s : EquationSystem) (k : BcKind) (part : Part)
    (the_topo : topology) (data : option BoundaryConditionData)
(* configuration load *)
| get_if_present (key : string)
| new_EquationSystem (c : EqSysCtor)
| Eq_load (s : EquationSystem) (y_eqsys : EqSysNode).

Definition Trace := list Event.

(** ** The monad: a call trace, and an ending *)

Definition M (A : Type) : Type := Trace -> Outcome A * Trace.

Definition ret {A} (a : A) : M A := fun tr => (Done a, tr).

Definition bind {A B} (m : M A) (k : A -> M B) : M B :=
  fun tr =>
    match m tr with
    | (Done a, tr') => k a tr'
    | (Thrown e, tr') => (Thrown e, tr')
    | (NullDereference, tr') => (NullDereference, tr')
    end.

Notation "'let*' x ':=' m 'in' k" := (bind m (fun x => k))
  (at level 10, x name, m at level 100, k at level 200, only parsing).
Notation "m >> k" := (bind m (fun _ => k))
  (at level 20, k at level 200, only parsing).

Definition throw {A} (e : Exception) : M A := fun tr => (Thrown e, tr).
Definition null_dereference {A} : M A := fun tr => (NullDereference, tr).
Definition call (e : Event) : M unit := fun tr => (Done tt, tr ++ [e]).
Definition when (b : bool) (m : M unit) : M unit := if b then m else ret tt.

(** [for (x : xs) body(x);] *)
Fixpoint for_each {A} (xs : list A) (body : A -> M unit) : M unit :=
  match xs with
  | [] => ret tt
  | x :: rest => body x >> for_each rest body
  end.

(** Run from an empty trace. *)
Definition run {A} (m : M A) : Outcome A * Trace := m [].

(** ** EquationSystems *)

Record EquationSystems : Type := mkEquationSystems {
  realm_ : Realm;
  name_ : string;
  maxIterations_ : Z;
  equationSystemVector_ : list EquationSystem;
  preIterAlgDriver_ : list AlgorithmDriver;
  postIterAlgDriver_ : list AlgorithmDriver;
  decoupledOversetGlobalFlag_ : bool;
  numOversetItersDefault_ : Z;
  solverSpecMap_ : gmap string string
}.

(** [EquationSystems::pre_iter_work] *)
Definition pre_iter_work (es : EquationSystems) : M unit :=
  when (hasOverset_ (realm_ es)) (call oversetUpdater_execute) >>
  for_each (preIterAlgDriver_ es)
    (fun alg => call (AlgorithmDriver_execute alg)).

(** [EquationSystems::post_iter_work] *)
Definition post_iter_work (es : EquationSystems) : M unit :=
  for_each (postIterAlgDriver_ es)
    (fun alg => call (AlgorithmDriver_execute alg)).

(** The forwarding loops: [populate_derived_quantities], [initial_work],
    [dump_eq_time], [predict_state], [provide_output], [pre_timestep_work],
    [post_converged_work], [evaluate_properties] all have this body. *)
Definition forward_hook (h : ForwardedHook) (es : EquationSystems) : M unit :=
  for_each (equationSystemVector_ es) (fun ii => call (Eq_forwarded h ii)).

Definition populate_derived_quantities := forward_hook populate_derived_quantities_hook.
Definition initial_work := forward_hook initial_work_hook.
Definition dump_eq_time := forward_hook dump_eq_time_hook.
Definition predict_state := forward_hook predict_state_hook.
Definition provide_output := forward_hook provide_output_hook.
Definition pre_timestep_work := forward_hook pre_timestep_work_hook.
Definition post_converged_work := forward_hook post_converged_work_hook.
Definition evaluate_properties := forward_hook evaluate_properties_hook.

(** [EquationSystems::initialize]; the timers it updates are not
    modelled. *)
Definition initialize (es : EquationSystems) : M unit :=
  call (naluOutputP0 "EquationSystems::initialize(): Begin ") >>
  for_each (equationSystemVector_ es) (fun eqSys =>
    when (get_activate_memory_diagnostic (realm_ es))
      (call (naluOutputP0
               ("NaluMemory::EquationSystems::initialize(): " +:+
                eqs_name_ eqSys)) >>
       call Realm_provide_memory_summary) >>
    call (Eq_forwarded initialize_hook eqSys)) >>
  call (naluOutputP0 "EquationSystems::initialize(): End ") >>
  when (hasOverset_ (realm_ es))
    (call (naluOutputP0 "EquationSystems: overset solution strategy") >>
     for_each (equationSystemVector_ es) (fun eqsys =>
       match linsys_ eqsys with
       | None => ret tt
       | Some _ =>
           call (naluOutputP0
                   (" - " +:+ eqnTypeName_ eqsys +:+ ": " +:+
                    (if decoupledOverset_ eqsys
                     then "decoupled" else "coupled")))
       end)).

(** [EquationSystems::reinitialize_linear_system]; timers as above. *)
Definition reinitialize_linear_system (es : EquationSystems) : M unit :=
  for_each (equationSystemVector_ es) (fun eqSys =>
    call (Eq_forwarded reinitialize_linear_system_hook eqSys)).

(** [EquationSystems::post_external_data_transfer_work]: the inner loop
    runs [k] over the indices of [bcDataAlg_] and calls the hook of the
    system, not of the algorithm. *)
Definition post_external_data_transfer_work (es : EquationSystems) : M unit :=
  for_each (equationSystemVector_ es) (fun ii =>
    for_each (seq 0 (length (bcDataAlg_ ii))) (fun k =>
      call (Eq_post_external_data_transfer_work ii))).

Section VirtualResults.

(** What the virtual [system_is_converged()] of a system returns, given
    the calls made so far, and what its [provide_scaled_norm()] returns:
    both are implemented outside the orchestrator. *)
Variable system_is_converged_result : EquationSystem -> Trace -> bool.
Variable provide_scaled_norm : EquationSystem -> double.

Definition system_is_converged (s : EquationSystem) : M bool :=
  fun tr =>
    let b := system_is_converged_result s tr in
    (Done b, tr ++ [Eq_system_is_converged s b]).

(** The last loop of [solve_and_update], "check equations for
    convergence", with [overallConvergence] as accumulator. *)
Fixpoint check_equations_for_convergence
    (systems : list EquationSystem) (overallConvergence : bool) : M bool :=
  match systems with
  | [] => ret overallConvergence
  | ii :: rest =>
      let* systemConverged := system_is_converged ii in
      check_equations_for_convergence rest
        (if negb systemConverged then false else overallConvergence)
  end.

(** [EquationSystems::solve_and_update] *)
Definition solve_and_update (es : EquationSystems) : M bool :=
  pre_iter_work es >>
  for_each (equationSystemVector_ es) (fun ii =>
    call (Eq_pre_iter_work ii) >>
    call (Eq_solve_and_update ii) >>
    call (Eq_post_iter_work ii)) >>
  when (get_activate_memory_diagnostic (realm_ es))
    (call (naluOutputP0 "NaluMemory::EquationSystem::solve_and_update()") >>
     call Realm_provide_memory_summary) >>
  for_each (equationSystemVector_ es) (fun ii =>
    call (Eq_post_iter_work_dep ii)) >>
  post_iter_work es >>
  check_equations_for_convergence (equationSystemVector_ es) true.

(** [EquationSystems::provide_system_norm] *)
Definition provide_system_norm (es : EquationSystems) : double :=
  fold_left (fun maxNorm ii => std_max maxNorm (provide_scaled_norm ii))
    (equationSystemVector_ es) (DFin (- (10 ^ 16))%Q).

End VirtualResults.

(** ** Boundary-condition registration *)

Definition is_side_part (meta : MetaData) (part : Part) : bool :=
  bool_decide (side_rank meta = primary_entity_rank part).

(** The [else] branch that the five single-part registrations share: the
    realm first, then every equation system. *)
Definition forward_bc (es : EquationSystems) (k : BcKind) (part : Part)
    (the_topo : topology) (data : option BoundaryConditionData) : M unit :=
  call (Realm_register_bc k part the_topo) >>
  for_each (equationSystemVector_ es) (fun ii =>
    call (Eq_register_bc ii k part the_topo data)).

Definition no_part_msg (targetName : string) : string :=
  "Sorry, no part name found by the name " +:+ targetName.
Definition not_a_face_msg (targetName : string) : string :=
  "Sorry, part is not a face " +:+ targetName.

(** [EquationSystems::register_wall_bc].  Its [ThrowRequire] on a null
    subset pointer cannot fire: [subsets] holds parts, not nullable
    pointers. *)
Definition register_wall_bc (es : EquationSystems) (targetName : string)
    (wallBCData : WallBoundaryConditionData) : M unit :=
  let meta := meta_data (realm_ es) in
  match get_part meta targetName with
  | None => call (naluOutputP0 (no_part_msg targetName))
  | Some targetPart =>
      for_each (subsets targetPart) (fun part =>
        let the_topo := part_topology part in
        if negb (is_side_part meta part)
        then call (naluOutputP0 (not_a_face_msg targetName))
        else forward_bc es wall_bc part the_topo (Some wallBCData))
  end.

(** [EquationSystems::register_inflow_bc] *)
Definition register_inflow_bc (es : EquationSystems) (targetName : string)
    (inflowBCData : InflowBoundaryConditionData) : M unit :=
  let meta := meta_data (realm_ es) in
  match get_part meta targetName with
  | None => call (naluOutputP0 (no_part_msg targetName))
  | Some targetPart =>
      for_each (subsets targetPart) (fun part =>
        let the_topo := part_topology part in
        if negb (is_side_part meta part)
        then call (naluOutputP0 (not_a_face_msg targetName))
        else forward_bc es inflow_bc part the_topo (Some inflowBCData))
  end.

(** [EquationSystems::register_open_bc] *)
Definition register_open_bc (es : EquationSystems) (targetName : string)
    (openBCData : OpenBoundaryConditionData) : M unit :=
  let meta := meta_data (realm_ es) in
  match get_part meta targetName with
  | None => call (naluOutputP0 (no_part_msg targetName))
  | Some targetPart =>
      for_each (subsets targetPart) (fun part =>
        let the_topo := part_topology part in
        if negb (is_side_part meta part)
        then call (naluOutputP0 (not_a_face_msg targetName))
        else forward_bc es open_bc part the_topo (Some openBCData))
  end.

(** [EquationSystems::register_symmetry_bc] *)
Definition register_symmetry_bc (es : EquationSystems) (targetName : string)
    (symmetryBCData : SymmetryBoundaryConditionData) : M unit :=
  let meta := meta_data (realm_ es) in
  match get_part meta targetName with
  | None =>
      call (naluOutputP0 (no_part_msg targetName)) >>
      throw (runtime_error "Symmetry::fatal_error()")
  | Some targetPart =>
      for_each (subsets targetPart) (fun part =>
        let the_topo := part_topology part in
        if negb (is_side_part meta part)
        then call (naluOutputP0 (not_a_face_msg targetName)) >>
             throw (runtime_error "Symmetry::fatal_error()")
        else forward_bc es symmetry_bc part the_topo (Some symmetryBCData))
  end.

(** [EquationSystems::register_abltop_bc] *)
Definition register_abltop_bc (es : EquationSystems) (targetName : string)
    (abltopBCData : ABLTopBoundaryConditionData) : M unit :=
  let meta := meta_data (realm_ es) in
  match get_part meta targetName with
  | None =>
      call (naluOutputP0 (no_part_msg targetName)) >>
      throw (runtime_error "ABLTop::fatal_error()")
  | Some targetPart =>
      for_each (subsets targetPart) (fun part =>
        let the_topo := part_topology part in
        if negb (is_side_part meta part)
        then call (naluOutputP0 (not_a_face_msg targetName)) >>
             throw (runtime_error "ABLTop::fatal_error()")
        else forward_bc es abltop_bc part the_topo (Some abltopBCData))
  end.

(** The two "extract part vector" loops of [register_non_conformal_bc]: a
    name that does not resolve is reported and its null pointer is pushed
    all the same. *)
Fixpoint extract_part_vector (meta : MetaData) (names : list string)
    : M (list (option Part)) :=
  match names with
  | [] => ret []
  | name :: rest =>
      let meshPart := get_part meta name in
      when (bool_decide (meshPart = None))
        (call (naluOutputP0 (no_part_msg name))) >>
      let* vec := extract_part_vector meta rest in
      ret (meshPart :: vec)
  end.

(** [EquationSystems::register_non_conformal_bc] *)
Definition register_non_conformal_bc (es : EquationSystems)
    (nonConformalBCData : NonConformalBoundaryConditionData) : M unit :=
  let meta := meta_data (realm_ es) in
  let* currentMeshPartVec :=
    extract_part_vector meta (currentPartNameVec_ nonConformalBCData) in
  let* opposingMeshPartVec :=
    extract_part_vector meta (opposingPartNameVec_ nonConformalBCData) in
  call (Realm_setup_non_conformal_bc
          currentMeshPartVec opposingMeshPartVec nonConformalBCData) >>
  for_each currentMeshPartVec (fun current =>
    match current with
    | None => null_dereference
    | Some currentMeshPart =>
        for_each (subsets currentMeshPart) (fun part =>
          let the_topo := part_topology part in
          if negb (is_side_part meta part)
          then call (naluOutputP0 (not_a_face_msg (part_name part))) >>
               throw (runtime_error "NonConformal::fatal_error()")
          else forward_bc es non_conformal_bc part the_topo None)
    end).

(** [EquationSystems::register_periodic_bc] *)
Definition register_periodic_bc (es : EquationSystems)
    (targetNameMaster targetNameSlave : string)
    (periodicBCData : PeriodicBoundaryConditionData) : M unit :=
  let meta := meta_data (realm_ es) in
  let masterMeshPart := get_part meta targetNameMaster in
  let slaveMeshPart := get_part meta targetNameSlave in
  match masterMeshPart, slaveMeshPart with
  | None, _ =>
      call (naluOutputP0 (no_part_msg targetNameMaster)) >>
      throw (runtime_error "EquationSystems::fatal_error()")
  | Some _, None =>
      call (naluOutputP0 (no_part_msg targetNameSlave)) >>
      throw (runtime_error "EquationSystems::fatal_error()")
  | Some master, Some slave =>
      let masterMeshParts := subsets master in
      let slaveMeshParts := subsets slave in
      when (negb (length masterMeshParts =? length slaveMeshParts)%nat)
        (call (naluOutputP0
           "Mesh part subsets for master slave do not match in size")) >>
      when (1 <? length masterMeshParts)%nat
        (call (naluOutputP0
           "Surface has subsets active; please make sure that the topologies match")) >>
      let userData := userData_ periodicBCData in
      let searchTolerance := searchTolerance_ userData in
      let searchMethodName := searchMethodName_ userData in
      call (Realm_register_periodic_bc
              master slave searchTolerance searchMethodName)
  end.

(** ** Configuration load *)

(** One entry of the [systems] sequence: a map from a kind name to the
    block of that equation system. *)
Definition SystemNode := gmap string EqSysNode.

(** The [equation_systems] map of the input file, already parsed: the
    required keys are there by type. *)
Record EquationSystemsNode : Type := mkEquationSystemsNode {
  y_name : string;
  y_max_iterations : Z;
  y_decoupled_overset_solve : option bool;
  y_num_overset_correctors : option Z;
  y_solver_system_specification : gmap string string;
  y_systems : list SystemNode
}.

Record NaluEnv : Type := mkNaluEnv {
  debug : bool;
  parallel_rank : Z
}.

(** [expect_map(y_system, key, true)]: the block under [key], or a null
    node. *)
Definition expect_map_optional (y_system : SystemNode) (key : string)
    : option EqSysNode :=
  y_system !! key.

Definition unknown_equation_system_type : Exception :=
  runtime_error
    "parser error EquationSystem::load: unknown equation system type".

Definition set_overset_defaults (decoupled : bool) (numIters : Z)
    (s : EquationSystem) : EquationSystem :=
  {| eqs_this := eqs_this s;
     eqs_name_ := eqs_name_ s;
     eqnTypeName_ := eqnTypeName_ s;
     bcDataAlg_ := bcDataAlg_ s;
     bcDataMapAlg_ := bcDataMapAlg_ s;
     linsys_ := linsys_ s;
     numOversetIters_ := numIters;
     decoupledOverset_ := decoupled |}.

Definition set_equationSystemVector (v : list EquationSystem)
    (es : EquationSystems) : EquationSystems :=
  {| realm_ := realm_ es;
     name_ := name_ es;
     maxIterations_ := maxIterations_ es;
     equationSystemVector_ := v;
     preIterAlgDriver_ := preIterAlgDriver_ es;
     postIterAlgDriver_ := postIterAlgDriver_ es;
     decoupledOversetGlobalFlag_ := decoupledOversetGlobalFlag_ es;
     numOversetItersDefault_ := numOversetItersDefault_ es;
     solverSpecMap_ := solverSpecMap_ es |}.

(** [get_if_present(node, key, result, default_if_not_present)]
    (NaluParsing.h): the value under the key when the node has it, and the
    default otherwise. *)
Definition NaluParsing_get_if_present {A : Type} (key : string)
    (value : option A) (default_if_not_present : A) : M A :=
  call (get_if_present key) >>
  ret (match value with
       | Some v => v
       | None => default_if_not_present
       end).

(** The vector of the collection holds pointers.  While a system is being
    loaded, the entries that point to it are written [None], and they show
    the state the object has when the vector is read. *)
Definition vector_through (eqSys : EquationSystem)
    (vector : list (option EquationSystem)) : list EquationSystem :=
  map (fun entry => match entry with
                    | Some other => other
                    | None => eqSys
                    end) vector.

Section Load.

(** The build flag [NALU_HAS_MATRIXFREE] and the [NaluEnv] singleton. *)
Variable NALU_HAS_MATRIXFREE : bool.
Variable naluEnv : NaluEnv.

(** The constructors and the virtual [EquationSystem::load] are
    implemented outside the orchestrator.  A constructor is given the
    collection; it returns the object it made and leaves
    [equationSystemVector_] as it chooses ("particular equation system push
    back to vector is controlled by the constructor"): it may push the new
    object, and a wrapper the systems it holds as well.  [constructed c es]
    is the new object and the vector after the construction, [None] at the
    entries that point to the new object.  [EquationSystem_load] is what
    the system's own [load] makes of the object it is called on. *)
Variable constructed :
  EqSysCtor -> EquationSystems -> EquationSystem * list (option EquationSystem).
Variable EquationSystem_load :
  EquationSystem -> EqSysNode -> Outcome EquationSystem.

Definition debug_output (msg : string) : M unit :=
  when (debug naluEnv) (call (naluOutputP0 msg)).

(** [new C(...)]: the call is recorded; [eqSys] is the constructor that
    ran. *)
Definition new_ (c : EqSysCtor) : M (option EqSysCtor) :=
  call (new_EquationSystem c) >> ret (Some c).

(** The [if]/[else if] chain of the loop body: it selects [y_eqsys] and
    sets [eqSys], which stays null where no [new] is compiled in or
    reached. *)
Definition select_equation_system (realm : Realm) (y_system : SystemNode)
    : M (option EqSysCtor * EqSysNode) :=
  match expect_map_optional y_system "LowMachEOM" with
  | Some y_eqsys =>
      debug_output "eqSys = LowMachEOM " >>
      let elemCont :=
        default (if realmUsesEdges_ realm then false else true)
                (element_continuity_eqs y_eqsys) in
      let* eqSys :=
        (if matrix_free realm
         then (if NALU_HAS_MATRIXFREE
               then new_ MatrixFreeLowMachEquationSystem
               else ret None)
         else new_ (LowMachEquationSystem elemCont)) in
      ret (eqSys, y_eqsys)
  | None =>
  match expect_map_optional y_system "VolumeOfFluid" with
  | Some y_eqsys =>
      debug_output "eqSys = VolumeOfFluid" >>
      let* eqSys := new_ VolumeOfFluidEquationSystem in
      ret (eqSys, y_eqsys)
  | None =>
  match expect_map_optional y_system "ShearStressTransport" with
  | Some y_eqsys =>
      debug_output "eqSys = tke/sdr " >>
      let* eqSys := new_ ShearStressTransportEquationSystem in
      ret (eqSys, y_eqsys)
  | None =>
  match expect_map_optional y_system "ChienKEpsilon" with
  | Some y_eqsys =>
      debug_output "eqSys = tke/tdr " >>
      let* eqSys := new_ ChienKEpsilonEquationSystem in
      ret (eqSys, y_eqsys)
  | None =>
  match expect_map_optional y_system "WilcoxKOmega" with
  | Some y_eqsys =>
      debug_output "eqSys = tke/sdr " >>
      let* eqSys := new_ WilcoxKOmegaEquationSystem in
      ret (eqSys, y_eqsys)
  | None =>
  match expect_map_optional y_system "TurbKineticEnergy" with
  | Some y_eqsys =>
      debug_output "eqSys = tke " >>
      let* eqSys := new_ TurbKineticEnergyEquationSystem in
      ret (eqSys, y_eqsys)
  | None =>
  match expect_map_optional y_system "Enthalpy" with
  | Some y_eqsys =>
      debug_output "eqSys = enthalpy " >>
      let minT := default (DFin 250) (minimum_temperature y_eqsys) in
      let maxT := default (DFin 3000) (maximum_temperature y_eqsys) in
      let ouputClipDiag :=
        default true (output_clipping_diagnostic y_eqsys) in
      let* eqSys := new_ (EnthalpyEquationSystem minT maxT ouputClipDiag) in
      ret (eqSys, y_eqsys)
  | None =>
  match expect_map_optional y_system "HeatConduction" with
  | Some y_eqsys =>
      debug_output "eqSys = HeatConduction " >>
      let* eqSys :=
        (if NALU_HAS_MATRIXFREE
         then (if matrix_free realm
               then new_ MatrixFreeHeatCondEquationSystem
               else throw (runtime_error
                      "HeatConduction only supported for matrix-free"))
         else ret None) in
      ret (eqSys, y_eqsys)
  | None =>
  match expect_map_optional y_system "WallDistance" with
  | Some y_eqsys =>
      let* eqSys := new_ WallDistEquationSystem in
      ret (eqSys, y_eqsys)
  | None =>
      when (parallel_rank naluEnv =? 0)%Z
        (call (std_cout "Error: parsing at ... at parent ... ")) >>
      throw unknown_equation_system_type
  end end end end end end end end end.

(** The body of the loop over [y_systems].  The loop itself never writes
    [equationSystemVector_]: the vector is what the constructor left, and
    the two assignments through [eqSys] and the system's own [load] are
    seen through the entries that point to the new object. *)
Definition load_system (y_system : SystemNode) (es : EquationSystems)
    : M EquationSystems :=
  let* selected := select_equation_system (realm_ es) y_system in
  match selected with
  | (None, _) => null_dereference
  | (Some c, y_eqsys) =>
      let eqSys := (constructed c es).1 in
      let vector := (constructed c es).2 in
      let eqSys :=
        set_overset_defaults (decoupledOversetGlobalFlag_ es)
          (numOversetItersDefault_ es) eqSys in
      call (Eq_load eqSys y_eqsys) >>
      match EquationSystem_load eqSys y_eqsys with
      | Done eqSys' =>
          ret (set_equationSystemVector (vector_through eqSys' vector) es)
      | Thrown e => throw e
      | NullDereference => null_dereference
      end
  end.

Fixpoint load_systems (y_systems : list SystemNode) (es : EquationSystems)
    : M EquationSystems :=
  match y_systems with
  | [] => ret es
  | y_system :: rest =>
      let* es' := load_system y_system es in
      load_systems rest es'
  end.

(** The settings read before the loop.  The two calls of
    [get_if_present] pass the member as its own default, and they are
    made only when the realm answers that it has overset meshes. *)
Definition load_globals (y : EquationSystemsNode) (es : EquationSystems)
    : M EquationSystems :=
  let* overset :=
    (if query_for_overset (realm_ es)
     then
       let* decoupledOversetGlobalFlag :=
         NaluParsing_get_if_present "decoupled_overset_solve"
           (y_decoupled_overset_solve y) (decoupledOversetGlobalFlag_ es) in
       let* numOversetItersDefault :=
         NaluParsing_get_if_present "num_overset_correctors"
           (y_num_overset_correctors y) (numOversetItersDefault_ es) in
       ret (decoupledOversetGlobalFlag, numOversetItersDefault)
     else
       ret (decoupledOversetGlobalFlag_ es, numOversetItersDefault_ es)) in
  ret {| realm_ := realm_ es;
         name_ := y_name y;
         maxIterations_ := y_max_iterations y;
         equationSystemVector_ := equationSystemVector_ es;
         preIterAlgDriver_ := preIterAlgDriver_ es;
         postIterAlgDriver_ := postIterAlgDriver_ es;
         decoupledOversetGlobalFlag_ := overset.1;
         numOversetItersDefault_ := overset.2;
         solverSpecMap_ := y_solver_system_specification y |}.

(** [EquationSystems::load] *)
Definition load (y_equation_system : EquationSystemsNode)
    (es : EquationSystems) : M EquationSystems :=
  let* es' := load_globals y_equation_system es in
  load_systems (y_systems y_equation_system) es'.

End Load.

(** ** FieldManager *)

(** The alternatives of [FieldPointerTypes] (FieldTypeDef.h), by the names
    the sources use. *)
Inductive FieldType : Type :=
| ScalarFieldType | VectorFieldType | TensorFieldType
| GenericFieldType | GenericIntFieldType | ScalarIntFieldType
| GlobalIdFieldType.

(** [using IdFieldType = ScalarFieldType] (UnitTestUtils.h): another name
    of the scalar field type, not a type of its own. *)
Definition IdFieldType : FieldType := ScalarFieldType.

#[global] Instance FieldType_eq_dec : EqDecision FieldType.
Proof. solve_decision. Defined.

(** [stk::mesh::FieldState]; [StateNone] and [StateNew] are other names of
    [StateNP1], [StateOld] of [StateN]. *)
Inductive FieldState : Type :=
| StateNP1 | StateN | StateNM1 | StateNM2 | StateNM3 | StateNM4.
Definition StateNone : FieldState := StateNP1.

Definition FieldState_index (s : FieldState) : Z :=
  match s with
  | StateNP1 => 0 | StateN => 1 | StateNM1 => 2
  | StateNM2 => 3 | StateNM3 => 4 | StateNM4 => 5
  end.

(** An alternative of [FieldDefTypes]: the [FieldType] it names, its rank
    and its defaults. *)
Record FieldDef : Type := mkFieldDef {
  def_FieldType : FieldType;
  def_rank : EntityRank;
  def_num_states : Z;
  def_num_components : Z
}.

(** What a typed field pointer that is not null points to: the field of
    the mesh database, in one of its states.  A pointer is an
    [option FieldPointer], [None] for the null pointer. *)
Record FieldPointer : Type := mkFieldPointer {
  ptr_FieldType : FieldType;
  ptr_rank : EntityRank;
  ptr_name : string;
  ptr_state : FieldState
}.

Record FieldManager : Type := mkFieldManager {
  numStates_ : Z;
  numDimensions_ : Z
}.

(** [FieldManager::FieldManager(meta, numStates)]; [meta_] is a reference
    to the mesh database, which the operations below take as argument. *)
Definition FieldManager_new (meta : MetaData) (numStates : Z) : FieldManager :=
  {| numStates_ := numStates; numDimensions_ := spatial_dimension meta |}.

(** [meta_.get_field<T>(rank, name)]: the field, or a null pointer. *)
Definition get_field (meta : MetaData) (rank : EntityRank) (name : string)
    : option RegisteredField :=
  meta_fields meta !! (rank, name).

(** [field->field_of_state(state)]: the slot of the state, null for a state
    the field does not have. *)
Definition field_of_state (f : RegisteredField) (state : FieldState)
    : option FieldState :=
  if (FieldState_index state <? number_of_states f)%Z
  then Some state else None.

(** [std::get<T*>(pointerSet)], for a [pointerSet] that holds a pointer of
    the type [held]: the pointer as it is, null or not, when [T] is the
    type held. *)
Definition std_get (T : FieldType) (held : FieldType)
    (pointer : option FieldPointer) : Outcome (option FieldPointer) :=
  if bool_decide (held = T)
  then Done pointer
  else Thrown bad_variant_access.

Section Registry.

(** The static catalog of FieldRegistry.C, by (dimension, states). *)
Variable registry : Z -> Z -> gmap string FieldDef.

(** Modelled from the spec: [FieldRegistry::query] (FieldRegistry.h and
    FieldRegistry.C are not among the sources) returns the descriptor of
    the name under the (spatialDimension, numStates) key, and fails with
    UnknownField when no entry matches the key. *)
Definition FieldRegistry_query (numDimensions numStates : Z) (name : string)
    : Outcome FieldDef :=
  match registry numDimensions numStates !! name with
  | Some def => Done def
  | None => Thrown (UnknownField name)
  end.

(** [FieldManager::get_field_ptr<T>]: the visitor calls [field_of_state]
    through what [get_field] returns, which is a null pointer for a field
    that is not on the mesh database, and takes the address of the
    result, which is the null pointer for a state the field does not
    have.  [std::get] then looks at the type and hands the pointer on as it
    is. *)
Definition get_field_ptr (T : FieldType) (fm : FieldManager)
    (meta : MetaData) (name : string) (state : FieldState)
    : Outcome (option FieldPointer) :=
  match FieldRegistry_query (numDimensions_ fm) (numStates_ fm) name with
  | Done fieldDef =>
      match get_field meta (def_rank fieldDef) name with
      | None => NullDereference
      | Some field =>
          let pointer :=
            match field_of_state field state with
            | None => None
            | Some slot =>
                Some {| ptr_FieldType := def_FieldType fieldDef;
                        ptr_rank := def_rank fieldDef;
                        ptr_name := name;
                        ptr_state := slot |}
            end in
          std_get T (def_FieldType fieldDef) pointer
      end
  | Thrown e => Thrown e
  | NullDereference => NullDereference
  end.

(** Modelled from the spec: [FieldManager::register_field] with explicit
    numStates and numComponents (FieldManager.C is not among the
    sources).  It resolves the descriptor through the Registry; if the
    field does not yet exist on the mesh database it declares it with the
    descriptor defaults, overridden by a non-zero numStates or
    numComponents, and attaches it to the parts; registering again on
    additional parts is legal and fails with ConflictingRedefinition if
    it would alter the registered state or component count. *)
Definition register_field (fm : FieldManager) (name : string)
    (parts : list string) (numStates numComponents : Z) (meta : MetaData)
    : Outcome MetaData :=
  match FieldRegistry_query (numDimensions_ fm) (numStates_ fm) name with
  | Done def =>
      let ns := if (numStates =? 0)%Z then def_num_states def else numStates in
      let nc := if (numComponents =? 0)%Z
                then def_num_components def else numComponents in
      let declare f :=
        {| spatial_dimension := spatial_dimension meta;
           side_rank := side_rank meta;
           meta_parts := meta_parts meta;
           meta_fields := <[(def_rank def, name) := f]> (meta_fields meta) |} in
      match get_field meta (def_rank def) name with
      | None =>
          Done (declare {| number_of_states := ns;
                           number_of_components := nc;
                           field_parts := parts |})
      | Some f =>
          if bool_decide (number_of_states f = ns
                          /\ number_of_components f = nc)
          then Done (declare {| number_of_states := ns;
                                number_of_components := nc;
                                field_parts := field_parts f ++ parts |})
          else Thrown (ConflictingRedefinition name)
      end
  | Thrown e => Thrown e
  | NullDereference => NullDereference
  end.

(** Modelled from the spec: [FieldManager::field_exists] (FieldManager.C
    is not among the sources) fails with UnknownField when the name has
    no Registry entry under the manager's key, and otherwise tells whether
    the field has been registered on the mesh database. *)
Definition field_exists (fm : FieldManager) (meta : MetaData)
    (name : string) : Outcome bool :=
  match FieldRegistry_query (numDimensions_ fm) (numStates_ fm) name with
  | Done def => Done (bool_decide (is_Some (get_field meta (def_rank def) name)))
  | Thrown e => Thrown e
  | NullDereference => NullDereference
  end.

(** [FieldManager::register_field<T>(name, parts, initVal, state)] *)
Definition register_field_T (T : FieldType) (fm : FieldManager)
    (name : string) (parts : list string) (state : FieldState)
    (meta : MetaData) : Outcome (option FieldPointer * MetaData) :=
  let numStates := 0%Z in
  let numComponents := 0%Z in
  match register_field fm name parts numStates numComponents meta with
  | Done meta' =>
      match get_field_ptr T fm meta' name state with
      | Done p => Done (p, meta')
      | Thrown e => Thrown e
      | NullDereference => NullDereference
      end
  | Thrown e => Thrown e
  | NullDereference => NullDereference
  end.

(** The mesh database after further successful registrations, by any
    manager over the same catalog. *)
Inductive registered_later : MetaData -> MetaData -> Prop :=
| registered_later_refl meta : registered_later meta meta
| registered_later_step meta1 meta2 meta3 fm name parts numStates numComponents :
    registered_later meta1 meta2 ->
    register_field fm name parts numStates numComponents meta2 = Done meta3 ->
    registered_later meta1 meta3.

End Registry.

(** ** Reading a call trace *)

(** The convergence queries of a trace, with their results. *)
Definition convergence_queries (tr : Trace) : list (EquationSystem * bool) :=
  omap (fun e => match e with
                 | Eq_system_is_converged s b => Some (s, b)
                 | _ => None
                 end) tr.

(** The systems whose [post_external_data_transfer_work] hook was called,
    one entry per call. *)
Definition post_external_calls (tr : Trace) : list EquationSystem :=
  omap (fun e => match e with
                 | Eq_post_external_data_transfer_work s => Some s
                 | _ => None
                 end) tr.

(** The calls of one forwarded hook. *)
Definition forwarded_calls (h : ForwardedHook) (tr : Trace)
    : list EquationSystem :=
  omap (fun e => match e with
                 | Eq_forwarded h' s =>
                     if decide (h = h') then Some s else None
                 | _ => None
                 end) tr.

(** The systems whose own [load] was entered, with the object as it was
    at that moment and the block it was given. *)
Definition own_loads (tr : Trace) : list (EquationSystem * EqSysNode) :=
  omap (fun e => match e with
                 | Eq_load s y => Some (s, y)
                 | _ => None
                 end) tr.

(** The keys read with [get_if_present]. *)
Definition global_reads (tr : Trace) : list string :=
  omap (fun e => match e with
                 | get_if_present key => Some key
                 | _ => None
                 end) tr.


(** ** The call sequence of one [solve_and_update] *)

Definition pre_iter_calls (es : EquationSystems) : Trace :=
  (if hasOverset_ (realm_ es) then [oversetUpdater_execute] else []) ++
  map AlgorithmDriver_execute (preIterAlgDriver_ es).

Definition per_system_calls (es : EquationSystems) : Trace :=
  flat_map (fun ii => [Eq_pre_iter_work ii; Eq_solve_and_update ii;
                       Eq_post_iter_work ii])
    (equationSystemVector_ es).

Definition memory_diagnostic_calls (es : EquationSystems) : Trace :=
  if get_activate_memory_diagnostic (realm_ es)
  then [naluOutputP0 "NaluMemory::EquationSystem::solve_and_update()";
        Realm_provide_memory_summary]
  else [].

Definition post_iter_dep_calls (es : EquationSystems) : Trace :=
  map Eq_post_iter_work_dep (equationSystemVector_ es).

Definition post_iter_calls (es : EquationSystems) : Trace :=
  map AlgorithmDriver_execute (postIterAlgDriver_ es).

Definition calls_before_convergence (es : EquationSystems) : Trace :=
  pre_iter_calls es ++ per_system_calls es ++ memory_diagnostic_calls es ++
  post_iter_dep_calls es ++ post_iter_calls es.

(** A diagnostic: output on a stream, or the memory summary. *)
Definition is_diagnostic (e : Event) : bool :=
  match e with
  | naluOutputP0 _ | std_cout _ | Realm_provide_memory_summary => true
  | _ => false
  end.

(** ** Sample data *)

Definition sample_meta : MetaData :=
  {| spatial_dimension := 3; side_rank := FACE_RANK;
     meta_parts := ∅; meta_fields := ∅ |}.

Definition sample_realm : Realm :=
  {| hasOverset_ := true; query_for_overset := true;
     realmUsesEdges_ := true; matrix_free := false;
     get_activate_memory_diagnostic := false; meta_data := sample_meta |}.

Definition sample_system (this nbc : nat) : EquationSystem :=
  {| eqs_this := this; eqs_name_ := "eqs"; eqnTypeName_ := "eqn";
     bcDataAlg_ := map Alg (seq 0 nbc); bcDataMapAlg_ := [];
     linsys_ := Some (LinSys this);
     numOversetIters_ := 1; decoupledOverset_ := false |}.

Definition sample_systems (realm : Realm) (v : list EquationSystem)
    : EquationSystems :=
  {| realm_ := realm; name_ := "theEqSys"; maxIterations_ := 2;
     equationSystemVector_ := v;
     preIterAlgDriver_ := [AlgDriver 0; AlgDriver 1];
     postIterAlgDriver_ := [AlgDriver 2];
     decoupledOversetGlobalFlag_ := false;
     numOversetItersDefault_ := 1;
     solverSpecMap_ := ∅ |}.

(** Three systems; the second one reports that it has not converged. *)
Definition three_systems : EquationSystems :=
  sample_systems sample_realm
    [sample_system 0 0; sample_system 1 2; sample_system 2 1].

Definition second_not_converged (s : EquationSystem) (tr : Trace) : bool :=
  negb (eqs_this s =? 1)%nat.

(** The calls of [initialize]. *)
Definition initialize_calls (es : EquationSystems) : Trace :=
  [naluOutputP0 "EquationSystems::initialize(): Begin "] ++
  flat_map (fun eqSys =>
      (if get_activate_memory_diagnostic (realm_ es)
       then [naluOutputP0 ("NaluMemory::EquationSystems::initialize(): " +:+
                           eqs_name_ eqSys);
             Realm_provide_memory_summary]
       else []) ++ [Eq_forwarded initialize_hook eqSys])
    (equationSystemVector_ es) ++
  [naluOutputP0 "EquationSystems::initialize(): End "] ++
  (if hasOverset_ (realm_ es)
   then naluOutputP0 "EquationSystems: overset solution strategy" ::
        flat_map (fun eqsys =>
            match linsys_ eqsys with
            | None => []
            | Some _ =>
                [naluOutputP0 (" - " +:+ eqnTypeName_ eqsys +:+ ": " +:+
                               (if decoupledOverset_ eqsys
                                then "decoupled" else "coupled"))]
            end)
          (equationSystemVector_ es)
   else []).

(** The calls of a trace that are not diagnostics. *)
Definition lifecycle_calls (tr : Trace) : Trace :=
  List.filter (fun e => negb (is_diagnostic e)) tr.

(** ** Norms *)

(** The starting value of [maxNorm], [-1.0e16]. *)
Definition minus_1e16 : double := DFin (- (10 ^ 16))%Q.

(** [v] is a greatest element of [l]: it is in [l], and no element of [l]
    is above it. *)
Definition is_maximum_of (v : double) (l : list double) : Prop :=
  v ∈ l /\ forall x, x ∈ l -> double_lt v x = false.

Definition scaled_norms (provide_scaled_norm : EquationSystem -> double)
    (es : EquationSystems) : list double :=
  map provide_scaled_norm (equationSystemVector_ es).

(** The doubles that the literals 0.2, 0.9 and 0.05 denote. *)
Definition double_0_2 : double := DFin (3602879701896397 # 18014398509481984).
Definition double_0_9 : double := DFin (8106479329266893 # 9007199254740992).
Definition double_0_05 : double := DFin (3602879701896397 # 72057594037927936).

(** Three systems reporting the scaled norms 0.2, 0.9 and 0.05. *)
Definition sample_norms (s : EquationSystem) : double :=
  match eqs_this s with
  | 0 => double_0_2
  | 1 => double_0_9
  | _ => double_0_05
  end.

(** A collection that owns no equation system, and one system whose norm
    lies below the starting value. *)
Definition no_systems : EquationSystems := sample_systems sample_realm [].
Definition one_system : EquationSystems :=
  sample_systems sample_realm [sample_system 0 0].
Definition norm_minus_2e16 (s : EquationSystem) : double :=
  DFin (- (2 * 10 ^ 16))%Q.

(** ** The calls of a boundary-condition registration *)

(** What one subset with side rank brings about: the realm is told
    first, then every owned equation system in registration order. *)
Definition forward_calls (es : EquationSystems) (k : BcKind)
    (data : option BoundaryConditionData) (part : Part) : Trace :=
  Realm_register_bc k part (part_topology part) ::
  map (fun ii => Eq_register_bc ii k part (part_topology part) data)
    (equationSystemVector_ es).

(** The registrations that only report a subset without side rank. *)
Definition lenient_calls (es : EquationSystems) (k : BcKind)
    (targetName : string) (data : option BoundaryConditionData)
    (part : Part) : Trace :=
  if is_side_part (meta_data (realm_ es)) part
  then forward_calls es k data part
  else [naluOutputP0 (not_a_face_msg targetName)].

(** The name that does not resolve, reported. *)
Definition missing_part_calls (meta : MetaData) (names : list string) : Trace :=
  flat_map (fun name => if bool_decide (get_part meta name = None)
                        then [naluOutputP0 (no_part_msg name)] else [])
    names.

(** The system a call is made on, if it is a call on an equation
    system. *)
Definition equation_system_called (e : Event) : option EquationSystem :=
  match e with
  | Eq_pre_iter_work s | Eq_solve_and_update s | Eq_post_iter_work s
  | Eq_post_iter_work_dep s | Eq_system_is_converged s _
  | Eq_post_external_data_transfer_work s | Eq_forwarded _ s
  | Eq_register_bc s _ _ _ _ | Eq_load s _ => Some s
  | _ => None
  end.

(** The calls on the realm that forward a registration. *)
Definition realm_registrations (tr : Trace) : Trace :=
  List.filter (fun e => match e with
                        | Realm_register_bc _ _ _
                        | Realm_register_periodic_bc _ _ _ _
                        | Realm_setup_non_conformal_bc _ _ _ => true
                        | _ => false
                        end) tr.

(** ** A sample mesh *)

Definition quad_side (name : string) : Part :=
  {| part_name := name; primary_entity_rank := FACE_RANK;
     part_topology := "QUADRILATERAL_4"; subsets := [] |}.

Definition hex_block (name : string) : Part :=
  {| part_name := name; primary_entity_rank := ELEMENT_RANK;
     part_topology := "HEXAHEDRON_8"; subsets := [] |}.

(** A surface with two side subsets, a surface with one, and a "surface"
    that has an element block among its subsets. *)
Definition surface_1 : Part :=
  {| part_name := "surface_1"; primary_entity_rank := FACE_RANK;
     part_topology := "INVALID_TOPOLOGY";
     subsets := [quad_side "surface_1_quad4_a"; quad_side "surface_1_quad4_b"] |}.

Definition surface_2 : Part :=
  {| part_name := "surface_2"; primary_entity_rank := FACE_RANK;
     part_topology := "INVALID_TOPOLOGY";
     subsets := [quad_side "surface_2_quad4"] |}.

Definition mixed_1 : Part :=
  {| part_name := "mixed_1"; primary_entity_rank := FACE_RANK;
     part_topology := "INVALID_TOPOLOGY";
     subsets := [quad_side "mixed_1_quad4"; hex_block "mixed_1_hex8";
                 quad_side "mixed_1_quad4_b"] |}.

Definition mesh_meta : MetaData :=
  {| spatial_dimension := 3; side_rank := FACE_RANK;
     meta_parts := {[ "surface_1" := surface_1; "surface_2" := surface_2;
                      "mixed_1" := mixed_1 ]};
     meta_fields := ∅ |}.

Definition mesh_realm : Realm :=
  {| hasOverset_ := false; query_for_overset := false;
     realmUsesEdges_ := true; matrix_free := false;
     get_activate_memory_diagnostic := false; meta_data := mesh_meta |}.

Definition mesh_systems : EquationSystems :=
  sample_systems mesh_realm [sample_system 0 0; sample_system 1 2].

Definition sample_bc : BoundaryConditionData :=
  {| bcName_ := "bc_wall"; targetName_ := "surface_1" |}.

Definition sample_periodic : PeriodicBoundaryConditionData :=
  {| userData_ := {| searchTolerance_ := DFin (1 # 10000);
                     searchMethodName_ := "stk_kdtree" |} |}.

(** The common shape of [register_wall_bc], [register_inflow_bc] and
    [register_open_bc], and the common shape of [register_symmetry_bc] and
    [register_abltop_bc], which differ in the kind they forward and in the
    text of what they throw. *)
Definition lenient_registration (k : BcKind) (es : EquationSystems)
    (targetName : string) (data : BoundaryConditionData) : M unit :=
  let meta := meta_data (realm_ es) in
  match get_part meta targetName with
  | None => call (naluOutputP0 (no_part_msg targetName))
  | Some targetPart =>
      for_each (subsets targetPart) (fun part =>
        let the_topo := part_topology part in
        if negb (is_side_part meta part)
        then call (naluOutputP0 (not_a_face_msg targetName))
        else forward_bc es k part the_topo (Some data))
  end.

Definition strict_registration (k : BcKind) (fatal_error : string)
    (es : EquationSystems) (targetName : string)
    (data : BoundaryConditionData) : M unit :=
  let meta := meta_data (realm_ es) in
  match get_part meta targetName with
  | None =>
      call (naluOutputP0 (no_part_msg targetName)) >>
      throw (runtime_error fatal_error)
  | Some targetPart =>
      for_each (subsets targetPart) (fun part =>
        let the_topo := part_topology part in
        if negb (is_side_part meta part)
        then call (naluOutputP0 (not_a_face_msg targetName)) >>
             throw (runtime_error fatal_error)
        else forward_bc es k part the_topo (Some data))
  end.

(** The five registrations of one named part, by kind. *)
Definition register_bc (k : BcKind) : option
    (EquationSystems -> string -> BoundaryConditionData -> M unit) :=
  match k with
  | wall_bc => Some register_wall_bc
  | inflow_bc => Some register_inflow_bc
  | open_bc => Some register_open_bc
  | symmetry_bc => Some register_symmetry_bc
  | abltop_bc => Some register_abltop_bc
  | non_conformal_bc => None
  end.

(** The text of the [std::runtime_error] of a kind that throws. *)
Definition fatal_error_of (k : BcKind) : option string :=
  match k with
  | symmetry_bc => Some "Symmetry::fatal_error()"
  | abltop_bc => Some "ABLTop::fatal_error()"
  | non_conformal_bc => Some "NonConformal::fatal_error()"
  | wall_bc | inflow_bc | open_bc => None
  end.

Definition all_side_parts (meta : MetaData) (parts : list Part) : bool :=
  forallb (is_side_part meta) parts.

Definition sample_non_conformal : NonConformalBoundaryConditionData :=
  {| currentPartNameVec_ := ["surface_1"; "surface_2"];
     opposingPartNameVec_ := ["nowhere"] |}.

Definition mixed_non_conformal : NonConformalBoundaryConditionData :=
  {| currentPartNameVec_ := ["surface_2"; "mixed_1"];
     opposingPartNameVec_ := ["surface_1"] |}.

(** ** Reading the declarations *)

(** The kind names that [load] recognises, in the order it tries them. *)
Definition recognized_kinds : list string :=
  ["LowMachEOM"; "VolumeOfFluid"; "ShearStressTransport"; "ChienKEpsilon";
   "WilcoxKOmega"; "TurbKineticEnergy"; "Enthalpy"; "HeatConduction";
   "WallDistance"].

(** The declaration has a block under one of the recognised names. *)
Definition names_recognized_kind (y_system : SystemNode) : bool :=
  existsb (fun kind => bool_decide (is_Some (y_system !! kind)))
    recognized_kinds.

Definition with_systems (y : EquationSystemsNode) (l : list SystemNode)
    : EquationSystemsNode :=
  {| y_name := y_name y;
     y_max_iterations := y_max_iterations y;
     y_decoupled_overset_solve := y_decoupled_overset_solve y;
     y_num_overset_correctors := y_num_overset_correctors y;
     y_solver_system_specification := y_solver_system_specification y;
     y_systems := l |}.

(** The reads of the global overset settings. *)
Definition global_read_keys (es : EquationSystems) : list string :=
  if query_for_overset (realm_ es)
  then ["decoupled_overset_solve"; "num_overset_correctors"] else [].

(** The collection when the loop over the declarations starts, by what
    the input holds. *)
Definition globals_loaded (y : EquationSystemsNode) (es : EquationSystems)
    : EquationSystems :=
  {| realm_ := realm_ es;
     name_ := y_name y;
     maxIterations_ := y_max_iterations y;
     equationSystemVector_ := equationSystemVector_ es;
     preIterAlgDriver_ := preIterAlgDriver_ es;
     postIterAlgDriver_ := postIterAlgDriver_ es;
     decoupledOversetGlobalFlag_ :=
       match query_for_overset (realm_ es), y_decoupled_overset_solve y with
       | true, Some flag => flag
       | _, _ => decoupledOversetGlobalFlag_ es
       end;
     numOversetItersDefault_ :=
       match query_for_overset (realm_ es), y_num_overset_correctors y with
       | true, Some n => n
       | _, _ => numOversetItersDefault_ es
       end;
     solverSpecMap_ := y_solver_system_specification y |}.

(** What is written on [std::cout] before the throw, on rank 0; the two
    texts of [NaluParsingHelper::info] are left out. *)
Definition unknown_kind_report (naluEnv : NaluEnv) : Trace :=
  if (parallel_rank naluEnv =? 0)%Z
  then [std_cout "Error: parsing at ... at parent ... "] else [].

(** Modelled from the spec: [EquationSystem::load] (EquationSystem.C is
    not among the sources) lets the system's own declaration block
    override the decoupled-overset flag and the number of overset
    correctors that the collection has seeded. *)
Definition override_from_own_block (s : EquationSystem) (y_eqsys : EqSysNode)
    : Outcome EquationSystem :=
  Done (set_overset_defaults
          (default (decoupledOverset_ s) (own_decoupled_overset_solve y_eqsys))
          (default (numOversetIters_ s) (own_num_overset_correctors y_eqsys))
          s).

(** ** Sample input *)

Definition sample_env : NaluEnv := {| debug := false; parallel_rank := 0 |}.

(** A constructor that pushes the new system and nothing else. *)
Definition sample_constructed (c : EqSysCtor) (es : EquationSystems)
    : EquationSystem * list (option EquationSystem) :=
  ({| eqs_this := length (equationSystemVector_ es); eqs_name_ := "no_name";
      eqnTypeName_ := "no_eqn_type_name";
      bcDataAlg_ := []; bcDataMapAlg_ := []; linsys_ := None;
      numOversetIters_ := 1; decoupledOverset_ := false |},
   map Some (equationSystemVector_ es) ++ [None]).

Definition plain_block : EqSysNode :=
  {| element_continuity_eqs := None; minimum_temperature := None;
     maximum_temperature := None; output_clipping_diagnostic := None;
     own_decoupled_overset_solve := None;
     own_num_overset_correctors := None |}.

Definition overriding_block : EqSysNode :=
  {| element_continuity_eqs := None; minimum_temperature := None;
     maximum_temperature := None; output_clipping_diagnostic := None;
     own_decoupled_overset_solve := Some false;
     own_num_overset_correctors := None |}.

Definition wall_distance_decl : SystemNode :=
  {[ "WallDistance" := overriding_block ]}.
Definition enthalpy_decl : SystemNode := {[ "Enthalpy" := plain_block ]}.
Definition unknown_decl : SystemNode := {[ "Magnetism" := plain_block ]}.

Definition sample_input (systems : list SystemNode) : EquationSystemsNode :=
  {| y_name := "theEqSys"; y_max_iterations := 2;
     y_decoupled_overset_solve := Some true;
     y_num_overset_correctors := Some 3%Z;
     y_solver_system_specification := ∅;
     y_systems := systems |}.

(** An empty collection in a realm with overset meshes. *)
Definition empty_systems : EquationSystems :=
  {| realm_ := sample_realm; name_ := ""; maxIterations_ := 1;
     equationSystemVector_ := [];
     preIterAlgDriver_ := []; postIterAlgDriver_ := [];
     decoupledOversetGlobalFlag_ := false;
     numOversetItersDefault_ := 1;
     solverSpecMap_ := ∅ |}.

(** ** A sample catalog *)

(** Three of the fields of the catalog, for three dimensions and any
    number of states: a multi-state nodal vector, a multi-state nodal
    scalar and a single-state nodal scalar. *)
Definition sample_registry (numDimensions numStates : Z)
    : gmap string FieldDef :=
  if (numDimensions =? 3)%Z
  then {[ "velocity" :=
            {| def_FieldType := VectorFieldType; def_rank := NODE_RANK;
               def_num_states := numStates; def_num_components := 3 |};
          "temperature" :=
            {| def_FieldType := ScalarFieldType; def_rank := NODE_RANK;
               def_num_states := numStates; def_num_components := 1 |};
          "dual_nodal_volume" :=
            {| def_FieldType := ScalarFieldType; def_rank := NODE_RANK;
               def_num_states := 1; def_num_components := 1 |} ]}
  else ∅.

Definition sample_manager : FieldManager := FieldManager_new sample_meta 2.

(** The mesh database after "velocity" has been registered on the
    universal part, and after "temperature" has been registered too. *)
Definition meta_with_velocity : MetaData :=
  {| spatial_dimension := 3; side_rank := FACE_RANK; meta_parts := ∅;
     meta_fields :=
       {[ (NODE_RANK, "velocity") :=
            {| number_of_states := 2; number_of_components := 3;
               field_parts := ["universal"] |} ]} |}.

Definition meta_with_both : MetaData :=
  {| spatial_dimension := 3; side_rank := FACE_RANK; meta_parts := ∅;
     meta_fields :=
       {[ (NODE_RANK, "velocity") :=
            {| number_of_states := 2; number_of_components := 3;
               field_parts := ["universal"] |};
          (NODE_RANK, "temperature") :=
            {| number_of_states := 2; number_of_components := 1;
               field_parts := ["block_1"] |} ]} |}.

(** * Further functions of the same sources *)

(** ** Solver blocks and part vectors *)

(** [EquationSystems::get_solver_block_name] *)
Definition get_solver_block_name (es : EquationSystems) (eqName : string)
    : M string :=
  match solverSpecMap_ es !! eqName with
  | Some solverName => ret solverName
  | None =>
      call (naluOutputP0
              ("Missed equation solver block specification for " +:+ eqName)) >>
      throw (runtime_error "issue with solver name mapping; none supplied")
  end.

(** The loop of [create_part_vec], with [part_vec] as it grows: the part
    is pushed, then the pointer just pushed is tested. *)
Fixpoint create_part_vec_loop (meta_data : MetaData)
    (targetNames : list string) (element_rank : bool) (part_vec : list Part)
    : M (list Part) :=
  match targetNames with
  | [] => ret part_vec
  | part_name :: rest =>
      match get_part meta_data part_name with
      | None =>
          call (naluOutputP0 ("Trouble with part " +:+ part_name)) >>
          throw (runtime_error
                   ("Sorry, no part name found by the name " +:+ part_name))
      | Some part =>
          if element_rank
             && negb (bool_decide (ELEMENT_RANK = primary_entity_rank part))
          then throw (runtime_error
                        ("Sorry, parts need to be elements.. " +:+ part_name))
          else create_part_vec_loop meta_data rest element_rank
                 (part_vec ++ [part])
      end
  end.

(** [create_part_vec] of the anonymous namespace. *)
Definition create_part_vec (meta_data : MetaData) (targetNames : list string)
    (element_rank : bool) : M (list Part) :=
  create_part_vec_loop meta_data targetNames element_rank [].

(** [EquationSystem::is_decoupled] *)
Definition is_decoupled (s : EquationSystem) : bool := decoupledOverset_ s.

(** [EquationSystems::all_systems_decoupled] *)
Definition all_systems_decoupled (es : EquationSystems) : bool :=
  if negb (hasOverset_ (realm_ es)) then false
  else fold_left (fun hasDecoupled eqsys => hasDecoupled && is_decoupled eqsys)
         (equationSystemVector_ es) true.

(** A name is accepted by [create_part_vec]: it resolves, and to a part of
    element rank where that is asked for. *)
Definition part_name_accepted (meta_data : MetaData) (element_rank : bool)
    (part_name : string) : bool :=
  match get_part meta_data part_name with
  | None => false
  | Some part =>
      negb (element_rank
            && negb (bool_decide (ELEMENT_RANK = primary_entity_rank part)))
  end.

(** What [create_part_vec] throws at a name it does not accept, and what
    it writes before. *)
Definition part_name_error (meta_data : MetaData) (part_name : string)
    : Exception :=
  match get_part meta_data part_name with
  | None => runtime_error
              ("Sorry, no part name found by the name " +:+ part_name)
  | Some _ => runtime_error
                ("Sorry, parts need to be elements.. " +:+ part_name)
  end.

Definition part_name_report (meta_data : MetaData) (part_name : string)
    : Trace :=
  match get_part meta_data part_name with
  | None => [naluOutputP0 ("Trouble with part " +:+ part_name)]
  | Some _ => []
  end.

(** The parts that a list of names resolves to, the unknown names left
    out. *)
Definition resolved_parts (meta_data : MetaData) (names : list string)
    : list Part :=
  omap (get_part meta_data) names.

(** ** Field and algorithm registration *)

(** [PostProcessingData] (PostProcessingData.h), by the member that
    [EquationSystems] reads. *)
Record PostProcessingData : Type := mkPostProcessingData {
  targetNames_ : list string
}.

(** The calls that the registrations of fields and algorithms make on
    the mesh database, the realm, the equation systems and the
    algorithms. *)
Inductive RegistrationCall : Type :=
| Realm_register_nodal_fields (part_vec : list Part)
| Eq_register_nodal_fields (s : EquationSystem) (part_vec : list Part)
| Eq_register_edge_fields (s : EquationSystem) (part_vec : list Part)
| MetaData_declare_field (T : FieldType) (rank : EntityRank) (name : string)
| Eq_register_element_fields (s : EquationSystem) (part : list Part)
    (the_topo : topology)
| put_field_on_mesh (name : string) (selectUnion : list Part)
    (numScalarsPerEntity : Z)
| Realm_register_interior_algorithm (part : Part)
| Eq_register_interior_algorithm (s : EquationSystem) (part : Part)
| Eq_register_surface_pp_algorithm (s : EquationSystem)
    (theData : PostProcessingData) (partVector : list Part)
| Algorithm_execute (alg : Algorithm).

(** A trace of these calls and of the earlier ones. *)
Definition Calls := list (Event + RegistrationCall).

Definition MC (A : Type) : Type := Calls -> Outcome A * Calls.

Definition retC {A} (a : A) : MC A := fun tr => (Done a, tr).

Definition bindC {A B} (m : MC A) (k : A -> MC B) : MC B :=
  fun tr =>
    match m tr with
    | (Done a, tr') => k a tr'
    | (Thrown e, tr') => (Thrown e, tr')
    | (NullDereference, tr') => (NullDereference, tr')
    end.

Definition throwC {A} (e : Exception) : MC A := fun tr => (Thrown e, tr).
Definition callC (c : RegistrationCall) : MC unit :=
  fun tr => (Done tt, tr ++ [inr c]).
Definition outputC (msg : string) : MC unit :=
  fun tr => (Done tt, tr ++ [inl (naluOutputP0 msg)]).

(** A computation of the earlier kind that does not look at the calls
    made before it, run in place. *)
Definition liftC {A} (m : M A) : MC A :=
  fun tr => let (o, t) := run m in (o, tr ++ map inl t).

Fixpoint for_eachC {A} (xs : list A) (body : A -> MC unit) : MC unit :=
  match xs with
  | [] => retC tt
  | x :: rest => bindC (body x) (fun _ => for_eachC rest body)
  end.

Definition runC {A} (m : MC A) : Outcome A * Calls := m [].

Declare Scope calls_scope.
Notation "'let*' x ':=' m 'in' k" := (bindC m (fun x => k))
  (at level 10, x name, m at level 100, k at level 200, only parsing)
  : calls_scope.
Notation "m >> k" := (bindC m (fun _ => k))
  (at level 20, k at level 200, only parsing) : calls_scope.
Local Open Scope calls_scope.

(** [EquationSystems::register_nodal_fields] *)
Definition register_nodal_fields (es : EquationSystems)
    (targetNames : list string) : MC unit :=
  let meta := meta_data (realm_ es) in
  let* part_vec := liftC (create_part_vec meta targetNames false) in
  callC (Realm_register_nodal_fields part_vec) >>
  for_eachC (equationSystemVector_ es) (fun ii =>
    callC (Eq_register_nodal_fields ii part_vec)).

(** [EquationSystems::register_edge_fields] *)
Definition register_edge_fields (es : EquationSystems)
    (targetNames : list string) : MC unit :=
  let meta := meta_data (realm_ es) in
  let* part_vec := liftC (create_part_vec meta targetNames false) in
  for_eachC (equationSystemVector_ es) (fun ii =>
    callC (Eq_register_edge_fields ii part_vec)).

(** [EquationSystems::register_element_fields] *)
Definition register_element_fields (es : EquationSystems)
    (targetNames : list string) : MC unit :=
  let meta := meta_data (realm_ es) in
  callC (MetaData_declare_field ScalarFieldType ELEMENT_RANK
           "element_volume") >>
  let* part_vec := liftC (create_part_vec meta targetNames true) in
  for_eachC part_vec (fun targetPart =>
    let part := [targetPart] in
    let the_topo := part_topology targetPart in
    for_eachC (equationSystemVector_ es) (fun ii =>
      callC (Eq_register_element_fields ii part the_topo))) >>
  callC (put_field_on_mesh "element_volume" part_vec 1).

(** [EquationSystems::register_interior_algorithm] *)
Definition register_interior_algorithm (es : EquationSystems)
    (targetNames : list string) : MC unit :=
  let meta := meta_data (realm_ es) in
  for_eachC targetNames (fun targetName =>
    match get_part meta targetName with
    | None =>
        throwC (runtime_error
                  ("Sorry, no part name found by the name " +:+ targetName))
    | Some targetPart =>
        if negb (bool_decide
                   (ELEMENT_RANK = primary_entity_rank targetPart))
        then throwC (runtime_error
                       ("Sorry, parts need to be elements.. " +:+ targetName))
        else
          callC (Realm_register_interior_algorithm targetPart) >>
          for_eachC (equationSystemVector_ es) (fun ii =>
            callC (Eq_register_interior_algorithm ii targetPart))
    end).

(** The first loop of [register_surface_pp_algorithm], with [partVector]
    as it grows: a subset that has no side rank is reported and pushed all
    the same. *)
Fixpoint surface_pp_parts (meta : MetaData) (targetNames : list string)
    (partVector : list Part) : MC (list Part) :=
  match targetNames with
  | [] => retC partVector
  | targetName :: rest =>
      match get_part meta targetName with
      | None =>
          outputC ("SurfacePP: can not find part with name: " +:+ targetName)
          >> surface_pp_parts meta rest partVector
      | Some targetPart =>
          for_eachC (subsets targetPart) (fun part =>
            if negb (is_side_part meta part)
            then outputC ("SurfacePP: part is not a face: " +:+ targetName)
            else retC tt) >>
          surface_pp_parts meta rest (partVector ++ subsets targetPart)
      end
  end.

(** [EquationSystems::register_surface_pp_algorithm] *)
Definition register_surface_pp_algorithm (es : EquationSystems)
    (theData : PostProcessingData) : MC unit :=
  let meta := meta_data (realm_ es) in
  let* partVector := surface_pp_parts meta (targetNames_ theData) [] in
  for_eachC (equationSystemVector_ es) (fun ii =>
    callC (Eq_register_surface_pp_algorithm ii theData partVector)).

(** [algs[k]->execute()] for [k] below [algs.size()]. *)
Definition execute_all (algs : list Algorithm) : MC unit :=
  for_eachC (seq 0 (length algs)) (fun k =>
    match algs !! k with
    | Some alg => callC (Algorithm_execute alg)
    | None => fun tr => (NullDereference, tr)
    end).

(** [EquationSystems::populate_boundary_data] *)
Definition populate_boundary_data (es : EquationSystems) : MC unit :=
  for_eachC (equationSystemVector_ es) (fun ii => execute_all (bcDataAlg_ ii)).

(** [EquationSystems::boundary_data_to_state_data] *)
Definition boundary_data_to_state_data (es : EquationSystems) : MC unit :=
  for_eachC (equationSystemVector_ es) (fun ii =>
    execute_all (bcDataMapAlg_ ii)).

Local Close Scope calls_scope.

(** The registration calls of a trace, and what was written. *)
Definition registration_calls (tr : Calls) : list RegistrationCall :=
  omap (fun c => match c with inr r => Some r | inl _ => None end) tr.

Definition written (tr : Calls) : list Event :=
  omap (fun c => match c with inl e => Some e | inr _ => None end) tr.

(** What [register_surface_pp_algorithm] is expected to write: for each
    name in turn, that no part was found, or one line for each subset of
    the part that has no side rank. *)
Definition surface_pp_reports (meta_data : MetaData)
    (targetNames : list string) : list Event :=
  flat_map
    (fun targetName =>
       match get_part meta_data targetName with
       | None =>
           [naluOutputP0
              ("SurfacePP: can not find part with name: " +:+ targetName)]
       | Some targetPart =>
           map (fun _ =>
                  naluOutputP0
                    ("SurfacePP: part is not a face: " +:+ targetName))
             (List.filter (fun part => negb (is_side_part meta_data part))
                (subsets targetPart))
       end)
    targetNames.

(** What reaches an equation system when one part is registered for the
    interior algorithm: the realm first. *)
Definition interior_calls (es : EquationSystems) (part : Part)
    : list RegistrationCall :=
  Realm_register_interior_algorithm part ::
  map (fun ii => Eq_register_interior_algorithm ii part)
    (equationSystemVector_ es).

(** A name is accepted by [register_interior_algorithm]. *)
Definition interior_name_accepted (meta : MetaData) (targetName : string)
    : bool :=
  part_name_accepted meta true targetName.

(** A surface with an element block, and an element block, by name. *)
Definition block_1 : Part := hex_block "block_1".

Definition volume_meta : MetaData :=
  {| spatial_dimension := 3; side_rank := FACE_RANK;
     meta_parts := {[ "block_1" := block_1; "block_2" := hex_block "block_2";
                      "surface_1" := surface_1; "mixed_1" := mixed_1 ]};
     meta_fields := ∅ |}.

Definition volume_realm : Realm :=
  {| hasOverset_ := true; query_for_overset := true;
     realmUsesEdges_ := true; matrix_free := false;
     get_activate_memory_diagnostic := false; meta_data := volume_meta |}.

Definition volume_systems : EquationSystems :=
  sample_systems volume_realm [sample_system 0 0; sample_system 1 2].

(** ** Reading a load *)

(** The key of the input under which a constructor is reached. *)
Definition kind_name (c : EqSysCtor) : string :=
  match c with
  | MatrixFreeLowMachEquationSystem | LowMachEquationSystem _ => "LowMachEOM"
  | VolumeOfFluidEquationSystem => "VolumeOfFluid"
  | ShearStressTransportEquationSystem => "ShearStressTransport"
  | ChienKEpsilonEquationSystem => "ChienKEpsilon"
  | WilcoxKOmegaEquationSystem => "WilcoxKOmega"
  | TurbKineticEnergyEquationSystem => "TurbKineticEnergy"
  | EnthalpyEquationSystem _ _ _ => "Enthalpy"
  | MatrixFreeHeatCondEquationSystem => "HeatConduction"
  | WallDistEquationSystem => "WallDistance"
  end.

(** The first recognised kind, in the order [load] tries them, that a
    declaration has a block for. *)
Definition first_kind (y_system : SystemNode) : option string :=
  List.find (fun kind => bool_decide (is_Some (y_system !! kind)))
    recognized_kinds.

(** The kinds for which no [new] is compiled in or reached: [eqSys] stays
    null. *)
Definition leaves_eqSys_null (NALU_HAS_MATRIXFREE : bool) (realm : Realm)
    (kind : string) : bool :=
  (String.eqb kind "LowMachEOM" && matrix_free realm
   && negb NALU_HAS_MATRIXFREE)
  || (String.eqb kind "HeatConduction" && negb NALU_HAS_MATRIXFREE).

(** The kind that throws in a realm that is not matrix-free. *)
Definition refuses_realm (NALU_HAS_MATRIXFREE : bool) (realm : Realm)
    (kind : string) : bool :=
  String.eqb kind "HeatConduction" && NALU_HAS_MATRIXFREE
  && negb (matrix_free realm).

(** The constructions of a trace. *)
Definition constructions (tr : Trace) : list EqSysCtor :=
  omap (fun e => match e with
                 | new_EquationSystem c => Some c
                 | _ => None
                 end) tr.

(** A constructor as the wrappers have it: the shear stress transport
    system pushes itself and then the two systems it holds; every other
    system pushes itself only. *)
Definition wrapping_constructed (c : EqSysCtor) (es : EquationSystems)
    : EquationSystem * list (option EquationSystem) :=
  let n := length (equationSystemVector_ es) in
  let held (this : nat) (name : string) :=
    {| eqs_this := this; eqs_name_ := name; eqnTypeName_ := name;
       bcDataAlg_ := []; bcDataMapAlg_ := [];
       linsys_ := Some (LinSys this);
       numOversetIters_ := 1; decoupledOverset_ := false |} in
  ((sample_constructed c es).1,
   match c with
   | ShearStressTransportEquationSystem =>
       map Some (equationSystemVector_ es) ++
       [None; Some (held (n + 1) "TurbKineticEnergy");
        Some (held (n + 2) "SpecDissRate")]
   | _ => (sample_constructed c es).2
   end).

(** A declaration with two recognised kinds, and one that asks for heat
    conduction. *)
Definition two_kinds_decl : SystemNode :=
  {[ "WallDistance" := plain_block; "ShearStressTransport" := overriding_block ]}.
Definition heat_conduction_decl : SystemNode :=
  {[ "HeatConduction" := plain_block ]}.

(** ** Reading [initialize] *)

Definition has_linear_system (s : EquationSystem) : bool :=
  match linsys_ s with Some _ => true | None => false end.

Definition coupling_line (s : EquationSystem) : Event :=
  naluOutputP0 (" - " +:+ eqnTypeName_ s +:+ ": " +:+
                (if decoupledOverset_ s then "decoupled" else "coupled")).

(** A wrapper system: it has no linear system of its own. *)
Definition wrapper_system (this : nat) : EquationSystem :=
  {| eqs_this := this; eqs_name_ := "LowMachEOMWrap";
     eqnTypeName_ := "low_mach_type";
     bcDataAlg_ := []; bcDataMapAlg_ := []; linsys_ := None;
     numOversetIters_ := 1; decoupledOverset_ := true |}.

Definition wrapped_systems : EquationSystems :=
  sample_systems sample_realm
    [wrapper_system 0; sample_system 1 0; sample_system 2 1].

(** An input whose solver specification names the block of one equation. *)
Definition solver_input : EquationSystemsNode :=
  {| y_name := "theEqSys"; y_max_iterations := 2;
     y_decoupled_overset_solve := None;
     y_num_overset_correctors := None;
     y_solver_system_specification := {[ "temperature" := "solve_scalar" ]};
     y_systems := [enthalpy_decl] |}.

(** ** Scratch sizes of the element algorithm tests *)

(** A bucket, by what [find_max_nodes_and_ips] reads of it: the number of
    nodes of its topology as an [int], the number of integration points of
    the surface master element of the topology, and its size. *)
Record Bucket : Type := mkBucket {
  topo_num_nodes : Z;
  meSCS_num_integration_points : Z;
  bucket_size : Z
}.

Definition size_t_add (a b : Z) : Z := (a + b) mod 2 ^ 64.

(** The loop of [find_max_nodes_and_ips], over the three variables it
    updates. *)
Fixpoint find_max_loop (buckets : list Bucket)
    (maxNodesPerElement maxScsIp numEntities : Z) : Z * Z * Z :=
  match buckets with
  | [] => (maxNodesPerElement, maxScsIp, numEntities)
  | bptr :: rest =>
      find_max_loop rest
        (Z.max maxNodesPerElement (topo_num_nodes bptr))
        (Z.max maxScsIp (meSCS_num_integration_points bptr))
        (size_t_add numEntities (bucket_size bptr))
  end.

(** [find_max_nodes_and_ips]: the two maxima, and the number of entities,
    which it only prints. *)
Definition find_max_nodes_and_ips (buckets : list Bucket) : Z * Z * Z :=
  find_max_loop buckets 0 0 0.


(** * Proofs *)

(** ** The monad *)

Lemma bind_Done {A B} (m : M A) (k : A -> M B) tr a tr' :
  m tr = (Done a, tr') -> bind m k tr = k a tr'.
Proof. unfold bind. by intros ->. Qed.

Lemma call_run e tr : call e tr = (Done tt, tr ++ [e]).
Proof. reflexivity. Qed.

(** A loop whose body only makes calls makes the calls of its bodies, in
    the order of the list. *)
Lemma for_each_calls {A} (xs : list A) (body : A -> M unit)
    (f : A -> list Event) :
  (forall x tr, body x tr = (Done tt, tr ++ f x)) ->
  forall tr, for_each xs body tr = (Done tt, tr ++ flat_map f xs).
Proof.
  intros Hbody. induction xs as [|x xs IH]; intros tr; simpl.
  - by rewrite app_nil_r.
  - rewrite (bind_Done _ _ _ _ _ (Hbody x tr)), IH. by rewrite app_assoc.
Qed.

Lemma for_each_call {A} (xs : list A) (e : A -> Event) tr :
  for_each xs (fun x => call (e x)) tr = (Done tt, tr ++ map e xs).
Proof.
  assert (flat_map (fun x => [e x]) xs = map e xs) as <-.
  { induction xs as [|x xs IH]; simpl; congruence. }
  by apply for_each_calls.
Qed.

(** ** [solve_and_update] *)

Lemma pre_iter_work_run es tr :
  pre_iter_work es tr = (Done tt, tr ++ pre_iter_calls es).
Proof.
  unfold pre_iter_work, pre_iter_calls, when.
  destruct (hasOverset_ (realm_ es)); unfold bind; simpl.
  - rewrite for_each_call. by rewrite <- app_assoc.
  - by rewrite for_each_call.
Qed.

Lemma post_iter_work_run es tr :
  post_iter_work es tr = (Done tt, tr ++ post_iter_calls es).
Proof. apply for_each_call. Qed.

Lemma check_equations_for_convergence_run oracle systems :
  forall overall tr,
  exists answers,
    length answers = length systems /\
    check_equations_for_convergence oracle systems overall tr =
      (Done (overall && forallb id answers),
       tr ++ zip_with Eq_system_is_converged systems answers).
Proof.
  induction systems as [|ii rest IH]; intros overall tr; simpl.
  - exists []. split; [done|]. unfold ret. simpl.
    by rewrite andb_true_r, app_nil_r.
  - unfold bind, system_is_converged. simpl.
    set (b := oracle ii tr).
    destruct (IH (if negb b then false else overall)
                 (tr ++ [Eq_system_is_converged ii b]))
      as (answers & Hlen & ->).
    exists (b :: answers). split; [simpl; congruence|].
    simpl. rewrite <- app_assoc. simpl. f_equal. f_equal.
    by destruct b, overall.
Qed.

(** The whole run of [solve_and_update]: it ends normally, the calls up to
    the convergence check are [calls_before_convergence], then every
    system is asked once, and the result is the conjunction of the
    answers. *)
Lemma solve_and_update_run oracle es :
  exists answers,
    length answers = length (equationSystemVector_ es) /\
    run (solve_and_update oracle es) =
      (Done (forallb id answers),
       calls_before_convergence es ++
       zip_with Eq_system_is_converged (equationSystemVector_ es) answers).
Proof.
  unfold run, solve_and_update.
  rewrite (bind_Done _ _ _ _ _ (pre_iter_work_run es [])).
  erewrite bind_Done; last first.
  { apply (for_each_calls _ _
      (fun ii => [Eq_pre_iter_work ii; Eq_solve_and_update ii;
                  Eq_post_iter_work ii])).
    intros x tr. unfold bind, call. simpl. by rewrite <- !app_assoc. }
  erewrite (bind_Done (when _ _)) ; last first.
  { instantiate (1 := ([] ++ pre_iter_calls es) ++ per_system_calls es
                      ++ memory_diagnostic_calls es).
    instantiate (1 := tt).
    unfold when, memory_diagnostic_calls, per_system_calls.
    destruct (get_activate_memory_diagnostic (realm_ es)).
    - unfold bind, call. simpl. by rewrite <- !app_assoc.
    - unfold ret. by rewrite app_nil_r, <- !app_assoc. }
  rewrite (bind_Done _ _ _ _ _ (for_each_call _ _ _)).
  rewrite (bind_Done _ _ _ _ _ (post_iter_work_run _ _)).
  destruct (check_equations_for_convergence_run oracle
              (equationSystemVector_ es) true
              (((([] ++ pre_iter_calls es) ++ per_system_calls es ++
                 memory_diagnostic_calls es) ++
                map Eq_post_iter_work_dep (equationSystemVector_ es)) ++
               post_iter_calls es))
    as (answers & Hlen & ->).
  exists answers. split; [done|].
  unfold calls_before_convergence, post_iter_dep_calls. simpl.
  by rewrite <- !app_assoc.
Qed.

(** ** Projections of traces *)

Lemma omap_nil_Forall {A B} (f : A -> option B) (l : list A) :
  Forall (fun x => f x = None) l -> omap f l = [].
Proof.
  induction 1 as [|x l Hx _ IH]; [done|]. simpl. by rewrite Hx.
Qed.

Lemma Forall_flat_map_intro {A B} (P : B -> Prop) (f : A -> list B) l :
  (forall x, Forall P (f x)) -> Forall P (flat_map f l).
Proof.
  intros Hf. induction l as [|x l IH]; simpl; [constructor|].
  apply Forall_app. by split.
Qed.

Lemma Forall_map_intro {A B} (P : B -> Prop) (f : A -> B) l :
  (forall x, P (f x)) -> Forall P (map f l).
Proof. intros Hf. induction l; simpl; constructor; auto. Qed.

Ltac no_such_call :=
  repeat first
    [ apply Forall_app; split
    | apply Forall_map_intro; intros; reflexivity
    | apply Forall_flat_map_intro; intros
    | apply Forall_cons; split; [reflexivity|]
    | apply Forall_nil_2
    | match goal with |- context [if ?b then _ else _] => destruct b end ].

Lemma calls_before_convergence_no_query es :
  convergence_queries (calls_before_convergence es) = [].
Proof.
  apply omap_nil_Forall.
  unfold calls_before_convergence, pre_iter_calls, per_system_calls,
    memory_diagnostic_calls, post_iter_dep_calls, post_iter_calls.
  no_such_call.
Qed.

Lemma convergence_queries_zip systems answers :
  convergence_queries (zip_with Eq_system_is_converged systems answers) =
  zip systems answers.
Proof.
  revert answers. induction systems as [|s systems IH]; intros [|b answers];
    simpl; try done.
  unfold convergence_queries in *. simpl. by rewrite IH.
Qed.

Lemma forallb_snd_zip {A} (xs : list A) (bs : list bool) :
  length bs = length xs ->
  forallb snd (zip xs bs) = forallb id bs.
Proof.
  revert bs. induction xs as [|x xs IH]; intros [|b bs] Hlen;
    simpl in *; try done.
  rewrite IH; [done|lia].
Qed.

Lemma forallb_snd_false {A} (l : list (A * bool)) :
  forallb snd l = false <-> exists x, (x, false) ∈ l.
Proof.
  induction l as [|[x b] l IH]; simpl.
  - split; [done|]. intros [x Hx]. by apply elem_of_nil in Hx.
  - destruct b; simpl.
    + rewrite IH. split.
      * intros [y Hy]. exists y. by right.
      * intros [y Hy]. apply elem_of_cons in Hy as [[=]|Hy]. by exists y.
    + split; [|done]. intros _. exists x. by left.
Qed.

(** ** Aggregation of convergence *)

(** C1.  One call of [EquationSystems::solve_and_update] asks every owned
    equation system for [system_is_converged()]: the systems asked, in
    the order of the calls, are exactly [equationSystemVector_], so each
    system is asked as often as it is owned (once), also after a [false]
    answer.  The call returns the conjunction of all the answers: [false]
    exactly when some system answered [false], [true] exactly when every
    system answered [true].  With three systems answering true, false,
    true it returns [false] after three queries. *)
Theorem solve_and_update_convergence_is_and_of_all_queries :
  (forall (oracle : EquationSystem -> Trace -> bool) (es : EquationSystems),
     let out := run (solve_and_update oracle es) in
     let queries := convergence_queries out.2 in
     queries.*1 = equationSystemVector_ es /\
     (forall s, count_occ EquationSystem_eq_dec queries.*1 s =
                count_occ EquationSystem_eq_dec (equationSystemVector_ es) s) /\
     out.1 = Done (forallb snd queries) /\
     (out.1 = Done false <-> exists s, (s, false) ∈ queries) /\
     (out.1 = Done true <-> forall s b, (s, b) ∈ queries -> b = true)) /\
  (let out := run (solve_and_update second_not_converged three_systems) in
   out.1 = Done false /\
   convergence_queries out.2 =
     [(sample_system 0 0, true); (sample_system 1 2, false);
      (sample_system 2 1, true)]).
Proof.
  split; [|by vm_compute].
  intros oracle es out queries.
  destruct (solve_and_update_run oracle es) as (answers & Hlen & Hrun).
  assert (Hq : queries = zip (equationSystemVector_ es) answers).
  { unfold queries, out. rewrite Hrun. simpl. unfold convergence_queries.
    rewrite omap_app. fold (convergence_queries (calls_before_convergence es)).
    rewrite calls_before_convergence_no_query. simpl.
    apply convergence_queries_zip. }
  assert (Hres : out.1 = Done (forallb snd queries)).
  { unfold out. rewrite Hrun, Hq. simpl. by rewrite forallb_snd_zip. }
  assert (Hfst : queries.*1 = equationSystemVector_ es).
  { rewrite Hq. apply fst_zip. lia. }
  split_and!; try done.
  - intros s. by rewrite Hfst.
  - rewrite Hres. split.
    + intros [= Hall]. by apply forallb_snd_false.
    + intros Hex. f_equal. by apply forallb_snd_false.
  - rewrite Hres. split.
    + intros [= Hall] s b Hin. rewrite forallb_forall in Hall.
      apply list_elem_of_In in Hin. exact (Hall _ Hin).
    + intros Hall. f_equal. apply forallb_forall. intros [s b] Hin.
      apply list_elem_of_In in Hin. simpl. eauto.
Qed.

Lemma lifecycle_calls_all (l : Trace) :
  Forall (fun e => is_diagnostic e = false) l -> lifecycle_calls l = l.
Proof.
  induction 1 as [|e l He _ IH]; [done|].
  unfold lifecycle_calls in *. simpl. rewrite He. simpl. by rewrite IH.
Qed.

Lemma lifecycle_calls_app (l1 l2 : Trace) :
  lifecycle_calls (l1 ++ l2) = lifecycle_calls l1 ++ lifecycle_calls l2.
Proof. apply List.filter_app. Qed.

Lemma zip_with_converged_lifecycle systems answers :
  Forall (fun e => is_diagnostic e = false)
    (zip_with Eq_system_is_converged systems answers).
Proof.
  revert answers. induction systems as [|s systems IH]; intros [|b answers];
    simpl; constructor; auto.
Qed.

(** ** Order of the calls *)

(** C2.  The calls of one [EquationSystems::solve_and_update], in order:
    the collection's [pre_iter_work] (the overset fringe update first when
    the realm has overset meshes, then every global pre-iteration
    algorithm in registration order); for every owned system in
    registration order its [pre_iter_work], [solve_and_update] and
    [post_iter_work]; in a separate pass, [post_iter_work_dep] of every
    owned system in registration order; the collection's [post_iter_work]
    (every global post-iteration algorithm in registration order); and
    last the convergence queries, one per owned system in registration
    order.  The only other calls are the two of the memory diagnostic,
    when it is activated, made between the per-system pass and the
    [post_iter_work_dep] pass. *)
Theorem solve_and_update_call_order :
  forall (oracle : EquationSystem -> Trace -> bool) (es : EquationSystems),
  exists answers : list bool,
    length answers = length (equationSystemVector_ es) /\
    (run (solve_and_update oracle es)).2 =
      ((if hasOverset_ (realm_ es) then [oversetUpdater_execute] else []) ++
       map AlgorithmDriver_execute (preIterAlgDriver_ es)) ++
      flat_map (fun ii => [Eq_pre_iter_work ii; Eq_solve_and_update ii;
                           Eq_post_iter_work ii])
        (equationSystemVector_ es) ++
      memory_diagnostic_calls es ++
      map Eq_post_iter_work_dep (equationSystemVector_ es) ++
      map AlgorithmDriver_execute (postIterAlgDriver_ es) ++
      zip_with Eq_system_is_converged (equationSystemVector_ es) answers /\
    lifecycle_calls (run (solve_and_update oracle es)).2 =
      ((if hasOverset_ (realm_ es) then [oversetUpdater_execute] else []) ++
       map AlgorithmDriver_execute (preIterAlgDriver_ es)) ++
      flat_map (fun ii => [Eq_pre_iter_work ii; Eq_solve_and_update ii;
                           Eq_post_iter_work ii])
        (equationSystemVector_ es) ++
      map Eq_post_iter_work_dep (equationSystemVector_ es) ++
      map AlgorithmDriver_execute (postIterAlgDriver_ es) ++
      zip_with Eq_system_is_converged (equationSystemVector_ es) answers.
Proof.
  intros oracle es.
  destruct (solve_and_update_run oracle es) as (answers & Hlen & Hrun).
  exists answers. split; [done|]. rewrite Hrun. simpl.
  unfold calls_before_convergence, pre_iter_calls, per_system_calls,
    post_iter_dep_calls, post_iter_calls.
  split; [by rewrite <- !app_assoc|].
  rewrite !lifecycle_calls_app.
  rewrite (lifecycle_calls_all _ (zip_with_converged_lifecycle _ _)).
  assert (lifecycle_calls (memory_diagnostic_calls es) = []) as ->.
  { unfold memory_diagnostic_calls. by destruct (get_activate_memory_diagnostic _). }
  destruct (hasOverset_ (realm_ es));
    rewrite !lifecycle_calls_all by no_such_call;
    simpl; by rewrite <- !app_assoc.
Qed.

(** ** Forwarded hooks *)

Lemma forward_hook_run h es :
  run (forward_hook h es) =
  (Done tt, map (Eq_forwarded h) (equationSystemVector_ es)).
Proof. unfold run, forward_hook. by rewrite for_each_call. Qed.

Lemma initialize_run es :
  run (initialize es) = (Done tt, initialize_calls es).
Proof.
  unfold run, initialize, initialize_calls.
  rewrite (bind_Done _ _ _ _ _ (call_run _ _)).
  erewrite bind_Done; last first.
  { apply (for_each_calls _ _ (fun eqSys =>
      (if get_activate_memory_diagnostic (realm_ es)
       then [naluOutputP0 ("NaluMemory::EquationSystems::initialize(): " +:+
                           eqs_name_ eqSys);
             Realm_provide_memory_summary]
       else []) ++ [Eq_forwarded initialize_hook eqSys])).
    intros eqSys tr. unfold when, bind, call, ret.
    destruct (get_activate_memory_diagnostic (realm_ es)); simpl;
      by rewrite <- ?app_assoc. }
  rewrite (bind_Done _ _ _ _ _ (call_run _ _)).
  unfold when. destruct (hasOverset_ (realm_ es)).
  - rewrite (bind_Done _ _ _ _ _ (call_run _ _)).
    erewrite (for_each_calls _ _ (fun eqsys =>
            match linsys_ eqsys with
            | None => []
            | Some _ =>
                [naluOutputP0 (" - " +:+ eqnTypeName_ eqsys +:+ ": " +:+
                               (if decoupledOverset_ eqsys
                                then "decoupled" else "coupled"))]
            end)).
    + simpl. by rewrite <- ?app_assoc.
    + intros eqsys tr. destruct (linsys_ eqsys); [done|].
      unfold ret. by rewrite app_nil_r.
  - unfold ret. simpl. by rewrite <- ?app_assoc.
Qed.

Lemma forwarded_calls_app h (t1 t2 : Trace) :
  forwarded_calls h (t1 ++ t2) = forwarded_calls h t1 ++ forwarded_calls h t2.
Proof. apply omap_app. Qed.

Lemma forwarded_calls_diagnostics h (tr : Trace) :
  Forall (fun e => is_diagnostic e = true) tr -> forwarded_calls h tr = [].
Proof.
  intros Hdiag. apply omap_nil_Forall.
  eapply Forall_impl; [exact Hdiag|]. by intros [] ?.
Qed.

Lemma forwarded_calls_one h s : forwarded_calls h [Eq_forwarded h s] = [s].
Proof. unfold forwarded_calls. simpl. by rewrite decide_True. Qed.

Lemma forwarded_calls_flat_map_diag h (diag : EquationSystem -> Trace) v :
  (forall s, Forall (fun e => is_diagnostic e = true) (diag s)) ->
  forwarded_calls h (flat_map (fun s => diag s ++ [Eq_forwarded h s]) v) = v.
Proof.
  intros Hdiag. induction v as [|s v IH]; [done|].
  change (forwarded_calls h
            ((diag s ++ [Eq_forwarded h s]) ++
             flat_map (fun s => diag s ++ [Eq_forwarded h s]) v) = s :: v).
  rewrite !forwarded_calls_app, IH, forwarded_calls_one.
  by rewrite forwarded_calls_diagnostics.
Qed.

Lemma post_external_data_transfer_work_run es :
  run (post_external_data_transfer_work es) =
  (Done tt,
   flat_map (fun ii => replicate (length (bcDataAlg_ ii))
                         (Eq_post_external_data_transfer_work ii))
     (equationSystemVector_ es)).
Proof.
  unfold run, post_external_data_transfer_work.
  rewrite (for_each_calls _ _
    (fun ii => replicate (length (bcDataAlg_ ii))
                 (Eq_post_external_data_transfer_work ii))); [done|].
  intros ii tr. rewrite for_each_call. f_equal. f_equal.
  generalize 0. induction (length (bcDataAlg_ ii)) as [|n IH]; intros k;
    simpl; [done|]. by rewrite IH.
Qed.

Lemma post_external_calls_replicate n s :
  post_external_calls (replicate n (Eq_post_external_data_transfer_work s)) =
  replicate n s.
Proof.
  induction n as [|n IH]; [done|]. unfold post_external_calls in *.
  simpl. f_equal. exact IH.
Qed.

Lemma count_occ_replicate (n : nat) (s s' : EquationSystem) :
  count_occ EquationSystem_eq_dec (replicate n s) s' =
  if decide (s = s') then n else 0.
Proof.
  induction n as [|n IH]; simpl.
  - by destruct (decide _).
  - rewrite IH. destruct (EquationSystem_eq_dec s s'), (decide (s = s'));
      congruence.
Qed.

(** C10.  [EquationSystems::post_external_data_transfer_work] calls the
    [post_external_data_transfer_work] hook of an owned system once for
    every entry of that system's [bcDataAlg_]: the calls are, system by
    system in registration order, as many as [bcDataAlg_] is long, so a
    system with an empty list is never called and a system with several
    boundary-condition data algorithms is called several times.  The
    other forwarded hooks ([predict_state], [pre_timestep_work],
    [post_converged_work], [provide_output], [initialize], ...) are called
    once per owned system. *)
Theorem post_external_data_transfer_work_once_per_bc_algorithm :
  (forall es : EquationSystems,
     let out := run (post_external_data_transfer_work es) in
     out.1 = Done tt /\
     out.2 = flat_map (fun ii => replicate (length (bcDataAlg_ ii))
                                   (Eq_post_external_data_transfer_work ii))
               (equationSystemVector_ es) /\
     (forall s,
        count_occ EquationSystem_eq_dec (post_external_calls out.2) s =
        count_occ EquationSystem_eq_dec (equationSystemVector_ es) s *
        length (bcDataAlg_ s)) /\
     (forall h,
        let fwd := run (forward_hook h es) in
        fwd.1 = Done tt /\
        fwd.2 = map (Eq_forwarded h) (equationSystemVector_ es)) /\
     forwarded_calls initialize_hook (run (initialize es)).2 =
       equationSystemVector_ es /\
     forwarded_calls reinitialize_linear_system_hook
       (run (reinitialize_linear_system es)).2 = equationSystemVector_ es) /\
  post_external_calls (run (post_external_data_transfer_work three_systems)).2 =
    [sample_system 1 2; sample_system 1 2; sample_system 2 1].
Proof.
  split; [|by vm_compute].
  intros es out. unfold out. rewrite post_external_data_transfer_work_run.
  simpl. split_and!; try done.
  - intros s. induction (equationSystemVector_ es) as [|ii v IH]; [done|].
    simpl. unfold post_external_calls in *. rewrite omap_app.
    fold (post_external_calls
            (replicate (length (bcDataAlg_ ii))
               (Eq_post_external_data_transfer_work ii))).
    rewrite post_external_calls_replicate, count_occ_app, IH,
      count_occ_replicate.
    destruct (EquationSystem_eq_dec ii s), (decide (ii = s)); subst;
      try congruence; lia.
  - intros h. by rewrite forward_hook_run.
  - rewrite initialize_run. unfold initialize_calls, snd.
    rewrite !forwarded_calls_app.
    rewrite forwarded_calls_flat_map_diag.
    + rewrite !forwarded_calls_diagnostics; [by rewrite app_nil_r|..];
        try destruct (hasOverset_ (realm_ es)); repeat constructor.
      apply Forall_flat_map_intro.
      intros s. destruct (linsys_ s); repeat constructor.
    + intros s. destruct (get_activate_memory_diagnostic _);
        repeat constructor.
  - unfold run, reinitialize_linear_system. rewrite for_each_call.
    unfold snd. rewrite app_nil_l.
    induction (equationSystemVector_ es) as [|s v IH]; [done|].
    change (forwarded_calls reinitialize_linear_system_hook
              ([Eq_forwarded reinitialize_linear_system_hook s] ++
               map (Eq_forwarded reinitialize_linear_system_hook) v) = s :: v).
    by rewrite forwarded_calls_app, forwarded_calls_one, IH.
Qed.

(** ** Norm aggregation *)

Lemma double_lt_fin x y :
  double_lt (DFin x) (DFin y) = true <-> (x < y)%Q.
Proof.
  simpl. rewrite negb_true_iff, <- not_true_iff_false, Qle_bool_iff.
  split; [apply Qnot_le_lt | apply Qlt_not_le].
Qed.

Lemma double_lt_fin_false x y :
  double_lt (DFin x) (DFin y) = false <-> (y <= x)%Q.
Proof.
  simpl. rewrite negb_false_iff. apply Qle_bool_iff.
Qed.

Lemma double_lt_irrefl a : double_lt a a = false.
Proof.
  destruct a as [|[]|q]; try done. apply double_lt_fin_false, Qle_refl.
Qed.

Lemma double_lt_trans a b c :
  double_lt a b = true -> double_lt b c = true -> double_lt a c = true.
Proof.
  destruct a as [|[]|x], b as [|[]|y], c as [|[]|z]; try done.
  rewrite !double_lt_fin. apply Qlt_trans.
Qed.

(** On numbers [<] is total: what is not below is at least as large. *)
Lemma double_not_lt_trans a b c :
  b <> DNaN ->
  double_lt a b = false -> double_lt b c = false -> double_lt a c = false.
Proof.
  destruct a as [|[]|x], b as [|[]|y], c as [|[]|z]; try done.
  intros _. rewrite !double_lt_fin_false. intros H1 H2.
  by apply Qle_trans with y.
Qed.

Lemma std_max_not_NaN a b : a <> DNaN -> std_max a b <> DNaN.
Proof.
  unfold std_max. destruct (double_lt a b) eqn:E; [|done].
  intros _ ->. by destruct a as [|[]|x].
Qed.

(** The fold of [std::max] from a number [m]: a number, either [m] or one
    of the elements, not below [m] and not below any element. *)
Lemma fold_std_max_spec (f : EquationSystem -> double) v :
  forall m, m <> DNaN ->
  let r := fold_left (fun maxNorm ii => std_max maxNorm (f ii)) v m in
  r <> DNaN /\
  (r = m \/ r ∈ map f v) /\
  double_lt r m = false /\
  (forall x, x ∈ map f v -> double_lt r x = false) /\
  ((exists x, x ∈ map f v /\ double_lt m x = true) -> r ∈ map f v).
Proof.
  induction v as [|ii v IH]; intros m Hm; simpl.
  - split_and!; auto using double_lt_irrefl.
    + intros x Hx. by apply elem_of_nil in Hx.
    + intros (x & Hx & _). by apply elem_of_nil in Hx.
  - destruct (IH (std_max m (f ii)) (std_max_not_NaN _ _ Hm))
      as (Hr & Hin & Hge & Hall & Hex).
    set (r := fold_left _ v _) in *. clearbody r.
    assert (Hrm : double_lt r m = false).
    { unfold std_max in Hge. destruct (double_lt m (f ii)) eqn:E; [|done].
      destruct (double_lt r m) eqn:E'; [|done].
      by rewrite (double_lt_trans _ _ _ E' E) in Hge. }
    assert (Hrx : double_lt r (f ii) = false).
    { unfold std_max in Hge. destruct (double_lt m (f ii)) eqn:E; [done|].
      by apply double_not_lt_trans with m. }
    split_and!; try done.
    + destruct Hin as [Hin|Hin]; [|right; by right].
      unfold std_max in Hin. destruct (double_lt m (f ii));
        [right; rewrite Hin; by left|by left].
    + intros x [->|Hx]%elem_of_cons; auto.
    + intros (x & Hx & Hlt). destruct Hin as [Hin|Hin]; [|by right].
      unfold std_max in Hin. destruct (double_lt m (f ii)) eqn:E.
      * rewrite Hin. by left.
      * exfalso. apply elem_of_cons in Hx as [->|Hx]; [congruence|].
        specialize (Hall x Hx). rewrite Hin in Hall. congruence.
Qed.


(** C8, as the code has it.  [EquationSystems::provide_system_norm]
    returns the largest, by [operator<], of the starting value [-1.0e16]
    and the scaled norms of all owned systems: the result is never NaN, is
    the starting value or one of the norms, and neither the starting value
    nor any norm is above it.  Whenever some owned system reports a norm
    above [-1.0e16] the result is the maximum of the scaled norms; for
    systems reporting 0.2, 0.9 and 0.05 it is 0.9. *)
Theorem provide_system_norm_is_max_with_start_value :
  (forall (provide_scaled_norm : EquationSystem -> double)
          (es : EquationSystems),
     let r := provide_system_norm provide_scaled_norm es in
     let norms := scaled_norms provide_scaled_norm es in
     r <> DNaN /\
     (r = minus_1e16 \/ r ∈ norms) /\
     double_lt r minus_1e16 = false /\
     (forall x, x ∈ norms -> double_lt r x = false) /\
     ((exists x, x ∈ norms /\ double_lt minus_1e16 x = true) ->
      is_maximum_of r norms)) /\
  provide_system_norm sample_norms three_systems = double_0_9 /\
  scaled_norms sample_norms three_systems =
    [double_0_2; double_0_9; double_0_05].
Proof.
  split; [|by vm_compute].
  intros f es r norms.
  destruct (fold_std_max_spec f (equationSystemVector_ es) minus_1e16)
    as (Hr & Hin & Hge & Hall & Hex); [done|].
  split_and!; try done.
  intros Hsome. split; [by apply Hex | exact Hall].
Qed.

(** C8 at three systems reporting 0.2, 0.9 and 0.05: the norm 0.2 is
    above the starting value, and the result is the maximum of the three
    norms. *)
Lemma provide_system_norm_is_max_with_start_value_witness :
  is_maximum_of (provide_system_norm sample_norms three_systems)
    (scaled_norms sample_norms three_systems).
Proof.
  apply (proj1 provide_system_norm_is_max_with_start_value sample_norms
           three_systems).
  exists double_0_2. split; [by left|reflexivity].
Defined.

(** C8 as stated fails: a collection that owns no system has no scaled
    norm, and [provide_system_norm] returns [-1.0e16]; and for one system
    whose scaled norm is [-2.0e16] the result is [-1.0e16], which that
    system did not report. *)
Lemma provide_system_norm_not_max_of_norms :
  (provide_system_norm sample_norms no_systems = minus_1e16 /\
   ~ is_maximum_of (provide_system_norm sample_norms no_systems)
       (scaled_norms sample_norms no_systems)) /\
  (provide_system_norm norm_minus_2e16 one_system = minus_1e16 /\
   scaled_norms norm_minus_2e16 one_system = [DFin (- (2 * 10 ^ 16))%Q] /\
   ~ is_maximum_of (provide_system_norm norm_minus_2e16 one_system)
       (scaled_norms norm_minus_2e16 one_system)).
Proof.
  split_and!.
  - vm_compute. reflexivity.
  - intros [Hin _]. vm_compute in Hin. by apply elem_of_nil in Hin.
  - vm_compute. reflexivity.
  - vm_compute. reflexivity.
  - intros [Hin _]. vm_compute in Hin.
    apply list_elem_of_singleton in Hin. discriminate Hin.
Qed.

(** ** Periodic boundary conditions *)

(** C7.  [EquationSystems::register_periodic_bc] with a master and a
    slave name that both resolve returns normally whatever the numbers of
    subsets of the two parts: a mismatch is only reported on the output
    stream.  The registration is forwarded to the realm, once, and no call
    is made on any equation system.  A master or a slave name that does
    not resolve is reported and is fatal. *)
Theorem register_periodic_bc_soft_validation :
  forall (es : EquationSystems) (targetNameMaster targetNameSlave : string)
         (periodicBCData : PeriodicBoundaryConditionData),
    let meta := meta_data (realm_ es) in
    let out := run (register_periodic_bc es targetNameMaster targetNameSlave
                      periodicBCData) in
    (forall master slave,
       get_part meta targetNameMaster = Some master ->
       get_part meta targetNameSlave = Some slave ->
       out.1 = Done tt /\
       out.2 =
         (if (length (subsets master) =? length (subsets slave))%nat then []
          else [naluOutputP0
                  "Mesh part subsets for master slave do not match in size"]) ++
         (if (1 <? length (subsets master))%nat
          then [naluOutputP0
                  "Surface has subsets active; please make sure that the topologies match"]
          else []) ++
         [Realm_register_periodic_bc master slave
            (searchTolerance_ (userData_ periodicBCData))
            (searchMethodName_ (userData_ periodicBCData))] /\
       realm_registrations out.2 =
         [Realm_register_periodic_bc master slave
            (searchTolerance_ (userData_ periodicBCData))
            (searchMethodName_ (userData_ periodicBCData))] /\
       omap equation_system_called out.2 = []) /\
    (get_part meta targetNameMaster = None ->
       out = (Thrown (runtime_error "EquationSystems::fatal_error()"),
              [naluOutputP0 (no_part_msg targetNameMaster)])) /\
    (is_Some (get_part meta targetNameMaster) ->
     get_part meta targetNameSlave = None ->
       out = (Thrown (runtime_error "EquationSystems::fatal_error()"),
              [naluOutputP0 (no_part_msg targetNameSlave)])).
Proof.
  intros es nameM nameS data meta out. unfold out, run, register_periodic_bc.
  fold meta. split_and!.
  - intros master slave -> ->. unfold when, bind, call, ret. simpl.
    destruct (length (subsets master) =? length (subsets slave))%nat,
             (1 <? length (subsets master))%nat; simpl; done.
  - by intros ->.
  - intros [master ->] ->. done.
Qed.

(** C7 at a sample mesh: "surface_1" has two subsets and "surface_2" one,
    and the registration goes through to the realm; an unknown slave name
    is fatal. *)
Lemma register_periodic_bc_soft_validation_witness :
  (let out := run (register_periodic_bc mesh_systems "surface_1" "surface_2"
                     sample_periodic) in
   out.1 = Done tt /\
   out.2 =
     [naluOutputP0 "Mesh part subsets for master slave do not match in size";
      naluOutputP0
        "Surface has subsets active; please make sure that the topologies match";
      Realm_register_periodic_bc surface_1 surface_2 (DFin (1 # 10000))
        "stk_kdtree"] /\
   realm_registrations out.2 =
     [Realm_register_periodic_bc surface_1 surface_2 (DFin (1 # 10000))
        "stk_kdtree"] /\
   omap equation_system_called out.2 = []) /\
  run (register_periodic_bc mesh_systems "surface_1" "nowhere"
         sample_periodic) =
    (Thrown (runtime_error "EquationSystems::fatal_error()"),
     [naluOutputP0 (no_part_msg "nowhere")]).
Proof.
  split.
  - exact (proj1 (register_periodic_bc_soft_validation mesh_systems
                    "surface_1" "surface_2" sample_periodic)
             surface_1 surface_2 eq_refl eq_refl).
  - exact (proj2 (proj2 (register_periodic_bc_soft_validation mesh_systems
                           "surface_1" "nowhere" sample_periodic))
             (ex_intro _ surface_1 eq_refl) eq_refl).
Defined.

(** ** Loops that fail *)

Lemma for_each_calls_Forall {A} (xs : list A) (body : A -> M unit)
    (f : A -> list Event) :
  Forall (fun x => forall tr, body x tr = (Done tt, tr ++ f x)) xs ->
  forall tr, for_each xs body tr = (Done tt, tr ++ flat_map f xs).
Proof.
  induction 1 as [|x xs Hx _ IH]; intros tr; simpl.
  - by rewrite app_nil_r.
  - rewrite (bind_Done _ _ _ _ _ (Hx tr)), IH. by rewrite app_assoc.
Qed.

Lemma for_each_app {A} (xs ys : list A) (body : A -> M unit) tr :
  for_each (xs ++ ys) body tr = (for_each xs body >> for_each ys body) tr.
Proof.
  revert tr. induction xs as [|x xs IH]; intros tr; simpl; [done|].
  unfold bind. destruct (body x tr) as [[[]| |] tr']; [|done|done].
  rewrite IH. reflexivity.
Qed.

(** The loop stops at the first element whose body throws: the calls of
    the elements before it have been made, those after it are not. *)
Lemma for_each_thrown {A} (good rest : list A) (bad : A) (body : A -> M unit)
    (f : A -> list Event) (e : Exception) (t : list Event) :
  Forall (fun x => forall tr, body x tr = (Done tt, tr ++ f x)) good ->
  (forall tr, body bad tr = (Thrown e, tr ++ t)) ->
  forall tr, for_each (good ++ bad :: rest) body tr =
             (Thrown e, tr ++ flat_map f good ++ t).
Proof.
  intros Hgood Hbad tr. rewrite for_each_app.
  rewrite (bind_Done _ _ _ _ _ (for_each_calls_Forall _ _ _ Hgood tr)).
  simpl. unfold bind. rewrite Hbad. by rewrite app_assoc.
Qed.

Lemma forward_bc_run es k part data tr :
  forward_bc es k part (part_topology part) data tr =
  (Done tt, tr ++ forward_calls es k data part).
Proof.
  unfold forward_bc, forward_calls.
  rewrite (bind_Done _ _ _ _ _ (call_run _ _)), for_each_call.
  by rewrite <- app_assoc.
Qed.

Lemma all_side_parts_Forall meta parts :
  all_side_parts meta parts = true <->
  Forall (fun p => is_side_part meta p = true) parts.
Proof.
  unfold all_side_parts. rewrite forallb_forall, Forall_forall.
  by setoid_rewrite list_elem_of_In.
Qed.

(** ** Boundary-condition registration *)

Lemma lenient_registration_unknown k es targetName data :
  get_part (meta_data (realm_ es)) targetName = None ->
  run (lenient_registration k es targetName data) =
  (Done tt, [naluOutputP0 (no_part_msg targetName)]).
Proof. unfold run, lenient_registration. by intros ->. Qed.

Lemma lenient_registration_known k es targetName data targetPart :
  get_part (meta_data (realm_ es)) targetName = Some targetPart ->
  run (lenient_registration k es targetName data) =
  (Done tt,
   flat_map (lenient_calls es k targetName (Some data)) (subsets targetPart)).
Proof.
  unfold run, lenient_registration. intros ->.
  rewrite (for_each_calls _ _ (lenient_calls es k targetName (Some data)));
    [done|].
  intros part tr. unfold lenient_calls.
  destruct (is_side_part _ part); simpl; [apply forward_bc_run | done].
Qed.

Lemma strict_registration_unknown k fatal es targetName data :
  get_part (meta_data (realm_ es)) targetName = None ->
  run (strict_registration k fatal es targetName data) =
  (Thrown (runtime_error fatal), [naluOutputP0 (no_part_msg targetName)]).
Proof. unfold run, strict_registration. by intros ->. Qed.

Lemma strict_body_good es k part data :
  is_side_part (meta_data (realm_ es)) part = true ->
  forall (alt : M unit) tr,
    (if negb (is_side_part (meta_data (realm_ es)) part) then alt
     else forward_bc es k part (part_topology part) data) tr =
    (Done tt, tr ++ forward_calls es k data part).
Proof. intros -> alt tr. apply forward_bc_run. Qed.

Lemma strict_registration_all_sides k fatal es targetName data targetPart :
  get_part (meta_data (realm_ es)) targetName = Some targetPart ->
  all_side_parts (meta_data (realm_ es)) (subsets targetPart) = true ->
  run (strict_registration k fatal es targetName data) =
  (Done tt, flat_map (forward_calls es k (Some data)) (subsets targetPart)).
Proof.
  unfold run, strict_registration. intros -> Hall%all_side_parts_Forall.
  rewrite (for_each_calls_Forall _ _ (forward_calls es k (Some data)));
    [done|].
  eapply Forall_impl; [exact Hall|]. intros part Hside tr.
  by apply strict_body_good.
Qed.

Lemma strict_registration_wrong_rank k fatal es targetName data targetPart
    good bad rest :
  get_part (meta_data (realm_ es)) targetName = Some targetPart ->
  subsets targetPart = good ++ bad :: rest ->
  all_side_parts (meta_data (realm_ es)) good = true ->
  is_side_part (meta_data (realm_ es)) bad = false ->
  run (strict_registration k fatal es targetName data) =
  (Thrown (runtime_error fatal),
   flat_map (forward_calls es k (Some data)) good ++
   [naluOutputP0 (not_a_face_msg targetName)]).
Proof.
  unfold run, strict_registration.
  intros -> -> Hall%all_side_parts_Forall Hbad.
  rewrite (for_each_thrown good rest bad _ (forward_calls es k (Some data))
             (runtime_error fatal)
             [naluOutputP0 (not_a_face_msg targetName)]); [done| |].
  - eapply Forall_impl; [exact Hall|]. intros part Hside tr.
    by apply strict_body_good.
  - intros tr. by rewrite Hbad.
Qed.

Lemma lenient_calls_all_sides es k targetName data parts :
  all_side_parts (meta_data (realm_ es)) parts = true ->
  flat_map (lenient_calls es k targetName data) parts =
  flat_map (forward_calls es k data) parts.
Proof.
  intros Hall%all_side_parts_Forall.
  induction Hall as [|part parts Hside _ IH]; [done|].
  simpl. unfold lenient_calls at 1. by rewrite Hside, IH.
Qed.

Lemma extract_part_vector_run meta names tr :
  extract_part_vector meta names tr =
  (Done (map (get_part meta) names), tr ++ missing_part_calls meta names).
Proof.
  revert tr. induction names as [|name names IH]; intros tr; simpl.
  - unfold ret. by rewrite app_nil_r.
  - unfold bind at 1, when.
    destruct (bool_decide (get_part meta name = None)); simpl.
    + unfold bind. rewrite IH. unfold ret. by rewrite <- app_assoc.
    + unfold bind, ret at 1. rewrite IH. done.
Qed.

Lemma missing_part_calls_resolved meta names parts :
  map (get_part meta) names = map Some parts ->
  missing_part_calls meta names = [].
Proof.
  revert parts. induction names as [|name names IH]; intros [|p parts];
    simpl; try done.
  intros [= -> Hrest]. rewrite bool_decide_eq_false_2 by done. simpl. eauto.
Qed.

(** With every current part resolved, the two nested loops of
    [register_non_conformal_bc] are one loop over all their subsets. *)
Lemma for_each_current_parts (parts : list Part) (inner : Part -> M unit) tr :
  for_each (map Some parts)
    (fun current => match current with
                    | None => null_dereference
                    | Some currentMeshPart =>
                        for_each (subsets currentMeshPart) inner
                    end) tr =
  for_each (flat_map subsets parts) inner tr.
Proof.
  revert tr. induction parts as [|p parts IH]; intros tr; simpl; [done|].
  rewrite for_each_app. unfold bind.
  destruct (for_each (subsets p) inner tr) as [[[]| |] tr'];
    [apply IH|done|done].
Qed.

Lemma register_non_conformal_bc_resolved es data currentParts :
  map (get_part (meta_data (realm_ es))) (currentPartNameVec_ data) =
    map Some currentParts ->
  run (register_non_conformal_bc es data) =
  for_each (flat_map subsets currentParts)
    (fun part =>
       if negb (is_side_part (meta_data (realm_ es)) part)
       then call (naluOutputP0 (not_a_face_msg (part_name part))) >>
            throw (runtime_error "NonConformal::fatal_error()")
       else forward_bc es non_conformal_bc part (part_topology part) None)
    (missing_part_calls (meta_data (realm_ es)) (opposingPartNameVec_ data) ++
     [Realm_setup_non_conformal_bc (map Some currentParts)
        (map (get_part (meta_data (realm_ es))) (opposingPartNameVec_ data))
        data]).
Proof.
  intros Hcur. unfold run, register_non_conformal_bc.
  rewrite (bind_Done _ _ _ _ _ (extract_part_vector_run _ _ _)).
  rewrite (bind_Done _ _ _ _ _ (extract_part_vector_run _ _ _)).
  rewrite (missing_part_calls_resolved _ _ _ Hcur), Hcur. simpl.
  rewrite (bind_Done _ _ _ _ _ (call_run _ _)).
  apply for_each_current_parts.
Qed.

(** X11.  What the six registrations of the family do.  Of the
    registrations of one named part,
    [register_symmetry_bc] and [register_abltop_bc] report a name that
    does not resolve and throw, and report the first subset of the
    resolved part that has no side rank and throw, after the subsets
    before it have been forwarded; [register_wall_bc], [register_inflow_bc]
    and [register_open_bc] only report the name that does not resolve, or
    the subset without side rank, and return normally, the other subsets
    forwarded.  [register_non_conformal_bc], with its current part names
    resolved, reports the first subset of a current part without side rank
    and throws.  In all six, every subset with side rank that is reached is
    forwarded with its topology to the realm first and then to every owned
    equation system in registration order. *)
Theorem register_bc_family_as_coded :
  (forall k reg (es : EquationSystems) (targetName : string)
          (data : BoundaryConditionData),
     register_bc k = Some reg ->
     let meta := meta_data (realm_ es) in
     let out := run (reg es targetName data) in
     (get_part meta targetName = None ->
        out.2 = [naluOutputP0 (no_part_msg targetName)] /\
        out.1 = match fatal_error_of k with
                | Some fatal => Thrown (runtime_error fatal)
                | None => Done tt
                end) /\
     (forall targetPart,
        get_part meta targetName = Some targetPart ->
        (all_side_parts meta (subsets targetPart) = true ->
           out = (Done tt, flat_map (forward_calls es k (Some data))
                             (subsets targetPart))) /\
        (forall good bad rest,
           subsets targetPart = good ++ bad :: rest ->
           all_side_parts meta good = true ->
           is_side_part meta bad = false ->
           match fatal_error_of k with
           | Some fatal =>
               out = (Thrown (runtime_error fatal),
                      flat_map (forward_calls es k (Some data)) good ++
                      [naluOutputP0 (not_a_face_msg targetName)])
           | None =>
               out = (Done tt,
                      flat_map (forward_calls es k (Some data)) good ++
                      [naluOutputP0 (not_a_face_msg targetName)] ++
                      flat_map (lenient_calls es k targetName (Some data)) rest)
           end))) /\
  (forall (es : EquationSystems) (data : NonConformalBoundaryConditionData)
          (currentParts : list Part),
     let meta := meta_data (realm_ es) in
     let out := run (register_non_conformal_bc es data) in
     let setup :=
       missing_part_calls meta (opposingPartNameVec_ data) ++
       [Realm_setup_non_conformal_bc (map Some currentParts)
          (map (get_part meta) (opposingPartNameVec_ data)) data] in
     map (get_part meta) (currentPartNameVec_ data) = map Some currentParts ->
     (all_side_parts meta (flat_map subsets currentParts) = true ->
        out = (Done tt,
               setup ++ flat_map (forward_calls es non_conformal_bc None)
                          (flat_map subsets currentParts))) /\
     (forall good bad rest,
        flat_map subsets currentParts = good ++ bad :: rest ->
        all_side_parts meta good = true ->
        is_side_part meta bad = false ->
        out = (Thrown (runtime_error "NonConformal::fatal_error()"),
               setup ++ flat_map (forward_calls es non_conformal_bc None) good ++
               [naluOutputP0 (not_a_face_msg (part_name bad))]))).
Proof.
  split.
  - intros k reg es targetName data Hreg meta out.
    assert (Hshape :
      (exists fatal, fatal_error_of k = Some fatal /\
         reg es targetName data = strict_registration k fatal es targetName data)
      \/ (fatal_error_of k = None /\
          reg es targetName data = lenient_registration k es targetName data)).
    { destruct k; simplify_eq/=; eauto. }
    unfold out. clear out.
    destruct Hshape as [(fatal & -> & ->)|[-> ->]].
    + split.
      * intros Hnone. by rewrite strict_registration_unknown.
      * intros targetPart Hpart. split.
        -- by apply strict_registration_all_sides.
        -- intros good bad rest. by apply strict_registration_wrong_rank.
    + split.
      * intros Hnone. by rewrite lenient_registration_unknown.
      * intros targetPart Hpart.
        rewrite (lenient_registration_known _ _ _ _ _ Hpart). split.
        -- intros Hall. by rewrite lenient_calls_all_sides.
        -- intros good bad rest -> Hgood Hbad.
           rewrite flat_map_app, (lenient_calls_all_sides _ _ _ _ _ Hgood).
           simpl. unfold lenient_calls at 1. fold meta. by rewrite Hbad.
  - intros es data currentParts meta out setup Hcur. unfold out.
    rewrite (register_non_conformal_bc_resolved _ _ _ Hcur). fold meta setup.
    split.
    + intros Hall%all_side_parts_Forall.
      apply (for_each_calls_Forall _ _ (forward_calls es non_conformal_bc None)).
      eapply Forall_impl; [exact Hall|]. intros part Hside tr.
      by apply strict_body_good.
    + intros good bad rest -> Hall%all_side_parts_Forall Hbad.
      rewrite (for_each_thrown good rest bad _
                 (forward_calls es non_conformal_bc None)
                 (runtime_error "NonConformal::fatal_error()")
                 [naluOutputP0 (not_a_face_msg (part_name bad))]); [done| |].
      * eapply Forall_impl; [exact Hall|]. intros part Hside tr.
        by apply strict_body_good.
      * intros tr. fold meta. by rewrite Hbad.
Qed.

(** The family at the sample mesh: an unknown name and a subset that is an
    element block are fatal for symmetry; a surface of side subsets is forwarded,
    realm first; the non-conformal registration throws at the element
    block of the second current part. *)
Lemma register_bc_family_as_coded_witness :
  run (register_symmetry_bc mesh_systems "nowhere" sample_bc) =
    (Thrown (runtime_error "Symmetry::fatal_error()"),
     [naluOutputP0 (no_part_msg "nowhere")]) /\
  run (register_abltop_bc mesh_systems "surface_2" sample_bc) =
    (Done tt,
     [Realm_register_bc abltop_bc (quad_side "surface_2_quad4") "QUADRILATERAL_4";
      Eq_register_bc (sample_system 0 0) abltop_bc (quad_side "surface_2_quad4")
        "QUADRILATERAL_4" (Some sample_bc);
      Eq_register_bc (sample_system 1 2) abltop_bc (quad_side "surface_2_quad4")
        "QUADRILATERAL_4" (Some sample_bc)]) /\
  run (register_symmetry_bc mesh_systems "mixed_1" sample_bc) =
    (Thrown (runtime_error "Symmetry::fatal_error()"),
     forward_calls mesh_systems symmetry_bc (Some sample_bc)
       (quad_side "mixed_1_quad4") ++
     [naluOutputP0 (not_a_face_msg "mixed_1")]) /\
  run (register_non_conformal_bc mesh_systems mixed_non_conformal) =
    (Thrown (runtime_error "NonConformal::fatal_error()"),
     [Realm_setup_non_conformal_bc [Some surface_2; Some mixed_1]
        [Some surface_1] mixed_non_conformal] ++
     forward_calls mesh_systems non_conformal_bc None
       (quad_side "surface_2_quad4") ++
     forward_calls mesh_systems non_conformal_bc None
       (quad_side "mixed_1_quad4") ++
     [naluOutputP0 (not_a_face_msg "mixed_1_hex8")]).
Proof.
  pose proof register_bc_family_as_coded as [Hone Hnc].
  split_and!.
  - pose proof (Hone symmetry_bc register_symmetry_bc mesh_systems "nowhere"
                  sample_bc eq_refl) as [Hunknown _].
    destruct (Hunknown eq_refl) as [Htr Hout].
    simpl in Htr, Hout.
    destruct (run (register_symmetry_bc mesh_systems "nowhere" sample_bc)).
    simpl in *. by subst.
  - pose proof (Hone abltop_bc register_abltop_bc mesh_systems "surface_2"
                  sample_bc eq_refl) as [_ Hknown].
    destruct (Hknown surface_2 eq_refl) as [Hall _].
    exact (Hall eq_refl).
  - pose proof (Hone symmetry_bc register_symmetry_bc mesh_systems "mixed_1"
                  sample_bc eq_refl) as [_ Hknown].
    destruct (Hknown mixed_1 eq_refl) as [_ Hbad].
    exact (Hbad [quad_side "mixed_1_quad4"] (hex_block "mixed_1_hex8")
             [quad_side "mixed_1_quad4_b"] eq_refl eq_refl eq_refl).
  - destruct (Hnc mesh_systems mixed_non_conformal [surface_2; mixed_1]
                eq_refl) as [_ Hbad].
    exact (Hbad [quad_side "surface_2_quad4"; quad_side "mixed_1_quad4"]
             (hex_block "mixed_1_hex8") [quad_side "mixed_1_quad4_b"]
             eq_refl eq_refl eq_refl).
Defined.

(** C3 at [register_wall_bc]: where [register_symmetry_bc] and
    [register_abltop_bc] throw, [register_wall_bc] only reports.  An
    unknown part name is written to the output stream and the call returns
    normally; a subset without side rank is written to the output stream
    and the call goes on to forward the subsets after it. *)
Lemma register_wall_bc_unknown_part_not_fatal :
  register_bc wall_bc = Some register_wall_bc /\
  get_part (meta_data (realm_ mesh_systems)) "nowhere" = None /\
  run (register_wall_bc mesh_systems "nowhere" sample_bc) =
    (Done tt, [naluOutputP0 (no_part_msg "nowhere")]) /\
  get_part (meta_data (realm_ mesh_systems)) "mixed_1" = Some mixed_1 /\
  is_side_part (meta_data (realm_ mesh_systems)) (hex_block "mixed_1_hex8")
    = false /\
  run (register_wall_bc mesh_systems "mixed_1" sample_bc) =
    (Done tt,
     forward_calls mesh_systems wall_bc (Some sample_bc)
       (quad_side "mixed_1_quad4") ++
     [naluOutputP0 (not_a_face_msg "mixed_1")] ++
     forward_calls mesh_systems wall_bc (Some sample_bc)
       (quad_side "mixed_1_quad4_b")).
Proof. by vm_compute. Qed.

(** ** Configuration load *)

Section LoadProofs.

Variable NALU_HAS_MATRIXFREE : bool.
Variable naluEnv : NaluEnv.
Variable constructed :
  EqSysCtor -> EquationSystems -> EquationSystem * list (option EquationSystem).
Variable EquationSystem_load :
  EquationSystem -> EqSysNode -> Outcome EquationSystem.

Local Abbreviation select_here :=
  (select_equation_system NALU_HAS_MATRIXFREE naluEnv).
Local Abbreviation load_system_here :=
  (load_system NALU_HAS_MATRIXFREE naluEnv constructed EquationSystem_load).
Local Abbreviation load_systems_here :=
  (load_systems NALU_HAS_MATRIXFREE naluEnv constructed EquationSystem_load).
Local Abbreviation load_here :=
  (load NALU_HAS_MATRIXFREE naluEnv constructed EquationSystem_load).

Lemma select_unrecognized realm y_system tr :
  names_recognized_kind y_system = false ->
  select_here realm y_system tr =
  (Thrown unknown_equation_system_type, tr ++ unknown_kind_report naluEnv).
Proof.
  unfold names_recognized_kind, recognized_kinds. simpl.
  rewrite !orb_false_iff, !bool_decide_eq_false, <- !eq_None_not_Some.
  intros (H1 & H2 & H3 & H4 & H5 & H6 & H7 & H8 & H9 & _).
  unfold select_equation_system, expect_map_optional.
  rewrite H1, H2, H3, H4, H5, H6, H7, H8, H9.
  unfold unknown_kind_report, when, bind, call, throw.
  destruct (parallel_rank naluEnv =? 0)%Z; simpl; [done|].
  by rewrite app_nil_r.
Qed.

Lemma load_system_unrecognized y_system es tr :
  names_recognized_kind y_system = false ->
  load_system_here y_system es tr =
  (Thrown unknown_equation_system_type, tr ++ unknown_kind_report naluEnv).
Proof.
  intros Hno. unfold load_system, bind.
  by rewrite select_unrecognized.
Qed.

Lemma load_systems_app xs ys es tr :
  load_systems_here (xs ++ ys) es tr =
  match load_systems_here xs es tr with
  | (Done es', tr') => load_systems_here ys es' tr'
  | other => other
  end.
Proof.
  revert es tr. induction xs as [|x xs IH]; intros es tr; simpl; [done|].
  unfold bind. destruct (load_system_here x es tr) as [[es'| |] tr'];
    [apply IH|done|done].
Qed.


Lemma load_run y es :
  run (load_here y es) =
  load_systems_here (y_systems y) (globals_loaded y es)
    (map get_if_present (global_read_keys es)).
Proof.
  unfold run, load, load_globals, NaluParsing_get_if_present, globals_loaded,
    global_read_keys, bind, call, ret.
  destruct (query_for_overset (realm_ es)); simpl; [|done].
  by destruct (y_decoupled_overset_solve y), (y_num_overset_correctors y).
Qed.

(** C5.  When a declaration of the [systems] sequence names none of the
    recognised kinds, [EquationSystems::load] does not complete: the run
    is the one of the input cut after that declaration, so no later
    declaration is processed, and when the declarations before it load,
    it ends by throwing "unknown equation system type" right after their
    calls (and the report on rank 0). *)
Theorem load_unknown_kind_aborts :
  forall (y : EquationSystemsNode) (es : EquationSystems)
         (before after : list SystemNode) (unknown : SystemNode),
    y_systems y = before ++ unknown :: after ->
    names_recognized_kind unknown = false ->
    let out := run (load_here y es) in
    is_Done out.1 = false /\
    out = run (load_here (with_systems y (before ++ [unknown])) es) /\
    (forall es' tr',
       run (load_here (with_systems y before) es) = (Done es', tr') ->
       out = (Thrown unknown_equation_system_type,
              tr' ++ unknown_kind_report naluEnv)).
Proof.
  intros y es before after unknown Hsys Hunknown out.
  unfold out. rewrite !load_run, Hsys. simpl.
  change (globals_loaded (with_systems y (before ++ [unknown])) es)
    with (globals_loaded y es).
  change (globals_loaded (with_systems y before) es)
    with (globals_loaded y es).
  rewrite !load_systems_app. simpl. unfold bind.
  destruct (load_systems_here before (globals_loaded y es)
              (map get_if_present (global_read_keys es)))
    as [[es1| |] tr1].
  - rewrite (load_system_unrecognized _ _ _ Hunknown).
    split_and!; [done|done|]. by intros es' tr' [= <- <-].
  - split_and!; done.
  - split_and!; done.
Qed.

(** The selection makes no call other than diagnostics and
    constructions. *)
Lemma select_calls realm y_system tr :
  exists added,
    (select_here realm y_system tr).2 = tr ++ added /\
    global_reads added = [] /\ own_loads added = [].
Proof.
  unfold select_equation_system, expect_map_optional, debug_output, new_,
    when, bind, call, ret, throw.
  repeat (case_match; simplify_eq/=);
    first [ by exists []; rewrite app_nil_r
          | rewrite <- ?app_assoc; eexists; split; [reflexivity|done] ].
Qed.

(** One declaration: the system enters its own [load] with the global
    settings assigned, and the collection leaves the iteration with the
    vector the constructor left, seen with the object as its own [load]
    made it. *)
Lemma load_system_calls y_system es tr :
  exists added,
    (load_system_here y_system es tr).2 = tr ++ added /\
    global_reads added = [] /\
    ((own_loads added = [] /\ is_Done (load_system_here y_system es tr).1 = false)
     \/
     exists c s y_eqsys,
       s = set_overset_defaults (decoupledOversetGlobalFlag_ es)
             (numOversetItersDefault_ es) (constructed c es).1 /\
       own_loads added = [(s, y_eqsys)] /\
       forall es', (load_system_here y_system es tr).1 = Done es' ->
         exists s', EquationSystem_load s y_eqsys = Done s' /\
           es' = set_equationSystemVector
                   (vector_through s' (constructed c es).2) es).
Proof.
  destruct (select_calls (realm_ es) y_system tr)
    as (added & Htr & Hreads & Hloads).
  unfold load_system, bind.
  destruct (select_here (realm_ es) y_system tr)
    as [[[[c|] y_eqsys]|e|] tr1]; simpl in Htr; subst tr1.
  - set (s := set_overset_defaults _ _ _).
    exists (added ++ [Eq_load s y_eqsys]).
    unfold call. simpl.
    assert (Hs : own_loads (added ++ [Eq_load s y_eqsys]) = [(s, y_eqsys)]).
    { unfold own_loads in *. by rewrite omap_app, Hloads. }
    assert (Hr : global_reads (added ++ [Eq_load s y_eqsys]) = []).
    { unfold global_reads in *. by rewrite omap_app, Hreads. }
    destruct (EquationSystem_load s y_eqsys) as [s'| |] eqn:Hload; simpl;
      (split; [by rewrite app_assoc|]); (split; [done|]);
      right; exists c, s, y_eqsys; split_and!; try done.
    intros es' [= <-]. eauto.
  - exists added. simpl. split_and!; auto.
  - exists added. simpl. split_and!; auto.
  - exists added. simpl. split_and!; auto.
Qed.

Lemma load_systems_calls y_systems :
  forall es tr,
  exists added,
    (load_systems_here y_systems es tr).2 = tr ++ added /\
    global_reads added = [] /\
    Forall (fun sn : EquationSystem * EqSysNode =>
              decoupledOverset_ sn.1 = decoupledOversetGlobalFlag_ es /\
              numOversetIters_ sn.1 = numOversetItersDefault_ es)
      (own_loads added) /\
    forall es', (load_systems_here y_systems es tr).1 = Done es' ->
      exists vector, es' = set_equationSystemVector vector es.
Proof.
  induction y_systems as [|y_system rest IH]; intros es tr; simpl.
  - exists []. rewrite app_nil_r. split_and!; try done.
    intros es' [= <-]. exists (equationSystemVector_ es). by destruct es.
  - destruct (load_system_calls y_system es tr)
      as (added1 & Htr1 & Hreads1 & Hcases).
    unfold bind.
    destruct (load_system_here y_system es tr) as [[es1| |] tr1] eqn:Hone;
      simpl in *; subst tr1.
    + destruct Hcases
        as [[_ [=]]|(c & s & y_eqsys & -> & Hloads1 & Hdone)].
      destruct (Hdone es1 eq_refl) as (s' & Hs' & ->).
      destruct (IH (set_equationSystemVector
                      (vector_through s' (constructed c es).2) es)
                   (tr ++ added1))
        as (added2 & Htr2 & Hreads2 & Hall2 & Hdone2).
      exists (added1 ++ added2).
      rewrite Htr2. split; [by rewrite app_assoc|].
      unfold global_reads, own_loads in *. rewrite !omap_app.
      rewrite Hreads1, Hreads2, Hloads1. split; [done|]. split.
      * constructor; [done|]. exact Hall2.
      * intros es' Hes'. destruct (Hdone2 es' Hes') as (vector & ->).
        by exists vector.
    + exists added1. split_and!; try done.
      destruct Hcases as [[-> _]|(c & s & y_eqsys & -> & -> & _)];
        repeat constructor; done.
    + exists added1. split_and!; try done.
      destruct Hcases as [[-> _]|(c & s & y_eqsys & -> & -> & _)];
        repeat constructor; done.
Qed.

(** With constructors that push the new system and nothing else, the
    collection gains, behind the systems it held, the systems as their own
    [load] left them. *)
Lemma load_systems_pushed y_systems :
  (forall c es,
     (constructed c es).2 = map Some (equationSystemVector_ es) ++ [None]) ->
  forall es tr es' tr',
    load_systems_here y_systems es tr = (Done es', tr') ->
    exists added loaded,
      tr' = tr ++ added /\
      map Done loaded =
        map (fun sn => EquationSystem_load sn.1 sn.2) (own_loads added) /\
      length loaded = length y_systems /\
      es' = set_equationSystemVector (equationSystemVector_ es ++ loaded) es.
Proof.
  intros Hpush.
  induction y_systems as [|y_system rest IH]; intros es tr es' tr'; simpl.
  - intros [= <- <-]. exists [], []. rewrite !app_nil_r.
    split_and!; try done. by destruct es.
  - destruct (load_system_calls y_system es tr)
      as (added1 & Htr1 & _ & Hcases).
    unfold bind.
    destruct (load_system_here y_system es tr) as [[es1| |] tr1] eqn:Hone;
      [|done|done].
    simpl in *. subst tr1. intros Hrest.
    destruct Hcases
      as [[_ [=]]|(c & s & y_eqsys & -> & Hloads1 & Hdone)].
    destruct (Hdone es1 eq_refl) as (s' & Hs' & ->).
    destruct (IH _ _ _ _ Hrest) as (added2 & loaded & -> & Hmap & Hlen & ->).
    exists (added1 ++ added2), (s' :: loaded).
    split_and!.
    + by rewrite app_assoc.
    + unfold own_loads in *. rewrite omap_app, Hloads1. simpl.
      by rewrite Hs', Hmap.
    + simpl. by rewrite Hlen.
    + unfold set_equationSystemVector. simpl. f_equal.
      rewrite Hpush. unfold vector_through.
      rewrite map_app, map_map. simpl. rewrite map_id.
      by rewrite <- app_assoc.
Qed.

End LoadProofs.



(** C5 at a sample input: the declaration "Magnetism" follows a wall
    distance system and precedes an enthalpy system, which is never
    constructed. *)
Lemma load_unknown_kind_aborts_witness :
  let out := run (load false sample_env sample_constructed
                    override_from_own_block
                    (sample_input
                       [wall_distance_decl; unknown_decl; enthalpy_decl])
                    empty_systems) in
  is_Done out.1 = false /\
  out = run (load false sample_env sample_constructed override_from_own_block
               (with_systems
                  (sample_input
                     [wall_distance_decl; unknown_decl; enthalpy_decl])
                  ([wall_distance_decl] ++ [unknown_decl]))
               empty_systems) /\
  out.1 = Thrown unknown_equation_system_type /\
  omap (fun e => match e with new_EquationSystem c => Some c | _ => None end)
    out.2 = [WallDistEquationSystem].
Proof.
  pose proof (load_unknown_kind_aborts false sample_env sample_constructed
                override_from_own_block
                (sample_input [wall_distance_decl; unknown_decl; enthalpy_decl])
                empty_systems [wall_distance_decl] [enthalpy_decl] unknown_decl
                eq_refl eq_refl) as (Hnot & Hcut & Hthrow).
  split_and!; [exact Hnot|exact Hcut| |].
  - erewrite Hthrow; [reflexivity|]. vm_compute. reflexivity.
  - erewrite Hthrow; [|vm_compute; reflexivity]. vm_compute. reflexivity.
Defined.

(** ** FieldManager *)

Section RegistryProofs.

Variable registry : Z -> Z -> gmap string FieldDef.

(** A successful registration leaves the field on the mesh database. *)
Lemma register_field_registers fm name parts numStates numComponents
    meta meta' :
  register_field registry fm name parts numStates numComponents meta
    = Done meta' ->
  exists def,
    registry (numDimensions_ fm) (numStates_ fm) !! name = Some def /\
    is_Some (get_field meta' (def_rank def) name).
Proof.
  unfold register_field, FieldRegistry_query, get_field.
  destruct (registry _ _ !! name) as [def|]; [|done].
  intros H. exists def. split; [done|].
  destruct (meta_fields meta !! (def_rank def, name));
    [case_bool_decide; [|done]|]; simplify_eq/=;
    rewrite lookup_insert_eq; eauto.
Qed.

(** Fields are never removed. *)
Lemma register_field_keeps fm name parts numStates numComponents meta meta'
    rank name' :
  register_field registry fm name parts numStates numComponents meta
    = Done meta' ->
  is_Some (get_field meta rank name') ->
  is_Some (get_field meta' rank name').
Proof.
  unfold register_field, FieldRegistry_query, get_field.
  destruct (registry _ _ !! name) as [def|]; [|done].
  intros H Hsome.
  destruct (meta_fields meta !! (def_rank def, name));
    [case_bool_decide; [|done]|]; simplify_eq/=;
    rewrite lookup_insert_is_Some;
    (destruct (decide ((def_rank def, name) = (rank, name')));
       [by left | by right]).
Qed.

Lemma registered_later_keeps meta1 meta2 rank name :
  registered_later registry meta1 meta2 ->
  is_Some (get_field meta1 rank name) ->
  is_Some (get_field meta2 rank name).
Proof.
  induction 1 as [|meta1 meta2 meta3 fm n ps ns nc _ IH Hreg]; [done|].
  intros Hsome. eapply register_field_keeps; eauto.
Qed.

(** C4.  For a FieldManager with a given (dimension, numStates) key,
    [field_exists(name)] fails with UnknownField for a name that has no
    Registry entry under that key, returns false for a name that is in
    the Registry and not registered on the mesh database, and returns
    true once [register_field] has succeeded for the name, whatever is
    registered afterwards. *)
Theorem field_exists_unknown_false_true :
  forall (fm : FieldManager) (meta : MetaData) (name : string),
    (registry (numDimensions_ fm) (numStates_ fm) !! name = None ->
       field_exists registry fm meta name = Thrown (UnknownField name)) /\
    (forall def,
       registry (numDimensions_ fm) (numStates_ fm) !! name = Some def ->
       get_field meta (def_rank def) name = None ->
       field_exists registry fm meta name = Done false) /\
    (forall parts numStates numComponents meta1 meta2,
       register_field registry fm name parts numStates numComponents meta
         = Done meta1 ->
       registered_later registry meta1 meta2 ->
       field_exists registry fm meta2 name = Done true).
Proof.
  intros fm meta name. unfold field_exists, FieldRegistry_query. split_and!.
  - by intros ->.
  - intros def -> ->. done.
  - intros parts ns nc meta1 meta2 Hreg Hlater.
    destruct (register_field_registers _ _ _ _ _ _ _ Hreg)
      as (def & -> & Hsome).
    f_equal. apply bool_decide_eq_true.
    by apply (registered_later_keeps meta1 meta2).
Qed.


End RegistryProofs.

(** C4 at the sample catalog, for a manager with two states on a
    three-dimensional mesh database: "acrazyqoi" is unknown, "velocity" is
    known and not yet registered, and it exists after its registration
    on the universal part and a later registration of "temperature". *)
Lemma field_exists_unknown_false_true_witness :
  field_exists sample_registry sample_manager sample_meta "acrazyqoi" =
    Thrown (UnknownField "acrazyqoi") /\
  field_exists sample_registry sample_manager sample_meta "velocity" =
    Done false /\
  field_exists sample_registry sample_manager meta_with_both "velocity" =
    Done true.
Proof.
  pose proof (field_exists_unknown_false_true sample_registry sample_manager
                sample_meta "acrazyqoi") as (Hunknown & _ & _).
  pose proof (field_exists_unknown_false_true sample_registry sample_manager
                sample_meta "velocity") as (_ & Hfalse & Htrue).
  split_and!.
  - exact (Hunknown eq_refl).
  - exact (Hfalse _ eq_refl eq_refl).
  - apply (Htrue ["universal"] 0%Z 0%Z meta_with_velocity meta_with_both).
    + vm_compute. reflexivity.
    + apply (registered_later_step sample_registry meta_with_velocity
               meta_with_velocity meta_with_both sample_manager "temperature"
               ["block_1"] 0%Z 0%Z).
      * apply registered_later_refl.
      * vm_compute. reflexivity.
Defined.



(** The test nameIsEnoughInfoToRegisterAField, on the model: "velocity"
    does not exist before its registration; [register_field<T>] returns the
    vector field pointer and leaves the field on the mesh database;
    afterwards the field exists and [get_field_ptr] returns the same
    pointer. *)
Example nameIsEnoughInfoToRegisterAField :
  field_exists sample_registry sample_manager sample_meta "velocity" =
    Done false /\
  register_field_T sample_registry VectorFieldType sample_manager "velocity"
    ["universal"] StateNone sample_meta =
    Done (Some {| ptr_FieldType := VectorFieldType; ptr_rank := NODE_RANK;
                  ptr_name := "velocity"; ptr_state := StateNone |},
          meta_with_velocity) /\
  field_exists sample_registry sample_manager meta_with_velocity "velocity" =
    Done true /\
  get_field_ptr sample_registry VectorFieldType sample_manager
    meta_with_velocity "velocity" StateNone =
    Done (Some {| ptr_FieldType := VectorFieldType; ptr_rank := NODE_RANK;
                  ptr_name := "velocity"; ptr_state := StateNone |}).
Proof. split_and!; vm_compute; reflexivity. Qed.

(** The test fieldStateCanBeSelected compares the pointers to the states
    of a field with the null pointer.  For a field with two states the
    pointers to its two states are not null and differ, and the pointer to
    a third state is null. *)
Example fieldStateCanBeSelected :
  get_field_ptr sample_registry VectorFieldType sample_manager
    meta_with_velocity "velocity" StateNP1 =
    Done (Some {| ptr_FieldType := VectorFieldType; ptr_rank := NODE_RANK;
                  ptr_name := "velocity"; ptr_state := StateNP1 |}) /\
  get_field_ptr sample_registry VectorFieldType sample_manager
    meta_with_velocity "velocity" StateN =
    Done (Some {| ptr_FieldType := VectorFieldType; ptr_rank := NODE_RANK;
                  ptr_name := "velocity"; ptr_state := StateN |}) /\
  get_field_ptr sample_registry VectorFieldType sample_manager
    meta_with_velocity "velocity" StateNM1 = Done None.
Proof. split_and!; vm_compute; reflexivity. Qed.


(** * Further functions: proofs *)

Lemma forallb_false_split {A} (f : A -> bool) (l : list A) :
  forallb f l = false ->
  exists good bad rest,
    l = good ++ bad :: rest /\ forallb f good = true /\ f bad = false.
Proof.
  induction l as [|x l IH]; simpl; [done|].
  destruct (f x) eqn:Hx; simpl.
  - intros (good & bad & rest & -> & Hgood & Hbad)%IH.
    exists (x :: good), bad, rest. simpl. by rewrite Hx, Hgood.
  - intros _. by exists [], x, l.
Qed.

(** ** Part vectors *)

Lemma create_part_vec_loop_accepted meta element_rank names :
  forallb (part_name_accepted meta element_rank) names = true ->
  forall part_vec tr,
    create_part_vec_loop meta names element_rank part_vec tr =
    (Done (part_vec ++ resolved_parts meta names), tr).
Proof.
  induction names as [|name names IH]; simpl; intros Hall part_vec tr.
  - unfold ret. by rewrite app_nil_r.
  - apply andb_true_iff in Hall as [Hname Hall].
    unfold part_name_accepted in Hname. unfold resolved_parts. simpl.
    destruct (get_part meta name) as [part|]; [|done]. simpl.
    apply negb_true_iff in Hname. rewrite Hname.
    rewrite (IH Hall). by rewrite <- app_assoc.
Qed.

Lemma create_part_vec_loop_rejected meta element_rank name rest :
  part_name_accepted meta element_rank name = false ->
  forall part_vec tr,
    create_part_vec_loop meta (name :: rest) element_rank part_vec tr =
    (Thrown (part_name_error meta name), tr ++ part_name_report meta name).
Proof.
  unfold part_name_accepted, part_name_error, part_name_report. simpl.
  intros Hname part_vec tr.
  destruct (get_part meta name) as [part|]; [|done].
  apply negb_false_iff in Hname. rewrite Hname. unfold throw.
  by rewrite app_nil_r.
Qed.

Lemma create_part_vec_loop_app meta element_rank good rest :
  forallb (part_name_accepted meta element_rank) good = true ->
  forall part_vec tr,
    create_part_vec_loop meta (good ++ rest) element_rank part_vec tr =
    create_part_vec_loop meta rest element_rank
      (part_vec ++ resolved_parts meta good) tr.
Proof.
  induction good as [|name good IH]; simpl; intros Hall part_vec tr.
  - by rewrite app_nil_r.
  - apply andb_true_iff in Hall as [Hname Hall].
    unfold part_name_accepted in Hname. unfold resolved_parts. simpl.
    destruct (get_part meta name) as [part|]; [|done]. simpl.
    apply negb_true_iff in Hname. rewrite Hname.
    rewrite (IH Hall). by rewrite <- app_assoc.
Qed.

Lemma resolved_parts_accepted meta element_rank names :
  forallb (part_name_accepted meta element_rank) names = true ->
  map (get_part meta) names = map Some (resolved_parts meta names).
Proof.
  induction names as [|name names IH]; simpl; [done|].
  intros [Hname Hall]%andb_true_iff. unfold resolved_parts. simpl.
  unfold part_name_accepted in Hname.
  destruct (get_part meta name) as [part|]; [|done]. simpl.
  f_equal. by apply IH.
Qed.

Lemma create_part_vec_accepted meta element_rank names :
  forallb (part_name_accepted meta element_rank) names = true ->
  run (create_part_vec meta names element_rank) =
  (Done (resolved_parts meta names), []).
Proof.
  intros Hall. unfold run, create_part_vec.
  by rewrite (create_part_vec_loop_accepted _ _ _ Hall).
Qed.

Lemma create_part_vec_rejected meta element_rank good bad rest :
  forallb (part_name_accepted meta element_rank) good = true ->
  part_name_accepted meta element_rank bad = false ->
  run (create_part_vec meta (good ++ bad :: rest) element_rank) =
  (Thrown (part_name_error meta bad), part_name_report meta bad).
Proof.
  intros Hgood Hbad. unfold run, create_part_vec.
  rewrite (create_part_vec_loop_app _ _ _ _ Hgood).
  by rewrite (create_part_vec_loop_rejected _ _ _ _ Hbad).
Qed.

(** X2.  [create_part_vec] returns a part vector exactly when every name
    resolves (to a part of element rank, where that is asked for): the
    vector then holds the parts of the names, in their order, and nothing
    was written.  Otherwise it throws at the first name that is not
    accepted, whatever follows it: "no part name found", after "Trouble
    with part" was written, for an unknown name, and "parts need to be
    elements" for a part of another rank. *)
Theorem create_part_vec_all_or_first_error :
  forall (meta : MetaData) (names : list string) (element_rank : bool),
    let out := run (create_part_vec meta names element_rank) in
    is_Done out.1 = forallb (part_name_accepted meta element_rank) names /\
    (forallb (part_name_accepted meta element_rank) names = true ->
       out = (Done (resolved_parts meta names), []) /\
       map (get_part meta) names = map Some (resolved_parts meta names)) /\
    (forall good bad rest,
       names = good ++ bad :: rest ->
       forallb (part_name_accepted meta element_rank) good = true ->
       part_name_accepted meta element_rank bad = false ->
       out = (Thrown (part_name_error meta bad), part_name_report meta bad)).
Proof.
  intros meta names element_rank out. unfold out. split_and!.
  - destruct (forallb _ names) eqn:Hall.
    + by rewrite create_part_vec_accepted.
    + apply forallb_false_split in Hall
        as (good & bad & rest & -> & Hgood & Hbad).
      by rewrite (create_part_vec_rejected _ _ _ _ _ Hgood Hbad).
  - intros Hall. split; [by apply create_part_vec_accepted|].
    by apply (resolved_parts_accepted _ element_rank).
  - intros good bad rest -> Hgood Hbad. by apply create_part_vec_rejected.
Qed.

(** X2 at the sample mesh: two element blocks resolve; a surface among
    them is refused where element rank is asked for, and an unknown name
    is reported and refused. *)
Lemma create_part_vec_all_or_first_error_witness :
  run (create_part_vec volume_meta ["block_1"; "block_2"] true) =
    (Done [block_1; hex_block "block_2"], []) /\
  run (create_part_vec volume_meta ["block_1"; "surface_1"; "nowhere"] true) =
    (Thrown (runtime_error "Sorry, parts need to be elements.. surface_1"),
     []) /\
  run (create_part_vec volume_meta ["block_1"; "nowhere"; "surface_1"] false) =
    (Thrown (runtime_error "Sorry, no part name found by the name nowhere"),
     [naluOutputP0 "Trouble with part nowhere"]).
Proof.
  split_and!.
  - exact (proj1 (proj1 (proj2 (create_part_vec_all_or_first_error volume_meta
                                  ["block_1"; "block_2"] true)) eq_refl)).
  - exact (proj2 (proj2 (create_part_vec_all_or_first_error volume_meta
                           ["block_1"; "surface_1"; "nowhere"] true))
             ["block_1"] "surface_1" ["nowhere"] eq_refl eq_refl eq_refl).
  - exact (proj2 (proj2 (create_part_vec_all_or_first_error volume_meta
                           ["block_1"; "nowhere"; "surface_1"] false))
             ["block_1"] "nowhere" ["surface_1"] eq_refl eq_refl eq_refl).
Defined.

(** ** Loops over registration calls *)

Lemma bindC_Done {A B} (m : MC A) (k : A -> MC B) tr a tr' :
  m tr = (Done a, tr') -> bindC m k tr = k a tr'.
Proof. unfold bindC. by intros ->. Qed.

Lemma bindC_Thrown {A B} (m : MC A) (k : A -> MC B) tr e tr' :
  m tr = (Thrown e, tr') -> bindC m k tr = (Thrown e, tr').
Proof. unfold bindC. by intros ->. Qed.

Lemma bindC_callC {B} (c : RegistrationCall) (k : unit -> MC B) tr :
  bindC (callC c) k tr = k tt (tr ++ [inr c]).
Proof. reflexivity. Qed.

Lemma liftC_run {A} (m : M A) o t tr :
  run m = (o, t) -> liftC m tr = (o, tr ++ map inl t).
Proof. unfold liftC. by intros ->. Qed.

Lemma for_eachC_calls {A} (xs : list A) (body : A -> MC unit)
    (f : A -> Calls) :
  Forall (fun x => forall tr, body x tr = (Done tt, tr ++ f x)) xs ->
  forall tr, for_eachC xs body tr = (Done tt, tr ++ flat_map f xs).
Proof.
  induction 1 as [|x xs Hx _ IH]; intros tr; simpl.
  - unfold retC. by rewrite app_nil_r.
  - rewrite (bindC_Done _ _ _ _ _ (Hx tr)), IH. by rewrite app_assoc.
Qed.

Lemma for_eachC_call {A} (xs : list A) (c : A -> RegistrationCall) tr :
  for_eachC xs (fun x => callC (c x)) tr =
  (Done tt, tr ++ map (fun x => inr (c x)) xs).
Proof.
  assert (flat_map (fun x => [inr (c x)]) xs =
          map (fun x => @inr Event _ (c x)) xs) as <-.
  { induction xs as [|x xs IH]; simpl; congruence. }
  apply for_eachC_calls, Forall_forall. by intros x _ tr'.
Qed.

Lemma for_eachC_app {A} (xs ys : list A) (body : A -> MC unit) tr :
  for_eachC (xs ++ ys) body tr =
  bindC (for_eachC xs body) (fun _ => for_eachC ys body) tr.
Proof.
  revert tr. induction xs as [|x xs IH]; intros tr; simpl; [done|].
  unfold bindC. destruct (body x tr) as [[[]| |] tr']; [|done|done].
  rewrite IH. reflexivity.
Qed.

Lemma for_eachC_thrown {A} (good rest : list A) (bad : A)
    (body : A -> MC unit) (f : A -> Calls) (e : Exception) (t : Calls) :
  Forall (fun x => forall tr, body x tr = (Done tt, tr ++ f x)) good ->
  (forall tr, body bad tr = (Thrown e, tr ++ t)) ->
  forall tr, for_eachC (good ++ bad :: rest) body tr =
             (Thrown e, tr ++ flat_map f good ++ t).
Proof.
  intros Hgood Hbad tr. rewrite for_eachC_app.
  rewrite (bindC_Done _ _ _ _ _ (for_eachC_calls _ _ _ Hgood tr)).
  simpl. unfold bindC. rewrite Hbad. by rewrite app_assoc.
Qed.

Lemma registration_calls_app (t1 t2 : Calls) :
  registration_calls (t1 ++ t2) =
  registration_calls t1 ++ registration_calls t2.
Proof. apply omap_app. Qed.

Lemma registration_calls_inr (l : list RegistrationCall) :
  registration_calls (map inr l) = l.
Proof.
  induction l as [|c l IH]; [done|].
  unfold registration_calls in *. simpl. f_equal. exact IH.
Qed.

Lemma registration_calls_inl (l : list Event) :
  registration_calls (map inl l) = [].
Proof.
  induction l as [|c l IH]; [done|].
  unfold registration_calls in *. simpl. exact IH.
Qed.

Lemma written_app (t1 t2 : Calls) :
  written (t1 ++ t2) = written t1 ++ written t2.
Proof. apply omap_app. Qed.

(** ** Field registration *)

Lemma for_each_systems_call (es : EquationSystems)
    (c : EquationSystem -> RegistrationCall) tr :
  for_eachC (equationSystemVector_ es) (fun ii => callC (c ii)) tr =
  (Done tt, tr ++ map inr (map c (equationSystemVector_ es))).
Proof. rewrite for_eachC_call. by rewrite map_map. Qed.

(** X3.  [register_nodal_fields] and [register_edge_fields] resolve all
    the names before they register anything.  When every name resolves,
    the whole part vector goes to the realm once and then to every owned
    system in registration order (to the systems only, for edge fields);
    when some name does not resolve, the call throws and neither the realm
    nor any system has been called. *)
Theorem register_nodal_fields_all_or_nothing :
  forall (es : EquationSystems) (targetNames : list string),
    let meta := meta_data (realm_ es) in
    let part_vec := resolved_parts meta targetNames in
    let nodal := runC (register_nodal_fields es targetNames) in
    let edge := runC (register_edge_fields es targetNames) in
    (forallb (part_name_accepted meta false) targetNames = true ->
       nodal =
         (Done tt,
          map inr (Realm_register_nodal_fields part_vec ::
                   map (fun ii => Eq_register_nodal_fields ii part_vec)
                     (equationSystemVector_ es))) /\
       edge =
         (Done tt,
          map inr (map (fun ii => Eq_register_edge_fields ii part_vec)
                     (equationSystemVector_ es)))) /\
    (forallb (part_name_accepted meta false) targetNames = false ->
       is_Done nodal.1 = false /\ registration_calls nodal.2 = [] /\
       is_Done edge.1 = false /\ registration_calls edge.2 = []).
Proof.
  intros es names meta part_vec nodal edge.
  unfold nodal, edge, runC, register_nodal_fields, register_edge_fields.
  fold meta. split.
  - intros Hall.
    rewrite !(bindC_Done _ _ _ _ _
                (liftC_run _ _ _ _ (create_part_vec_accepted _ _ _ Hall))).
    fold part_vec. split.
    + unfold bindC at 1, callC at 1. by rewrite for_each_systems_call.
    + by rewrite for_each_systems_call.
  - intros (good & bad & rest & -> & Hgood & Hbad)%forallb_false_split.
    rewrite !(bindC_Thrown _ _ _ _ _
                (liftC_run _ _ _ _
                   (create_part_vec_rejected _ _ _ _ _ Hgood Hbad))).
    simpl. by rewrite registration_calls_inl.
Qed.

(** X3 at the sample mesh. *)
Lemma register_nodal_fields_all_or_nothing_witness :
  runC (register_nodal_fields volume_systems ["block_1"; "surface_1"]) =
    (Done tt,
     [inr (Realm_register_nodal_fields [block_1; surface_1]);
      inr (Eq_register_nodal_fields (sample_system 0 0) [block_1; surface_1]);
      inr (Eq_register_nodal_fields (sample_system 1 2) [block_1; surface_1])])
  /\
  registration_calls
    (runC (register_nodal_fields volume_systems ["block_1"; "nowhere"])).2
    = [].
Proof.
  split.
  - exact (proj1 (proj1 (register_nodal_fields_all_or_nothing volume_systems
                           ["block_1"; "surface_1"]) eq_refl)).
  - exact (proj1 (proj2 (proj2 (register_nodal_fields_all_or_nothing
                                  volume_systems ["block_1"; "nowhere"])
                           eq_refl))).
Defined.

(** X4.  [register_element_fields] declares the field "element_volume" on
    the mesh database before it looks at the names.  When every name is
    an element part, each part in turn goes, alone and with its topology,
    to every owned system in registration order, and the field is then put
    on the union of the parts with one scalar per entity.  When a name is
    unknown or not an element part, the call throws with the field
    declared and nothing else done. *)
Theorem register_element_fields_declares_first :
  forall (es : EquationSystems) (targetNames : list string),
    let meta := meta_data (realm_ es) in
    let part_vec := resolved_parts meta targetNames in
    let out := runC (register_element_fields es targetNames) in
    (forallb (part_name_accepted meta true) targetNames = true ->
       out =
         (Done tt,
          map inr
            ([MetaData_declare_field ScalarFieldType ELEMENT_RANK
                "element_volume"] ++
             flat_map
               (fun targetPart =>
                  map (fun ii => Eq_register_element_fields ii [targetPart]
                                   (part_topology targetPart))
                    (equationSystemVector_ es)) part_vec ++
             [put_field_on_mesh "element_volume" part_vec 1]))) /\
    (forallb (part_name_accepted meta true) targetNames = false ->
       is_Done out.1 = false /\
       registration_calls out.2 =
         [MetaData_declare_field ScalarFieldType ELEMENT_RANK
            "element_volume"]).
Proof.
  intros es names meta part_vec out.
  unfold out, runC, register_element_fields. fold meta.
  rewrite !bindC_callC. split.
  - intros Hall.
    rewrite (bindC_Done _ _ _ _ _
               (liftC_run _ _ _ _ (create_part_vec_accepted _ _ _ Hall))).
    fold part_vec.
    erewrite bindC_Done; last first.
    { apply (for_eachC_calls _ _
        (fun targetPart =>
           map inr (map (fun ii => Eq_register_element_fields ii [targetPart]
                                     (part_topology targetPart))
                      (equationSystemVector_ es)))).
      apply Forall_forall. intros targetPart _ tr.
      apply for_each_systems_call. }
    unfold callC. f_equal. simpl. f_equal.
    rewrite map_app. f_equal.
    clear. induction part_vec as [|p ps IH]; [done|].
    simpl. by rewrite map_app, IH.
  - intros (good & bad & rest & -> & Hgood & Hbad)%forallb_false_split.
    rewrite (bindC_Thrown _ _ _ _ _
               (liftC_run _ _ _ _
                  (create_part_vec_rejected _ _ _ _ _ Hgood Hbad))).
    split; [done|]. unfold snd.
    by rewrite !registration_calls_app, registration_calls_inl.
Qed.

(** X4 at the sample mesh: two blocks, and a surface among the names. *)
Lemma register_element_fields_declares_first_witness :
  runC (register_element_fields volume_systems ["block_1"; "block_2"]) =
    (Done tt,
     [inr (MetaData_declare_field ScalarFieldType ELEMENT_RANK
             "element_volume");
      inr (Eq_register_element_fields (sample_system 0 0) [block_1]
             "HEXAHEDRON_8");
      inr (Eq_register_element_fields (sample_system 1 2) [block_1]
             "HEXAHEDRON_8");
      inr (Eq_register_element_fields (sample_system 0 0)
             [hex_block "block_2"] "HEXAHEDRON_8");
      inr (Eq_register_element_fields (sample_system 1 2)
             [hex_block "block_2"] "HEXAHEDRON_8");
      inr (put_field_on_mesh "element_volume"
             [block_1; hex_block "block_2"] 1)]) /\
  registration_calls
    (runC (register_element_fields volume_systems ["block_1"; "surface_1"])).2
    = [MetaData_declare_field ScalarFieldType ELEMENT_RANK "element_volume"].
Proof.
  split.
  - exact (proj1 (register_element_fields_declares_first volume_systems
                    ["block_1"; "block_2"]) eq_refl).
  - exact (proj2 (proj2 (register_element_fields_declares_first volume_systems
                           ["block_1"; "surface_1"]) eq_refl)).
Defined.

(** ** Algorithm registration *)

Lemma interior_body_accepted es targetName :
  interior_name_accepted (meta_data (realm_ es)) targetName = true ->
  exists targetPart,
    get_part (meta_data (realm_ es)) targetName = Some targetPart /\
    forall (no_part not_element : MC unit) tr,
      match get_part (meta_data (realm_ es)) targetName with
      | None => no_part
      | Some targetPart =>
          if negb (bool_decide
                     (ELEMENT_RANK = primary_entity_rank targetPart))
          then not_element
          else
            bindC (callC (Realm_register_interior_algorithm targetPart))
              (fun _ =>
                 for_eachC (equationSystemVector_ es) (fun ii =>
                   callC (Eq_register_interior_algorithm ii targetPart)))
      end tr =
      (Done tt, tr ++ map inr (interior_calls es targetPart)).
Proof.
  unfold interior_name_accepted, part_name_accepted. simpl.
  destruct (get_part _ targetName) as [targetPart|]; [|done].
  intros Hrank%negb_true_iff. exists targetPart. split; [done|].
  intros no_part not_element tr.
  rewrite Hrank, bindC_callC, for_each_systems_call.
  unfold interior_calls. simpl. by rewrite <- app_assoc.
Qed.

Lemma interior_calls_accepted es names :
  forallb (interior_name_accepted (meta_data (realm_ es))) names = true ->
  forall tr,
    register_interior_algorithm es names tr =
    (Done tt,
     tr ++ map inr (flat_map (interior_calls es)
                      (resolved_parts (meta_data (realm_ es)) names))).
Proof.
  unfold register_interior_algorithm.
  induction names as [|name names IH]; simpl; intros Hall tr.
  - unfold retC. by rewrite app_nil_r.
  - apply andb_true_iff in Hall as [Hname Hall].
    destruct (interior_body_accepted es name Hname)
      as (targetPart & Hpart & Hbody).
    rewrite (bindC_Done _ _ _ _ _ (Hbody _ _ tr)), (IH Hall).
    unfold resolved_parts. simpl. rewrite Hpart. simpl.
    rewrite <- app_assoc. simpl. by rewrite map_app.
Qed.

(** X5.  [register_interior_algorithm] checks and registers name by name.
    When every name is an element part, each part goes to the realm and
    then to every owned system in registration order, part after part.
    At the first name that is unknown or not an element part it throws,
    and the parts of the names before it have already been registered with
    the realm and with every system. *)
Theorem register_interior_algorithm_name_by_name :
  forall (es : EquationSystems) (targetNames : list string),
    let meta := meta_data (realm_ es) in
    let out := runC (register_interior_algorithm es targetNames) in
    (forallb (interior_name_accepted meta) targetNames = true ->
       out = (Done tt,
              map inr (flat_map (interior_calls es)
                         (resolved_parts meta targetNames)))) /\
    (forall good bad rest,
       targetNames = good ++ bad :: rest ->
       forallb (interior_name_accepted meta) good = true ->
       interior_name_accepted meta bad = false ->
       out = (Thrown (part_name_error meta bad),
              map inr (flat_map (interior_calls es)
                         (resolved_parts meta good)))).
Proof.
  intros es names meta out. unfold out, runC. split.
  - intros Hall. by rewrite interior_calls_accepted.
  - intros good bad rest -> Hgood Hbad.
    unfold register_interior_algorithm. rewrite for_eachC_app.
    fold (register_interior_algorithm es good).
    rewrite (bindC_Done _ _ _ _ _ (interior_calls_accepted es good Hgood [])).
    simpl. unfold bindC.
    unfold interior_name_accepted, part_name_accepted in Hbad.
    unfold part_name_error. fold meta in Hbad |- *.
    destruct (get_part meta bad) as [part|]; [|done].
    simpl in Hbad. apply negb_false_iff in Hbad. by rewrite Hbad.
Qed.

(** X5 at the sample mesh: the first block is registered before the
    surface is refused, and the block after the surface is not
    registered. *)
Lemma register_interior_algorithm_name_by_name_witness :
  runC (register_interior_algorithm volume_systems
          ["block_1"; "surface_1"; "block_2"]) =
    (Thrown (runtime_error "Sorry, parts need to be elements.. surface_1"),
     [inr (Realm_register_interior_algorithm block_1);
      inr (Eq_register_interior_algorithm (sample_system 0 0) block_1);
      inr (Eq_register_interior_algorithm (sample_system 1 2) block_1)]).
Proof.
  exact (proj2 (register_interior_algorithm_name_by_name volume_systems
                  ["block_1"; "surface_1"; "block_2"])
           ["block_1"] "surface_1" ["block_2"] eq_refl eq_refl eq_refl).
Defined.

Lemma surface_pp_subsets_run meta name (parts : list Part) :
  forall tr,
    for_eachC parts
      (fun part =>
         if negb (is_side_part meta part)
         then outputC ("SurfacePP: part is not a face: " +:+ name)
         else retC tt) tr =
    (Done tt,
     tr ++ map inl
             (map (fun _ =>
                     naluOutputP0 ("SurfacePP: part is not a face: " +:+ name))
                (List.filter (fun part => negb (is_side_part meta part))
                   parts))).
Proof.
  induction parts as [|p ps IH]; intros tr; simpl.
  - unfold retC. by rewrite app_nil_r.
  - unfold bindC. destruct (is_side_part meta p); simpl.
    + by rewrite IH.
    + unfold outputC. rewrite IH. by rewrite <- app_assoc.
Qed.

Lemma surface_pp_parts_run meta names :
  forall partVector tr,
    surface_pp_parts meta names partVector tr =
      (Done (partVector ++ flat_map subsets (resolved_parts meta names)),
       tr ++ map inl (surface_pp_reports meta names)).
Proof.
  induction names as [|name names IH]; intros partVector tr; simpl.
  - unfold retC. simpl. by rewrite !app_nil_r.
  - unfold resolved_parts. simpl.
    destruct (get_part meta name) as [targetPart|]; simpl.
    + rewrite (bindC_Done _ _ _ _ _ (surface_pp_subsets_run _ _ _ _)).
      rewrite IH. fold (resolved_parts meta names).
      by rewrite map_app, <- !app_assoc.
    + unfold bindC, outputC. rewrite IH.
      fold (resolved_parts meta names). by rewrite <- app_assoc.
Qed.

(** X6.  [register_surface_pp_algorithm] never fails.  For each name in
    turn it writes that no part was found, or one line for each subset of
    the part that has no side rank; an unknown name is skipped, and a
    subset without side rank is kept.  After these reports the part vector
    made of all the subsets of all the parts that resolve, in order, is
    handed with the data to every owned system, once each in registration
    order, also when it is empty; nothing else is written or called. *)
Theorem register_surface_pp_algorithm_never_fails :
  forall (es : EquationSystems) (theData : PostProcessingData),
    let meta := meta_data (realm_ es) in
    runC (register_surface_pp_algorithm es theData) =
    (Done tt,
     map inl (surface_pp_reports meta (targetNames_ theData)) ++
     map inr
       (map (fun ii =>
               Eq_register_surface_pp_algorithm ii theData
                 (flat_map subsets
                    (resolved_parts meta (targetNames_ theData))))
          (equationSystemVector_ es))).
Proof.
  intros es theData meta.
  unfold runC, register_surface_pp_algorithm. fold meta.
  rewrite (bindC_Done _ _ _ _ _
             (surface_pp_parts_run meta (targetNames_ theData) [] [])).
  by rewrite for_each_systems_call.
Qed.

(** X6 at the sample mesh: an unknown name and a surface with an element
    block among its subsets. *)
Lemma register_surface_pp_algorithm_never_fails_witness :
  written
    (runC (register_surface_pp_algorithm mesh_systems
             {| targetNames_ := ["nowhere"; "mixed_1"] |})).2 =
  [naluOutputP0 "SurfacePP: can not find part with name: nowhere";
   naluOutputP0 "SurfacePP: part is not a face: mixed_1"].
Proof.
  rewrite (register_surface_pp_algorithm_never_fails mesh_systems
             {| targetNames_ := ["nowhere"; "mixed_1"] |}).
  vm_compute. reflexivity.
Defined.

(** ** Boundary data *)

Lemma execute_all_run (algs : list Algorithm) tr :
  execute_all algs tr = (Done tt, tr ++ map inr (map Algorithm_execute algs)).
Proof.
  unfold execute_all.
  rewrite (for_eachC_calls _ _
             (fun k => match algs !! k with
                       | Some alg => [inr (Algorithm_execute alg)]
                       | None => []
                       end)).
  - f_equal. f_equal.
    assert (Hgen : forall pre,
              flat_map (fun k => match (pre ++ algs) !! k with
                                 | Some alg => [inr (Algorithm_execute alg)]
                                 | None => []
                                 end) (seq (length pre) (length algs)) =
              map (@inr Event _) (map Algorithm_execute algs)).
    { induction algs as [|alg algs IH]; intros pre; [done|].
      simpl. rewrite list_lookup_middle by done. simpl. f_equal.
      specialize (IH (pre ++ [alg])).
      rewrite <- app_assoc, length_app in IH. simpl in IH.
      by rewrite Nat.add_1_r in IH. }
    exact (Hgen []).
  - apply Forall_forall. intros k Hk%list_elem_of_In%in_seq tr'.
    destruct (lookup_lt_is_Some_2 algs k) as [alg Halg]; [lia|].
    by rewrite Halg.
Qed.

(** X7.  [populate_boundary_data] executes every boundary-condition data
    algorithm of every owned system exactly once, system by system in
    registration order and in the order of the system's list, and no index
    is out of range; [boundary_data_to_state_data] does the same with the
    mapping algorithms.  [post_external_data_transfer_work] calls the
    hooks of the systems as many times as [populate_boundary_data]
    executes algorithms. *)
Theorem populate_boundary_data_executes_each_once :
  forall es : EquationSystems,
    runC (populate_boundary_data es) =
      (Done tt,
       map inr (map Algorithm_execute
                  (flat_map bcDataAlg_ (equationSystemVector_ es)))) /\
    runC (boundary_data_to_state_data es) =
      (Done tt,
       map inr (map Algorithm_execute
                  (flat_map bcDataMapAlg_ (equationSystemVector_ es)))) /\
    length (post_external_calls
              (run (post_external_data_transfer_work es)).2) =
    length (registration_calls (runC (populate_boundary_data es)).2).
Proof.
  intros es.
  assert (Hrun : forall (algs : EquationSystem -> list Algorithm),
            runC (for_eachC (equationSystemVector_ es)
                    (fun ii => execute_all (algs ii))) =
            (Done tt,
             map inr (map Algorithm_execute
                        (flat_map algs (equationSystemVector_ es))))).
  { intros algs. unfold runC.
    rewrite (for_eachC_calls _ _
               (fun ii => map inr (map Algorithm_execute (algs ii)))).
    - f_equal. simpl.
      induction (equationSystemVector_ es) as [|s v IH]; [done|].
      simpl. by rewrite !map_app, IH.
    - apply Forall_forall. intros ii _ tr. apply execute_all_run. }
  split_and!; [apply Hrun|apply Hrun|].
  unfold populate_boundary_data. rewrite Hrun. unfold snd at 2.
  rewrite registration_calls_inr, length_map.
  rewrite post_external_data_transfer_work_run. unfold snd. clear Hrun.
  induction (equationSystemVector_ es) as [|s v IH]; [done|].
  simpl. unfold post_external_calls in *. rewrite omap_app, !length_app, IH.
  f_equal.
  fold (post_external_calls
          (replicate (length (bcDataAlg_ s))
             (Eq_post_external_data_transfer_work s))).
  by rewrite post_external_calls_replicate, length_replicate.
Qed.

(** ** Decoupled systems *)

Lemma fold_decoupled (v : list EquationSystem) (b : bool) :
  fold_left (fun hasDecoupled eqsys => hasDecoupled && is_decoupled eqsys) v b
  = b && forallb is_decoupled v.
Proof.
  revert b. induction v as [|s v IH]; intros b; simpl.
  - by rewrite andb_true_r.
  - by rewrite IH, andb_assoc.
Qed.

(** X8.  [all_systems_decoupled] is true exactly when the realm has
    overset meshes and every owned system is solved decoupled: one coupled
    system makes it false, a realm without overset meshes makes it false
    whatever the systems say, and with overset meshes a collection that
    owns no system counts as decoupled. *)
Theorem all_systems_decoupled_iff :
  forall es : EquationSystems,
    (all_systems_decoupled es = true <->
     hasOverset_ (realm_ es) = true /\
     forall s, s ∈ equationSystemVector_ es -> decoupledOverset_ s = true) /\
    (hasOverset_ (realm_ es) = true -> equationSystemVector_ es = [] ->
     all_systems_decoupled es = true).
Proof.
  intros es. unfold all_systems_decoupled. rewrite fold_decoupled. simpl.
  split.
  - destruct (hasOverset_ (realm_ es)); simpl.
    + rewrite forallb_forall. unfold is_decoupled.
      setoid_rewrite <- list_elem_of_In. split; [by split|by intros [_ ?]].
    + split; [done|by intros [? _]].
  - by intros -> ->.
Qed.

(** X8 at a realm with overset meshes and an empty collection. *)
Lemma all_systems_decoupled_iff_witness :
  all_systems_decoupled no_systems = true.
Proof.
  exact (proj2 (all_systems_decoupled_iff no_systems) eq_refl eq_refl).
Defined.

(** ** The report of [initialize] *)

Lemma flat_map_coupling_lines (v : list EquationSystem) :
  flat_map (fun eqsys =>
              match linsys_ eqsys with
              | None => []
              | Some _ =>
                  [naluOutputP0 (" - " +:+ eqnTypeName_ eqsys +:+ ": " +:+
                                 (if decoupledOverset_ eqsys
                                  then "decoupled" else "coupled"))]
              end) v =
  map coupling_line (List.filter has_linear_system v).
Proof.
  induction v as [|s v IH]; [done|]. simpl. rewrite IH.
  unfold has_linear_system. by destruct (linsys_ s).
Qed.

(** X9.  [initialize] ends normally, and after "End" it reports the
    overset solution strategy only when the realm has overset meshes: one
    line for each owned system that has a linear system, in registration
    order, saying "decoupled" or "coupled" as the system's flag says;
    systems without a linear system, the wrappers, have no line. *)
Theorem initialize_reports_linear_systems :
  forall es : EquationSystems,
    let out := run (initialize es) in
    out.1 = Done tt /\
    exists before,
      out.2 =
        before ++
        naluOutputP0 "EquationSystems::initialize(): End " ::
        (if hasOverset_ (realm_ es)
         then naluOutputP0 "EquationSystems: overset solution strategy" ::
              map coupling_line
                (List.filter has_linear_system (equationSystemVector_ es))
         else []) /\
      forwarded_calls initialize_hook before = equationSystemVector_ es.
Proof.
  intros es out. unfold out. rewrite initialize_run. split; [done|].
  unfold initialize_calls, snd.
  eexists (_ :: flat_map _ (equationSystemVector_ es)). split.
  - by rewrite flat_map_coupling_lines.
  - change (forwarded_calls initialize_hook
              ([naluOutputP0 "EquationSystems::initialize(): Begin "] ++
               flat_map
                 (fun eqSys =>
                    (if get_activate_memory_diagnostic (realm_ es)
                     then [naluOutputP0
                             ("NaluMemory::EquationSystems::initialize(): "
                              +:+ eqs_name_ eqSys);
                           Realm_provide_memory_summary]
                     else []) ++ [Eq_forwarded initialize_hook eqSys])
                 (equationSystemVector_ es)) = equationSystemVector_ es).
    rewrite forwarded_calls_app, forwarded_calls_flat_map_diag.
    + by rewrite forwarded_calls_diagnostics by repeat constructor.
    + intros s. destruct (get_activate_memory_diagnostic _);
        repeat constructor.
Qed.

(** X9 at a collection led by a wrapper: the wrapper has no line. *)
Lemma initialize_reports_linear_systems_witness :
  exists before,
    (run (initialize wrapped_systems)).2 =
      before ++
      [naluOutputP0 "EquationSystems::initialize(): End ";
       naluOutputP0 "EquationSystems: overset solution strategy";
       coupling_line (sample_system 1 0);
       coupling_line (sample_system 2 1)].
Proof.
  destruct (initialize_reports_linear_systems wrapped_systems)
    as (_ & before & Hout & _).
  exists before. exact Hout.
Defined.

(** ** An empty collection *)

(** X10.  With no equation system owned, [solve_and_update] still runs the
    overset update and the global algorithms before and after the
    iteration, calls no system, and reports convergence. *)
Theorem solve_and_update_no_systems :
  forall (oracle : EquationSystem -> Trace -> bool) (es : EquationSystems),
    equationSystemVector_ es = [] ->
    run (solve_and_update oracle es) =
    (Done true,
     ((if hasOverset_ (realm_ es) then [oversetUpdater_execute] else []) ++
      map AlgorithmDriver_execute (preIterAlgDriver_ es)) ++
     memory_diagnostic_calls es ++
     map AlgorithmDriver_execute (postIterAlgDriver_ es)).
Proof.
  intros oracle es Hnone.
  destruct (solve_and_update_run oracle es) as (answers & Hlen & ->).
  rewrite Hnone in Hlen. destruct answers; [|done].
  unfold calls_before_convergence, pre_iter_calls, per_system_calls,
    post_iter_dep_calls, post_iter_calls.
  rewrite Hnone. simpl. by rewrite app_nil_r.
Qed.

(** X10 at a realm with overset meshes and three global algorithms. *)
Lemma solve_and_update_no_systems_witness :
  run (solve_and_update second_not_converged no_systems) =
  (Done true,
   [oversetUpdater_execute; AlgorithmDriver_execute (AlgDriver 0);
    AlgorithmDriver_execute (AlgDriver 1);
    AlgorithmDriver_execute (AlgDriver 2)]).
Proof.
  exact (solve_and_update_no_systems second_not_converged no_systems eq_refl).
Defined.

(** ** Solver blocks *)

Lemma load_Done_shape NALU_HAS_MATRIXFREE naluEnv constructed
    EquationSystem_load y es es' tr :
  run (load NALU_HAS_MATRIXFREE naluEnv constructed EquationSystem_load y es)
    = (Done es', tr) ->
  exists vector,
    es' = set_equationSystemVector vector (globals_loaded y es).
Proof.
  rewrite load_run. intros Hrun.
  destruct (load_systems_calls NALU_HAS_MATRIXFREE naluEnv constructed
              EquationSystem_load (y_systems y) (globals_loaded y es)
              (map get_if_present (global_read_keys es)))
    as (added & _ & _ & _ & Hdone).
  rewrite Hrun in Hdone. exact (Hdone es' eq_refl).
Qed.

(** X1.  [get_solver_block_name] returns the block name that the solver
    specification maps the equation name to, and for an equation name
    without a mapping it reports the name and throws; it never returns its
    initial value "n_a" of its own.  After a load that completed, the
    mapping is the [solver_system_specification] of the input, whatever the
    collection held before. *)
Theorem get_solver_block_name_after_load :
  forall (NALU_HAS_MATRIXFREE : bool) (naluEnv : NaluEnv)
         (constructed :
            EqSysCtor -> EquationSystems ->
            EquationSystem * list (option EquationSystem))
         (EquationSystem_load :
            EquationSystem -> EqSysNode -> Outcome EquationSystem)
         (y : EquationSystemsNode) (es es' : EquationSystems) (tr : Trace)
         (eqName : string),
    run (load NALU_HAS_MATRIXFREE naluEnv constructed EquationSystem_load
           y es) = (Done es', tr) ->
    run (get_solver_block_name es' eqName) =
    match y_solver_system_specification y !! eqName with
    | Some solverName => (Done solverName, [])
    | None =>
        (Thrown (runtime_error "issue with solver name mapping; none supplied"),
         [naluOutputP0
            ("Missed equation solver block specification for " +:+ eqName)])
    end.
Proof.
  intros flag env ctor own_load y es es' tr eqName Hload.
  destruct (load_Done_shape _ _ _ _ _ _ _ _ Hload) as (vector & ->).
  unfold run, get_solver_block_name. simpl.
  by destruct (y_solver_system_specification y !! eqName).
Qed.

(** ** The kind of a declaration *)

Lemma first_kind_step (y_system : SystemNode) k ks :
  List.find (fun kind => bool_decide (is_Some (y_system !! kind))) (k :: ks) =
  match y_system !! k with
  | Some _ => Some k
  | None => List.find (fun kind => bool_decide (is_Some (y_system !! kind))) ks
  end.
Proof.
  cbn [List.find]. destruct (y_system !! k); [by rewrite bool_decide_eq_true_2|].
  rewrite bool_decide_eq_false_2; [done|]. by intros [? ?].
Qed.

Local Ltac kind_found :=
  unfold leaves_eqSys_null, refuses_realm, debug_output, new_, when, bind,
    call, ret, throw;
  repeat match goal with
         | |- context [if ?b then _ else _] => is_var b; destruct b
         | |- context [if matrix_free ?r then _ else _] =>
             destruct (matrix_free r)
         | |- context [if debug ?e then _ else _] => destruct (debug e)
         | |- context [if (parallel_rank ?e =? 0)%Z then _ else _] =>
             destruct (parallel_rank e =? 0)%Z
         | |- _ => progress simpl
         end;
  rewrite <- ?app_assoc;
  (first [ exists []; split; [by rewrite app_nil_r|]
         | eexists; split; [reflexivity|] ]);
  (split; [reflexivity|]);
  (eexists; split; [eassumption|]);
  first [ split; reflexivity
        | eexists; split; [|split; reflexivity]; reflexivity ].

(** The chain of [if]s takes the first recognised key of the declaration,
    in the order the source tests them, and that key alone decides what is
    constructed. *)
Lemma select_kind NALU_HAS_MATRIXFREE naluEnv realm (y_system : SystemNode)
    tr :
  let out :=
    select_equation_system NALU_HAS_MATRIXFREE naluEnv realm y_system tr in
  exists added,
    out.2 = tr ++ added /\ own_loads added = [] /\
    match first_kind y_system with
    | None =>
        out.1 = Thrown unknown_equation_system_type /\ constructions added = []
    | Some kind =>
        exists y_eqsys,
          y_system !! kind = Some y_eqsys /\
          if leaves_eqSys_null NALU_HAS_MATRIXFREE realm kind
          then out.1 = Done (None, y_eqsys) /\ constructions added = []
          else if refuses_realm NALU_HAS_MATRIXFREE realm kind
          then out.1 = Thrown (runtime_error
                                 "HeatConduction only supported for matrix-free")
               /\ constructions added = []
          else
            exists c,
              kind_name c = kind /\ constructions added = [c] /\
              out.1 = Done (Some c, y_eqsys)
    end.
Proof.
  unfold first_kind, recognized_kinds.
  unfold select_equation_system, expect_map_optional.
  rewrite !first_kind_step. cbn [List.find].
  destruct (y_system !! "LowMachEOM") as [y|] eqn:E1; [kind_found|].
  destruct (y_system !! "VolumeOfFluid") as [y|] eqn:E2; [kind_found|].
  destruct (y_system !! "ShearStressTransport") as [y|] eqn:E3; [kind_found|].
  destruct (y_system !! "ChienKEpsilon") as [y|] eqn:E4; [kind_found|].
  destruct (y_system !! "WilcoxKOmega") as [y|] eqn:E5; [kind_found|].
  destruct (y_system !! "TurbKineticEnergy") as [y|] eqn:E6; [kind_found|].
  destruct (y_system !! "Enthalpy") as [y|] eqn:E7; [kind_found|].
  destruct (y_system !! "HeatConduction") as [y|] eqn:E8; [kind_found|].
  destruct (y_system !! "WallDistance") as [y|] eqn:E9; [kind_found|].
  unfold when, bind, call, throw.
  destruct (parallel_rank naluEnv =? 0)%Z; simpl.
  - by eexists.
  - exists []. by rewrite app_nil_r.
Qed.

(** X13. One declaration of [EquationSystems::load]: the first recognised
    key, in the order of the source's tests, decides the outcome.  With no
    recognised key the load throws and nothing is constructed.  For
    [LowMachEOM] in a matrix-free realm and for [HeatConduction], both
    without matrix-free support compiled in, no object is constructed and
    the null pointer is dereferenced.  [HeatConduction] with the support
    compiled in but a realm that is not matrix-free throws.  In every other
    case exactly one [new] is made, of a system of that kind, and the
    object it returns enters its own [load] once, with the overset defaults
    of the collection assigned; a failure of that [load] is the failure of
    the declaration, and when it returns, the declaration has loaded and
    the settings of the collection are the ones it had. *)
Theorem load_system_kind NALU_HAS_MATRIXFREE naluEnv
    (constructed :
       EqSysCtor -> EquationSystems ->
       EquationSystem * list (option EquationSystem))
    EquationSystem_load (y_system : SystemNode) (es : EquationSystems) tr :
  let out := load_system NALU_HAS_MATRIXFREE naluEnv constructed
               EquationSystem_load y_system es tr in
  exists added,
    out.2 = tr ++ added /\
    match first_kind y_system with
    | None =>
        out.1 = Thrown unknown_equation_system_type /\
        constructions added = [] /\ own_loads added = []
    | Some kind =>
        exists y_eqsys,
          y_system !! kind = Some y_eqsys /\
          if leaves_eqSys_null NALU_HAS_MATRIXFREE (realm_ es) kind
          then out.1 = NullDereference /\
               constructions added = [] /\ own_loads added = []
          else if refuses_realm NALU_HAS_MATRIXFREE (realm_ es) kind
          then out.1 = Thrown (runtime_error
                                 "HeatConduction only supported for matrix-free")
               /\ constructions added = [] /\ own_loads added = []
          else
            exists c,
              kind_name c = kind /\
              constructions added = [c] /\
              let eqSys :=
                set_overset_defaults (decoupledOversetGlobalFlag_ es)
                  (numOversetItersDefault_ es) (constructed c es).1 in
              own_loads added = [(eqSys, y_eqsys)] /\
              match EquationSystem_load eqSys y_eqsys with
              | Done eqSys' =>
                  exists es',
                    out.1 = Done es' /\
                    realm_ es' = realm_ es /\
                    decoupledOversetGlobalFlag_ es' =
                      decoupledOversetGlobalFlag_ es /\
                    numOversetItersDefault_ es' = numOversetItersDefault_ es /\
                    solverSpecMap_ es' = solverSpecMap_ es
              | Thrown e => out.1 = Thrown e
              | NullDereference => out.1 = NullDereference
              end
    end.
Proof.
  intros out. subst out.
  destruct (select_kind NALU_HAS_MATRIXFREE naluEnv (realm_ es) y_system tr)
    as (added & Htr & Hloads & Hkind).
  unfold load_system, bind.
  destruct (select_equation_system NALU_HAS_MATRIXFREE naluEnv (realm_ es)
              y_system tr) as [o tr1].
  simpl in Htr, Hkind. subst tr1.
  destruct (first_kind y_system) as [kind|].
  - destruct Hkind as (y_eqsys & Hy & Hkind).
    destruct (leaves_eqSys_null _ _ _).
    { destruct Hkind as [-> Hc]. exists added. simpl. eauto 10. }
    destruct (refuses_realm _ _ _).
    { destruct Hkind as [-> Hc]. exists added. simpl. eauto 10. }
    destruct Hkind as (c & Hname & Hc & ->).
    set (s := set_overset_defaults _ _ _).
    exists (added ++ [Eq_load s y_eqsys]).
    assert (Hs : own_loads (added ++ [Eq_load s y_eqsys]) = [(s, y_eqsys)]).
    { unfold own_loads in *. by rewrite omap_app, Hloads. }
    assert (Hn : constructions (added ++ [Eq_load s y_eqsys]) = [c]).
    { unfold constructions in *. by rewrite omap_app, Hc. }
    unfold call. cbn [fst snd].
    destruct (EquationSystem_load s y_eqsys) as [s'| |] eqn:Hload;
      cbn [fst snd];
      (split; [by rewrite app_assoc|]); exists y_eqsys; (split; [done|]);
      exists c; (split; [done|]); (split; [done|]); (split; [exact Hs|]);
      fold s; rewrite Hload; [|done|done].
    eexists. split; [reflexivity|]. done.
  - destruct Hkind as [-> Hc]. exists added. simpl. eauto.
Qed.

(** X13 at three declarations: with two recognised keys the one tested
    first is constructed; heat conduction dereferences the null pointer
    without matrix-free support, and throws with it in a realm that is not
    matrix-free. *)
Lemma load_system_kind_witness :
  (exists c,
     kind_name c = "ShearStressTransport" /\
     constructions
       (load_system false sample_env wrapping_constructed
          override_from_own_block two_kinds_decl empty_systems []).2 = [c]) /\
  (load_system false sample_env sample_constructed override_from_own_block
     heat_conduction_decl empty_systems []).1 = NullDereference /\
  (load_system true sample_env sample_constructed override_from_own_block
     heat_conduction_decl empty_systems []).1 =
    Thrown (runtime_error "HeatConduction only supported for matrix-free").
Proof.
  split_and!.
  - destruct (load_system_kind false sample_env wrapping_constructed
                override_from_own_block two_kinds_decl empty_systems [])
      as (added & Htr & Hkind).
    change (first_kind two_kinds_decl) with (Some "ShearStressTransport")
      in Hkind.
    destruct Hkind as (y_eqsys & _ & Hkind).
    change (leaves_eqSys_null false (realm_ empty_systems)
              "ShearStressTransport") with false in Hkind.
    change (refuses_realm false (realm_ empty_systems)
              "ShearStressTransport") with false in Hkind.
    destruct Hkind as (c & Hname & Hc & _).
    exists c. split; [exact Hname|]. rewrite Htr. exact Hc.
  - destruct (load_system_kind false sample_env sample_constructed
                override_from_own_block heat_conduction_decl empty_systems [])
      as (added & _ & Hkind).
    change (first_kind heat_conduction_decl) with (Some "HeatConduction")
      in Hkind.
    destruct Hkind as (y_eqsys & _ & Hkind).
    change (leaves_eqSys_null false (realm_ empty_systems) "HeatConduction")
      with true in Hkind.
    exact (proj1 Hkind).
  - destruct (load_system_kind true sample_env sample_constructed
                override_from_own_block heat_conduction_decl empty_systems [])
      as (added & _ & Hkind).
    change (first_kind heat_conduction_decl) with (Some "HeatConduction")
      in Hkind.
    destruct Hkind as (y_eqsys & _ & Hkind).
    change (leaves_eqSys_null true (realm_ empty_systems) "HeatConduction")
      with false in Hkind.
    change (refuses_realm true (realm_ empty_systems) "HeatConduction")
      with true in Hkind.
    exact (proj1 Hkind).
Defined.

(** ** The systems a load constructs *)

(** A declaration that loads: one [new] was made, of a system of the
    declaration's first recognised kind, and one own [load] entered. *)
Lemma load_system_Done_kind NALU_HAS_MATRIXFREE naluEnv
    (constructed :
       EqSysCtor -> EquationSystems ->
       EquationSystem * list (option EquationSystem))
    EquationSystem_load (y_system : SystemNode) (es es1 : EquationSystems)
    tr tr1 :
  load_system NALU_HAS_MATRIXFREE naluEnv constructed EquationSystem_load
    y_system es tr = (Done es1, tr1) ->
  exists c added,
    first_kind y_system = Some (kind_name c) /\
    tr1 = tr ++ added /\ constructions added = [c] /\
    length (own_loads added) = 1.
Proof.
  destruct (select_kind NALU_HAS_MATRIXFREE naluEnv (realm_ es) y_system tr)
    as (added & Htr & Hloads & Hkind).
  unfold load_system, bind.
  destruct (select_equation_system NALU_HAS_MATRIXFREE naluEnv (realm_ es)
              y_system tr) as [o tr0].
  simpl in Htr, Hkind. subst tr0.
  destruct (first_kind y_system) as [kind|].
  - destruct Hkind as (y_eqsys & Hy & Hkind).
    destruct (leaves_eqSys_null _ _ _); [by destruct Hkind as [-> _]|].
    destruct (refuses_realm _ _ _); [by destruct Hkind as [-> _]|].
    destruct Hkind as (c & <- & Hc & ->).
    set (s := set_overset_defaults _ _ _).
    unfold call. cbn [fst snd].
    destruct (EquationSystem_load s y_eqsys) as [s'| |]; [|done|done].
    intros [= <- <-]. exists c, (added ++ [Eq_load s y_eqsys]).
    split_and!; [done|by rewrite app_assoc| |].
    + unfold constructions in *. by rewrite omap_app, Hc.
    + unfold own_loads in *. by rewrite omap_app, Hloads.
  - by destruct Hkind as [-> _].
Qed.

Lemma load_systems_Done_kinds NALU_HAS_MATRIXFREE naluEnv
    (constructed :
       EqSysCtor -> EquationSystems ->
       EquationSystem * list (option EquationSystem))
    EquationSystem_load (y_systems : list SystemNode) :
  forall (es es' : EquationSystems) tr tr',
  load_systems NALU_HAS_MATRIXFREE naluEnv constructed EquationSystem_load
    y_systems es tr = (Done es', tr') ->
  exists added,
    tr' = tr ++ added /\
    map (fun c => Some (kind_name c)) (constructions added)
      = map first_kind y_systems /\
    length (own_loads added) = length y_systems.
Proof.
  induction y_systems as [|y_system rest IH]; intros es es' tr tr'; simpl.
  - intros [= <- <-]. exists []. by rewrite !app_nil_r.
  - unfold bind.
    destruct (load_system NALU_HAS_MATRIXFREE naluEnv constructed
                EquationSystem_load y_system es tr)
      as [[es1| |] tr1] eqn:Hone; [|done|done].
    intros Hrest.
    destruct (load_system_Done_kind _ _ _ _ _ _ _ _ _ Hone)
      as (c & added1 & Hkind & -> & Hc & Hl).
    destruct (IH _ _ _ _ Hrest) as (added2 & -> & Hkinds & Hlen).
    exists (added1 ++ added2).
    split_and!.
    + by rewrite app_assoc.
    + unfold constructions in *. rewrite omap_app, Hc. simpl.
      by rewrite Hkind, Hkinds.
    + unfold own_loads in *. rewrite omap_app, length_app, Hl, Hlen. done.
Qed.

(** X12.  A load of the collection that completes has made exactly one
    [new] per declaration of the [systems] sequence, in the order of the
    declarations and each of a system of the first recognised kind of its
    declaration, and has entered one own [load] per declaration.  The
    collection takes its name, its maximum number of iterations and its
    solver specification from the input and keeps its realm.  What the
    vector holds afterwards is left to the constructors: with constructors
    that push the new system and nothing else, the collection keeps the
    systems it held, in place, and gains one system per declaration behind
    them. *)
Theorem load_constructs_one_system_per_declaration :
  forall (NALU_HAS_MATRIXFREE : bool) (naluEnv : NaluEnv)
         (constructed :
            EqSysCtor -> EquationSystems ->
            EquationSystem * list (option EquationSystem))
         (EquationSystem_load :
            EquationSystem -> EqSysNode -> Outcome EquationSystem)
         (y : EquationSystemsNode) (es es' : EquationSystems) (tr : Trace),
    run (load NALU_HAS_MATRIXFREE naluEnv constructed EquationSystem_load
           y es) = (Done es', tr) ->
    map (fun c => Some (kind_name c)) (constructions tr)
      = map first_kind (y_systems y) /\
    length (own_loads tr) = length (y_systems y) /\
    name_ es' = y_name y /\
    maxIterations_ es' = y_max_iterations y /\
    solverSpecMap_ es' = y_solver_system_specification y /\
    realm_ es' = realm_ es /\
    ((forall c es0,
        (constructed c es0).2 =
        map Some (equationSystemVector_ es0) ++ [None]) ->
     exists loaded,
       length loaded = length (y_systems y) /\
       equationSystemVector_ es' = equationSystemVector_ es ++ loaded).
Proof.
  intros flag env ctor own_load y es es' tr Hload.
  destruct (load_Done_shape _ _ _ _ _ _ _ _ Hload) as (vector & Hes').
  rewrite load_run in Hload.
  destruct (load_systems_Done_kinds _ _ _ _ _ _ _ _ _ Hload)
    as (added & -> & Hkinds & Hlen).
  assert (Hreads : constructions (map get_if_present (global_read_keys es))
                   = [] /\
                   own_loads (map get_if_present (global_read_keys es)) = []).
  { unfold global_read_keys. by destruct (query_for_overset (realm_ es)). }
  destruct Hreads as [Hc Hl].
  split_and!.
  - rewrite <- Hkinds. unfold constructions in *. by rewrite omap_app, Hc.
  - rewrite <- Hlen. unfold own_loads in *. by rewrite omap_app, Hl.
  - by subst es'.
  - by subst es'.
  - by subst es'.
  - by subst es'.
  - intros Hpush.
    destruct (load_systems_pushed _ _ _ _ _ Hpush _ _ _ _ Hload)
      as (_ & loaded & _ & _ & Hlen' & ->).
    by exists loaded.
Qed.

(** X12 at the sample input: a shear stress transport and an enthalpy
    declaration load into the empty collection.  With the constructor of
    the wrappers there are two constructions and four systems in the
    vector; with the constructor that pushes the new system only, two. *)
Lemma load_constructs_one_system_per_declaration_witness :
  (exists es' tr,
     run (load false sample_env wrapping_constructed override_from_own_block
            (sample_input [two_kinds_decl; enthalpy_decl]) empty_systems)
       = (Done es', tr) /\
     map (fun c => Some (kind_name c)) (constructions tr)
       = [Some "ShearStressTransport"; Some "Enthalpy"] /\
     length (own_loads tr) = 2 /\
     length (equationSystemVector_ es') = 4) /\
  (exists es' tr,
     run (load false sample_env sample_constructed override_from_own_block
            (sample_input [two_kinds_decl; enthalpy_decl]) empty_systems)
       = (Done es', tr) /\
     name_ es' = "theEqSys" /\
     exists loaded,
       length loaded = 2 /\ equationSystemVector_ es' = loaded).
Proof.
  split.
  - eexists _, _. split; [vm_compute; reflexivity|].
    destruct (load_constructs_one_system_per_declaration false sample_env
                wrapping_constructed override_from_own_block
                (sample_input [two_kinds_decl; enthalpy_decl])
                empty_systems _ _ ltac:(vm_compute; reflexivity))
      as (Hkinds & Hloads & _).
    split_and!; [exact Hkinds|exact Hloads|vm_compute; reflexivity].
  - eexists _, _. split; [vm_compute; reflexivity|].
    destruct (load_constructs_one_system_per_declaration false sample_env
                sample_constructed override_from_own_block
                (sample_input [two_kinds_decl; enthalpy_decl])
                empty_systems _ _ ltac:(vm_compute; reflexivity))
      as (_ & _ & Hname & _ & _ & _ & Hpushed).
    split; [exact Hname|].
    destruct (Hpushed (fun c es0 => eq_refl)) as (loaded & Hlen & Hvector).
    exists loaded. split; [exact Hlen|exact Hvector].
Defined.

(** X1 at the sample input: the block of "temperature" is found, the one
    of "pressure" is not. *)
Lemma get_solver_block_name_after_load_witness :
  exists es' tr,
    run (load false sample_env sample_constructed override_from_own_block
           solver_input empty_systems) = (Done es', tr) /\
    run (get_solver_block_name es' "temperature") = (Done "solve_scalar", []) /\
    run (get_solver_block_name es' "pressure") =
      (Thrown (runtime_error "issue with solver name mapping; none supplied"),
       [naluOutputP0
          "Missed equation solver block specification for pressure"]).
Proof.
  eexists _, _. split; [vm_compute; reflexivity|]. split.
  - exact (get_solver_block_name_after_load false sample_env
             sample_constructed override_from_own_block solver_input
             empty_systems _ _ "temperature" ltac:(vm_compute; reflexivity)).
  - exact (get_solver_block_name_after_load false sample_env
             sample_constructed override_from_own_block solver_input
             empty_systems _ _ "pressure" ltac:(vm_compute; reflexivity)).
Defined.

(** ** Field pointers *)

(** X14.  [get_field_ptr<T>(name, state)] returns, normally, only when the
    name has a Registry entry, the field of that entry's rank is
    registered on the mesh database, and [T] is the type the Registry
    declares.  What it returns is then the pointer to the requested state
    of that field when the field has the state, and the null pointer when
    it has not: a null result always means a missing state. *)
Theorem get_field_ptr_returns_only_registered :
  forall (registry : Z -> Z -> gmap string FieldDef) (T : FieldType)
         (fm : FieldManager) (meta : MetaData) (name : string)
         (state : FieldState) (p : option FieldPointer),
    get_field_ptr registry T fm meta name state = Done p ->
    exists def field,
      registry (numDimensions_ fm) (numStates_ fm) !! name = Some def /\
      get_field meta (def_rank def) name = Some field /\
      T = def_FieldType def /\
      match p with
      | Some pointer =>
          (FieldState_index state < number_of_states field)%Z /\
          pointer = {| ptr_FieldType := T; ptr_rank := def_rank def;
                       ptr_name := name; ptr_state := state |}
      | None => (number_of_states field <= FieldState_index state)%Z
      end.
Proof.
  intros registry T fm meta name state p.
  unfold get_field_ptr, FieldRegistry_query.
  destruct (registry (numDimensions_ fm) (numStates_ fm) !! name)
    as [def|]; [|done].
  destruct (get_field meta (def_rank def) name) as [field|] eqn:Hfield;
    [|done].
  unfold std_get. case_bool_decide as HT; [|done].
  intros [= <-]. exists def, field. subst T.
  split_and!; [done|exact Hfield|done|].
  unfold field_of_state.
  destruct (FieldState_index state <? number_of_states field)%Z eqn:Hstate.
  - split; [by apply Z.ltb_lt|done].
  - by apply Z.ltb_ge.
Qed.

(** X14 at the sample catalog: "velocity", registered with two states,
    asked for in its second and in a third state. *)
Lemma get_field_ptr_returns_only_registered_witness :
  (exists def field,
     sample_registry 3 2 !! "velocity" = Some def /\
     get_field meta_with_velocity (def_rank def) "velocity" = Some field /\
     VectorFieldType = def_FieldType def /\
     (FieldState_index StateN < number_of_states field)%Z) /\
  (exists def field,
     sample_registry 3 2 !! "velocity" = Some def /\
     get_field meta_with_velocity (def_rank def) "velocity" = Some field /\
     (number_of_states field <= FieldState_index StateNM1)%Z).
Proof.
  split.
  - destruct (get_field_ptr_returns_only_registered sample_registry
                VectorFieldType sample_manager meta_with_velocity "velocity"
                StateN (Some _) eq_refl)
      as (def & field & Hdef & Hfield & HT & Hstate & _).
    exists def, field.
    split_and!; [exact Hdef|exact Hfield|exact HT|exact Hstate].
  - destruct (get_field_ptr_returns_only_registered sample_registry
                VectorFieldType sample_manager meta_with_velocity "velocity"
                StateNM1 None eq_refl)
      as (def & field & Hdef & Hfield & _ & Hstate).
    exists def, field. split_and!; [exact Hdef|exact Hfield|exact Hstate].
Defined.

(** ** Scratch sizes *)

Lemma find_max_loop_spec (buckets : list Bucket) :
  forall n i e,
    let r := find_max_loop buckets n i e in
    (n <= r.1.1 /\ i <= r.1.2)%Z /\
    Forall (fun b => (topo_num_nodes b <= r.1.1)%Z /\
                     (meSCS_num_integration_points b <= r.1.2)%Z) buckets /\
    (r.1.1 = n \/ Exists (fun b => topo_num_nodes b = r.1.1) buckets) /\
    (r.1.2 = i \/
     Exists (fun b => meSCS_num_integration_points b = r.1.2) buckets).
Proof.
  induction buckets as [|b rest IH]; intros n i e; simpl.
  - split_and!; auto; lia.
  - destruct (IH (Z.max n (topo_num_nodes b))
                 (Z.max i (meSCS_num_integration_points b))
                 (size_t_add e (bucket_size b)))
      as ((Hn & Hi) & Hall & Hnodes & Hips).
    split_and!.
    + lia.
    + lia.
    + constructor; [lia|exact Hall].
    + destruct Hnodes as [Hnodes|Hnodes]; [|by right; constructor 2].
      destruct (Z.max_spec n (topo_num_nodes b)) as [[_ Hmax]|[_ Hmax]].
      * right. constructor 1. lia.
      * left. lia.
    + destruct Hips as [Hips|Hips]; [|by right; constructor 2].
      destruct (Z.max_spec i (meSCS_num_integration_points b))
        as [[_ Hmax]|[_ Hmax]].
      * right. constructor 1. lia.
      * left. lia.
Qed.

(** X17.  The two numbers [find_max_nodes_and_ips] leaves in its
    reference arguments are never negative, no bucket has more nodes per
    element or more integration points than they say, and each of them is
    either zero or the value of one of the buckets. *)
Theorem find_max_nodes_and_ips_bounds :
  forall buckets : list Bucket,
    let r := find_max_nodes_and_ips buckets in
    let maxNodesPerElement := r.1.1 in
    let maxScsIp := r.1.2 in
    (0 <= maxNodesPerElement /\ 0 <= maxScsIp)%Z /\
    Forall (fun b => (topo_num_nodes b <= maxNodesPerElement)%Z /\
                     (meSCS_num_integration_points b <= maxScsIp)%Z)
      buckets /\
    (maxNodesPerElement = 0%Z \/
     Exists (fun b => topo_num_nodes b = maxNodesPerElement) buckets) /\
    (maxScsIp = 0%Z \/
     Exists (fun b => meSCS_num_integration_points b = maxScsIp) buckets).
Proof.
  intros buckets. exact (find_max_loop_spec buckets 0 0 0).
Qed.
